(** * dragontoothmg: make / unmake, Zobrist hashing and legal move generation

    A shallow embedding of the Go package [dragontoothmg] (types.go,
    apply.go, util.go and the move generator) together with the
    properties its specification states about it.

    Conventions of the embedding.
    - A Go [uintN] is an integer of [Z] kept in [0, 2^N); every operation
      that can leave the range is followed by its wrap-around.
    - A bitboard is a [uint64]; square [s] is bit [s].
    - A table indexed outside its bounds is a run-time panic in Go.  The
      tables are total functions here, so a statement about such an input
      describes no run of the program; the generator, whose first table
      access fails on a board without a king, returns [None] there. *)

From Stdlib Require Import ZArith List Bool Lia String Ascii Btauto.
From Stdlib Require Import SpecFloat.
From Stdlib Require Import DecimalString.
Import ListNotations.
Local Open Scope Z_scope.

(* ------------------------------------------------------------------ *)
(** ** Machine integers *)

Module U.

Definition wrap8 (x : Z) : Z := x mod 256.
Definition wrap16 (x : Z) : Z := x mod 65536.
Definition wrap64 (x : Z) : Z := x mod 2 ^ 64.

Definition mask64 : Z := 2 ^ 64 - 1.

(** [^x] on a uint64. *)
Definition not64 (x : Z) : Z := wrap64 (Z.lnot x).
(** [x << n] on a uint64; a count of 64 or more gives 0. *)
Definition shl64 (x n : Z) : Z := wrap64 (Z.shiftl x n).
(** [x >> n] on a uint64. *)
Definition shr64 (x n : Z) : Z := Z.shiftr x n.
(** [uint64(1) << pos]. *)
Definition bit (pos : Z) : Z := shl64 1 pos.

(** [^x] on a uint16 (used by the [Move] setters). *)
Definition not16 (x : Z) : Z := wrap16 (Z.lnot x).

(** Number of trailing zero bits of a positive number. *)
Fixpoint pos_ctz (p : positive) : Z :=
  match p with
  | xO q => 1 + pos_ctz q
  | _ => 0
  end.

(** [bits.TrailingZeros64]: 64 for 0. *)
Definition TrailingZeros64 (x : Z) : Z :=
  match x with
  | Zpos p => pos_ctz p
  | _ => 64
  end.

Fixpoint pos_popcount (p : positive) : Z :=
  match p with
  | xH => 1
  | xO q => pos_popcount q
  | xI q => 1 + pos_popcount q
  end.

(** [bits.OnesCount64]. *)
Definition OnesCount64 (x : Z) : Z :=
  match x with
  | Zpos p => pos_popcount p
  | _ => 0
  end.

(** The idiom
    [for bb != 0 { sq := TrailingZeros64(bb); bb &= bb - 1; ... }]:
    the squares visited, in the order of the visits. *)
Fixpoint popLoop (fuel : nat) (bb : Z) : list Z :=
  match fuel with
  | O => []
  | S f =>
      if bb =? 0 then []
      else TrailingZeros64 bb :: popLoop f (Z.land bb (wrap64 (bb - 1)))
  end.

Definition squaresOf (bb : Z) : list Z := popLoop 64 bb.

(** The 64 square indices. *)
Definition allSquares : list Z := map Z.of_nat (seq 0 64).

(** The bitboard of the squares that satisfy [P]. *)
Definition bbOf (P : Z -> bool) : Z :=
  fold_right (fun s acc => if P s then Z.lor (bit s) acc else acc)
             0 allSquares.

End U.
Import U.

(* ------------------------------------------------------------------ *)
(** ** types.go *)

Inductive ColorT := White | Black.

Definition oppColor (color : ColorT) : ColorT :=
  match color with White => Black | Black => White end.

(** [uint16(color)], [int(color)]. *)
Definition colorCode (c : ColorT) : Z :=
  match c with White => 0 | Black => 1 end.

Definition ColorT_eqb (a b : ColorT) : bool :=
  match a, b with
  | White, White | Black, Black => true
  | _, _ => false
  end.

Inductive CastleRightsT := Queenside | Kingside.

Definition sideCode (s : CastleRightsT) : Z :=
  match s with Queenside => 0 | Kingside => 1 end.

Definition toFlag (side : CastleRightsT) : Z := Z.shiftl 1 (sideCode side).

(** Piece types; [All] (= NPieces = 7) only indexes the bitboards. *)
Inductive Piece := Nothing | Pawn | Knight | Bishop | Rook | Queen | King.

Definition pieceCode (p : Piece) : Z :=
  match p with
  | Nothing => 0 | Pawn => 1 | Knight => 2 | Bishop => 3
  | Rook => 4 | Queen => 5 | King => 6
  end.

Definition Piece_eqb (a b : Piece) : bool := pieceCode a =? pieceCode b.

(** A value indexed by color: [[NColors]T]. *)
Record PerColor (A : Type) := mkPerColor { atWhite : A; atBlack : A }.
Arguments mkPerColor {A} _ _.
Arguments atWhite {A} _.
Arguments atBlack {A} _.

Definition pcGet {A} (a : PerColor A) (c : ColorT) : A :=
  match c with White => atWhite a | Black => atBlack a end.

Definition pcSet {A} (a : PerColor A) (c : ColorT) (v : A) : PerColor A :=
  match c with
  | White => mkPerColor v (atBlack a)
  | Black => mkPerColor (atWhite a) v
  end.

(** [type Bitboards [NPiecesWithAll]uint64]: slot 0 belongs to [Nothing],
    slots 1..6 to the piece kinds, slot 7 to [All]. *)
Record Bitboards := mkBitboards {
  NoPieces : Z;
  Pawns : Z;
  Knights : Z;
  Bishops : Z;
  Rooks : Z;
  Queens : Z;
  Kings : Z;
  All : Z
}.

(** [bb[piece]]. *)
Definition pieceBitboard (bb : Bitboards) (piece : Piece) : Z :=
  match piece with
  | Nothing => NoPieces bb | Pawn => Pawns bb | Knight => Knights bb
  | Bishop => Bishops bb | Rook => Rooks bb | Queen => Queens bb
  | King => Kings bb
  end.

(** [bb[piece] = v]. *)
Definition setPieceBitboard (bb : Bitboards) (piece : Piece) (v : Z)
  : Bitboards :=
  match piece with
  | Nothing => mkBitboards v (Pawns bb) (Knights bb) (Bishops bb) (Rooks bb) (Queens bb) (Kings bb) (All bb)
  | Pawn => mkBitboards (NoPieces bb) v (Knights bb) (Bishops bb) (Rooks bb) (Queens bb) (Kings bb) (All bb)
  | Knight => mkBitboards (NoPieces bb) (Pawns bb) v (Bishops bb) (Rooks bb) (Queens bb) (Kings bb) (All bb)
  | Bishop => mkBitboards (NoPieces bb) (Pawns bb) (Knights bb) v (Rooks bb) (Queens bb) (Kings bb) (All bb)
  | Rook => mkBitboards (NoPieces bb) (Pawns bb) (Knights bb) (Bishops bb) v (Queens bb) (Kings bb) (All bb)
  | Queen => mkBitboards (NoPieces bb) (Pawns bb) (Knights bb) (Bishops bb) (Rooks bb) v (Kings bb) (All bb)
  | King => mkBitboards (NoPieces bb) (Pawns bb) (Knights bb) (Bishops bb) (Rooks bb) (Queens bb) v (All bb)
  end.

(** [bb[All] = v]. *)
Definition setAll (bb : Bitboards) (v : Z) : Bitboards :=
  mkBitboards (NoPieces bb) (Pawns bb) (Knights bb) (Bishops bb) (Rooks bb)
              (Queens bb) (Kings bb) v.

Definition emptyBitboards : Bitboards := mkBitboards 0 0 0 0 0 0 0 0.

Record Board := mkBoard {
  Colortomove : ColorT;
  enpassant : Z;            (* uint8 *)
  Halfmoveclock : Z;        (* uint8 *)
  castlerights : PerColor Z;(* [NColors]CastleRightsFlagsT, uint8 each *)
  Fullmoveno : Z;           (* uint16 *)
  Bbs : PerColor Bitboards;
  pieces : list Piece;      (* [64]Piece *)
  hash : Z                  (* uint64 *)
}.

Definition setColortomove (b : Board) (v : ColorT) : Board :=
  mkBoard v (enpassant b) (Halfmoveclock b) (castlerights b) (Fullmoveno b) (Bbs b) (pieces b) (hash b).
Definition setEnpassant (b : Board) (v : Z) : Board :=
  mkBoard (Colortomove b) v (Halfmoveclock b) (castlerights b) (Fullmoveno b) (Bbs b) (pieces b) (hash b).
Definition setHalfmoveclock (b : Board) (v : Z) : Board :=
  mkBoard (Colortomove b) (enpassant b) v (castlerights b) (Fullmoveno b) (Bbs b) (pieces b) (hash b).
Definition setCastlerights (b : Board) (v : PerColor Z) : Board :=
  mkBoard (Colortomove b) (enpassant b) (Halfmoveclock b) v (Fullmoveno b) (Bbs b) (pieces b) (hash b).
Definition setFullmoveno (b : Board) (v : Z) : Board :=
  mkBoard (Colortomove b) (enpassant b) (Halfmoveclock b) (castlerights b) v (Bbs b) (pieces b) (hash b).
Definition setBbs (b : Board) (v : PerColor Bitboards) : Board :=
  mkBoard (Colortomove b) (enpassant b) (Halfmoveclock b) (castlerights b) (Fullmoveno b) v (pieces b) (hash b).
Definition setPieces (b : Board) (v : list Piece) : Board :=
  mkBoard (Colortomove b) (enpassant b) (Halfmoveclock b) (castlerights b) (Fullmoveno b) (Bbs b) v (hash b).
Definition setHash (b : Board) (v : Z) : Board :=
  mkBoard (Colortomove b) (enpassant b) (Halfmoveclock b) (castlerights b) (Fullmoveno b) (Bbs b) (pieces b) v.

(** [b.Bbs[col]], and the assignments [b.Bbs[col][piece] = v],
    [b.Bbs[col][All] = v]. *)
Definition bbsOf (b : Board) (col : ColorT) : Bitboards := pcGet (Bbs b) col.

Definition setBb (b : Board) (col : ColorT) (piece : Piece) (v : Z) : Board :=
  setBbs b (pcSet (Bbs b) col (setPieceBitboard (bbsOf b col) piece v)).

Definition setAllBb (b : Board) (col : ColorT) (v : Z) : Board :=
  setBbs b (pcSet (Bbs b) col (setAll (bbsOf b col) v)).

(** In-place update of a list at an index; nothing changes out of range
    (where Go panics). *)
Fixpoint updNth {A} (n : nat) (v : A) (l : list A) : list A :=
  match l, n with
  | [], _ => []
  | _ :: t, O => v :: t
  | h :: t, S k => h :: updNth k v t
  end.

(** [b.pieces[pos]] and [b.pieces[pos] = piece]. *)
Definition PieceAt (b : Board) (pos : Z) : Piece :=
  nth (Z.to_nat pos) (pieces b) Nothing.

Definition setPieceAt (b : Board) (pos : Z) (piece : Piece) : Board :=
  setPieces b (updNth (Z.to_nat pos) piece (pieces b)).

Definition ourBitboards (b : Board) : Bitboards := bbsOf b (Colortomove b).
Definition oppBitboards (b : Board) : Bitboards :=
  bbsOf b (oppColor (Colortomove b)).

Definition bitSet (bits pos : Z) : bool :=
  negb (Z.land bits (bit pos) =? 0).

(** [isConsistent]: the pieces array against the bitboards. *)
Definition pieceOk (b : Board) (i : Z) : bool :=
  let w := bbsOf b White in
  let k := bbsOf b Black in
  match PieceAt b i with
  | Nothing => bitSet (not64 (Z.lor (All w) (All k))) i
  | p => bitSet (Z.lor (pieceBitboard w p) (pieceBitboard k p)) i
  end.

Definition isConsistent (b : Board) : bool * Z :=
  match find (fun i => negb (pieceOk b i)) allSquares with
  | Some i => (false, i)
  | None => (true, 0)
  end.

(** [addPiece], [removePiece], [movePiece].  The two pointer arguments of
    the source always point into [b.Bbs[col]], at the slot of the piece and
    at [All]; they are given here by [col] and the piece. *)
Definition addPiece (b : Board) (col : ColorT) (piece : Piece) (pos : Z)
  : Board :=
  let b := setBb b col piece (Z.lor (pieceBitboard (bbsOf b col) piece) (bit pos)) in
  let b := setAllBb b col (Z.lor (All (bbsOf b col)) (bit pos)) in
  setPieceAt b pos piece.

Definition removePiece (b : Board) (col : ColorT) (piece : Piece) (pos : Z)
  : Board :=
  let b := setBb b col piece
             (Z.land (pieceBitboard (bbsOf b col) piece) (not64 (bit pos))) in
  let b := setAllBb b col (Z.land (All (bbsOf b col)) (not64 (bit pos))) in
  setPieceAt b pos Nothing.

Definition movePiece (b : Board) (col : ColorT) (piece destPiece : Piece)
  (from to : Z) : Board :=
  let b := removePiece b col piece from in
  addPiece b col destPiece to.

Definition canCastle (b : Board) (color : ColorT) (side : CastleRightsT)
  : bool :=
  negb (Z.land (pcGet (castlerights b) color) (toFlag side) =? 0).

Definition weCanCastle (b : Board) (side : CastleRightsT) : bool :=
  canCastle b (Colortomove b) side.

Definition oppCanCastle (b : Board) (side : CastleRightsT) : bool :=
  canCastle b (oppColor (Colortomove b)) side.

Definition isWhitePieceAt (b : Board) (pos : Z) : bool :=
  negb (Z.land (All (bbsOf b White)) (bit pos) =? 0).

Definition isBlackPieceAt (b : Board) (pos : Z) : bool :=
  negb (Z.land (All (bbsOf b Black)) (bit pos) =? 0).

(** *** Moves: a uint16 *)

Definition Move := Z.

Definition To (m : Move) : Z := wrap8 (Z.land m 63).
Definition From (m : Move) : Z := wrap8 (Z.shiftr (Z.land m 4032) 6).
(** [Promote] as the raw 3-bit number; the callers compare it with the
    piece constants. *)
Definition Promote (m : Move) : Z := wrap8 (Z.shiftr (Z.land m 28672) 12).
Definition IsSimple (m : Move) : bool := negb (Z.land m 32768 =? 0).

(** The setters take a [Square] or [Piece], both uint8. *)
Definition Setto (m : Move) (s : Z) : Move :=
  Z.lor (Z.land m (not16 63)) s.
Definition Setfrom (m : Move) (s : Z) : Move :=
  Z.lor (Z.land m (not16 4032)) (wrap16 (Z.shiftl s 6)).
Definition Setpromote (m : Move) (p : Z) : Move :=
  Z.lor (Z.land m (not16 28672)) (wrap16 (Z.shiftl p 12)).
Definition Setsimple (m : Move) : Move := Z.lor m 32768.

(** [Square(x)] for an [int] x. *)
Definition Square (x : Z) : Z := wrap8 x.

(* ------------------------------------------------------------------ *)
(** ** Zobrist constants

    The tables [pieceSquareZobristC], [castleRightsZobristC] and the
    constant [whiteToMoveZobristC] are initialised elsewhere in the
    package; the development is parametric in them. *)

Class ZobristKeys := {
  pieceSquareZobristC : Z -> Z -> Z;           (* [12][64]uint64 *)
  castleRightsZobristC : ColorT -> CastleRightsT -> Z;
  whiteToMoveZobristC : Z
}.

(** Add this to the e.p. square to find the captured pawn. *)
Definition epDeltas (c : ColorT) : Z :=
  match c with White => -8 | Black => 8 end.

Definition piecesPawnZobristIndexes (c : ColorT) : Z :=
  match c with White => 0 | Black => 6 end.

(** Modelled from the spec: the mask tables [onlyFile] and [onlyRank]
    ("eight files / eight ranks as bitboards"; square [s] has file [s & 7]
    and rank [s >> 3]) are not among the sources. *)
Definition onlyFile (f : Z) : Z := bbOf (fun s => Z.land s 7 =? f).
Definition onlyRank (r : Z) : Z := bbOf (fun s => Z.shiftr s 3 =? r).

Definition startingRankBbs (c : ColorT) : Z :=
  match c with White => onlyRank 0 | Black => onlyRank 7 end.

Section Apply.
Context {zk : ZobristKeys}.

Definition flipCastleRights (b : Board) (color : ColorT)
  (side : CastleRightsT) : Board :=
  let b := setCastlerights b
             (pcSet (castlerights b) color
                    (Z.lxor (pcGet (castlerights b) color) (toFlag side))) in
  setHash b (Z.lxor (hash b) (castleRightsZobristC color side)).

Definition flipOurCastleRights (b : Board) (side : CastleRightsT) : Board :=
  flipCastleRights b (Colortomove b) side.

Definition flipOppCastleRights (b : Board) (side : CastleRightsT) : Board :=
  flipCastleRights b (oppColor (Colortomove b)) side.

(** util.go *)
Definition recomputeBoardHash (b : Board) : Z :=
  let hash := 0 in
  let hash := match Colortomove b with
              | White => Z.lxor hash whiteToMoveZobristC
              | Black => hash
              end in
  let hash := if canCastle b White Kingside
              then Z.lxor hash (castleRightsZobristC White Kingside) else hash in
  let hash := if canCastle b White Queenside
              then Z.lxor hash (castleRightsZobristC White Queenside) else hash in
  let hash := if canCastle b Black Kingside
              then Z.lxor hash (castleRightsZobristC Black Kingside) else hash in
  let hash := if canCastle b Black Queenside
              then Z.lxor hash (castleRightsZobristC Black Queenside) else hash in
  let hash := Z.lxor hash (enpassant b) in
  fold_left
    (fun hash i =>
       if isWhitePieceAt b i
       then Z.lxor hash (pieceSquareZobristC (pieceCode (PieceAt b i) - 1) i)
       else if isBlackPieceAt b i
       then Z.lxor hash (pieceSquareZobristC (pieceCode (PieceAt b i) + 5) i)
       else hash)
    allSquares hash.

End Apply.

Definition IsCapture (m : Move) (b : Board) : bool :=
  let toBitboard := bit (To m) in
  if negb (Z.land toBitboard (All (bbsOf b White)) =? 0)
     || negb (Z.land toBitboard (All (bbsOf b Black)) =? 0)
  then true
  else
    let fromBitboard := bit (From m) in
    let originIsPawn :=
      negb (Z.land fromBitboard (Pawns (bbsOf b White)) =? 0)
      || negb (Z.land fromBitboard (Pawns (bbsOf b Black)) =? 0) in
    originIsPawn && negb (Z.land toBitboard (bit (enpassant b)) =? 0).

(* ------------------------------------------------------------------ *)
(** ** apply.go *)

Record BoardSaveT := mkBoardSave {
  sEnpassant : Z;
  sHalfmoveclock : Z;
  sCastlerights : PerColor Z;
  FromLoc : Z;
  ToLoc : Z;
  CaptureLoc : Z;
  FromPiece : Piece;
  ToPiece : Piece;
  CapturePiece : Piece;
  FromBb : Z;
  ToBb : Z;
  CaptureBb : Z;
  OurRookFrom : Z;
  OurRookTo : Z;
  OurRookBb : Z;
  OurAllBb : Z;
  OppAllBb : Z;
  sHash : Z
}.

Definition Restore (b : Board) (bs : BoardSaveT) : Board :=
  let oppCol := Colortomove b in
  let ourCol := oppColor oppCol in
  let b := setColortomove b ourCol in
  let b := setEnpassant b (sEnpassant bs) in
  let b := setHalfmoveclock b (sHalfmoveclock bs) in
  let b := setFullmoveno b (wrap16 (Fullmoveno b - colorCode ourCol)) in
  let b := setCastlerights b (sCastlerights bs) in
  let b := setBb b ourCol (ToPiece bs) (ToBb bs) in
  let b := setPieceAt b (ToLoc bs) Nothing in
  let b := setBb b oppCol (CapturePiece bs) (CaptureBb bs) in
  let b := setPieceAt b (CaptureLoc bs) (CapturePiece bs) in
  let b := setBb b ourCol (FromPiece bs) (FromBb bs) in
  let b := setPieceAt b (FromLoc bs) (FromPiece bs) in
  let b := setBb b ourCol Rook (OurRookBb bs) in
  let maybeRook := PieceAt b (OurRookTo bs) in
  let b := setPieceAt b (OurRookTo bs) Nothing in
  let b := setPieceAt b (OurRookFrom bs) maybeRook in
  let b := setAllBb b ourCol (OurAllBb bs) in
  let b := setAllBb b oppCol (OppAllBb bs) in
  setHash b (sHash bs).

Section MakeMove.
Context {zk : ZobristKeys}.

(** The three places that strip castle rights. *)
Definition stripKingRights (b : Board) : Board :=
  let b := if weCanCastle b Kingside
           then flipOurCastleRights b Kingside else b in
  if weCanCastle b Queenside then flipOurCastleRights b Queenside else b.

Definition stripRookRights (b : Board) (ourCol : ColorT) (fromBit : Z)
  : Board :=
  let ourStartingRankBb := startingRankBbs ourCol in
  if weCanCastle b Kingside
     && negb (Z.land fromBit (onlyFile 7) =? 0)
     && negb (Z.land fromBit ourStartingRankBb =? 0)
  then flipOurCastleRights b Kingside
  else if weCanCastle b Queenside
          && negb (Z.land fromBit (onlyFile 0) =? 0)
          && negb (Z.land fromBit ourStartingRankBb =? 0)
  then flipOurCastleRights b Queenside
  else b.

Definition stripCapturedRookRights (b : Board) (oppCol : ColorT)
  (toLoc toBit : Z) : Board :=
  let oppStartingRankBb := startingRankBbs oppCol in
  if (toLoc mod 8 =? 7)
     && negb (Z.land toBit oppStartingRankBb =? 0)
     && oppCanCastle b Kingside
  then flipOppCastleRights b Kingside
  else if (toLoc mod 8 =? 0)
          && negb (Z.land toBit oppStartingRankBb =? 0)
          && oppCanCastle b Queenside
  then flipOppCastleRights b Queenside
  else b.

(** [b.hash ^= pieceSquareZobristC[idx][loc]]. *)
Definition xorPieceSquare (b : Board) (idx loc : Z) : Board :=
  setHash b (Z.lxor (hash b) (pieceSquareZobristC idx loc)).

(** *** MakeSimpleMove

    The function is cut at the comments of the source; [ourCol] is the
    side to move on entry, [fromPiece] and [capturePiece] are
    [b.pieces[fromLoc]] and [b.pieces[toLoc]] on entry. *)

(** "increment after black's move", and the provisional [Halfmoveclock++]. *)
Definition simpleClocks (b : Board) (ourCol : ColorT) : Board :=
  let b := setFullmoveno b (wrap16 (Fullmoveno b + colorCode ourCol)) in
  setHalfmoveclock b (wrap8 (Halfmoveclock b + 1)).

(** "Remove the old en-passant square from the hash". *)
Definition simpleEpOut (b : Board) : Board :=
  let b := setHash b (Z.lxor (hash b) (enpassant b)) in
  setEnpassant b 0.

(** The branch on the moved piece: pawn, king, rook. *)
Definition simpleByPiece (b : Board) (ourCol : ColorT) (fromPiece : Piece)
  (fromLoc toLoc : Z) : Board :=
  match fromPiece with
  | Pawn =>
      let b := setHalfmoveclock b 0 in
      let epDelta := epDeltas ourCol in
      if toLoc + 2 * epDelta =? fromLoc
      then setEnpassant b (wrap8 (toLoc + epDelta))
      else b
  | King => stripKingRights b
  | Rook => stripRookRights b ourCol (bit fromLoc)
  | _ => b
  end.

(** "Add the new en-passant square to the hash". *)
Definition simpleEpIn (b : Board) : Board :=
  setHash b (Z.lxor (hash b) (enpassant b)).

(** "Remove the captured piece". *)
Definition simpleCapture (b : Board) (oppCol : ColorT) (capturePiece : Piece)
  (toLoc : Z) : Board :=
  match capturePiece with
  | Nothing => b
  | _ =>
      let toBit := bit toLoc in
      let b := setHalfmoveclock b 0 in
      let b := setPieceAt b toLoc Nothing in
      let b := setBb b oppCol capturePiece
                 (Z.land (pieceBitboard (bbsOf b oppCol) capturePiece)
                         (not64 toBit)) in
      let b := setAllBb b oppCol
                 (Z.land (All (bbsOf b oppCol)) (not64 toBit)) in
      let b := xorPieceSquare b
                 (piecesPawnZobristIndexes oppCol
                  + (pieceCode capturePiece - 1)) toLoc in
      match capturePiece with
      | Rook => stripCapturedRookRights b oppCol toLoc toBit
      | _ => b
      end
  end.

(** "Remove piece from 'from'" and "Add piece at 'to'". *)
Definition simpleMove (b : Board) (ourCol : ColorT) (fromPiece : Piece)
  (fromLoc toLoc : Z) : Board :=
  let ourPiecesPawnZobristIndex := piecesPawnZobristIndexes ourCol in
  let fromBit := bit fromLoc in
  let toBit := bit toLoc in
  let b := setPieceAt b fromLoc Nothing in
  let b := setBb b ourCol fromPiece
             (Z.land (pieceBitboard (bbsOf b ourCol) fromPiece)
                     (not64 fromBit)) in
  let b := setAllBb b ourCol (Z.land (All (bbsOf b ourCol)) (not64 fromBit)) in
  let b := xorPieceSquare b
             ((pieceCode fromPiece - 1) + ourPiecesPawnZobristIndex)
             fromLoc in
  let b := setPieceAt b toLoc fromPiece in
  let b := setBb b ourCol fromPiece
             (Z.lor (pieceBitboard (bbsOf b ourCol) fromPiece) toBit) in
  let b := setAllBb b ourCol (Z.lor (All (bbsOf b ourCol)) toBit) in
  xorPieceSquare b
    ((pieceCode fromPiece - 1) + ourPiecesPawnZobristIndex) toLoc.

(** "Flip the side to move". *)
Definition simpleFlip (b : Board) : Board :=
  let b := setColortomove b (oppColor (Colortomove b)) in
  setHash b (Z.lxor (hash b) whiteToMoveZobristC).

Definition MakeSimpleMove (b : Board) (m : Move) : Board * BoardSaveT :=
  let ourCol := Colortomove b in
  let oppCol := oppColor ourCol in
  let fromLoc := From m in
  let toLoc := To m in
  let fromPiece := PieceAt b fromLoc in
  let capturePiece := PieceAt b toLoc in
  let bs :=
    mkBoardSave (enpassant b) (Halfmoveclock b) (castlerights b)
      fromLoc toLoc toLoc
      fromPiece fromPiece capturePiece
      (pieceBitboard (bbsOf b ourCol) fromPiece)
      (pieceBitboard (bbsOf b ourCol) fromPiece)
      (pieceBitboard (bbsOf b oppCol) capturePiece)
      0 0 (Rooks (bbsOf b ourCol))
      (All (bbsOf b ourCol)) (All (bbsOf b oppCol))
      (hash b) in
  let b1 := simpleClocks b ourCol in
  let b2 := simpleEpOut b1 in
  let b3 := simpleByPiece b2 ourCol fromPiece fromLoc toLoc in
  let b4 := simpleEpIn b3 in
  let b5 := simpleCapture b4 oppCol capturePiece toLoc in
  let b6 := simpleMove b5 ourCol fromPiece fromLoc toLoc in
  (simpleFlip b6, bs).

(** *** MakeSpecialMove

    Cut at the comments of the source as well; [pieceType] is
    [b.pieces[m.From()]] on entry. *)

(** The piece a promotion code stands for; any other code keeps the
    moved piece (the [default] branch of the switch). *)
Definition promotedPiece (code : Z) (pieceType : Piece) : Piece :=
  if code =? 5 then Queen
  else if code =? 2 then Knight
  else if code =? 4 then Rook
  else if code =? 3 then Bishop
  else pieceType.

(** "increment after black's move" and "If it is any kind of capture or
    pawn move, reset halfmove clock." *)
Definition specialClocks (b : Board) (m : Move) (pieceType : Piece) : Board :=
  let b := setFullmoveno b (wrap16 (Fullmoveno b + colorCode (Colortomove b))) in
  if IsCapture m b || Piece_eqb pieceType Pawn
  then setHalfmoveclock b 0
  else setHalfmoveclock b (wrap8 (Halfmoveclock b + 1)).

(** [castleStatus], [oldRookLoc], [newRookLoc]. *)
Definition castleRook (m : Move) (pieceType : Piece) : Z * Z * Z :=
  if Piece_eqb pieceType King then
    if wrap8 (To m - From m) =? 2
    then (1, wrap8 (To m + 1), wrap8 (To m - 1))
    else if To m - From m =? -2
    then (-1, wrap8 (To m - 2), wrap8 (To m + 1))
    else (0, 0, 0)
  else (0, 0, 0).

(** "King moves strip castling rights", "Rook moves strip castling
    rights". *)
Definition specialRights (b : Board) (m : Move) (pieceType : Piece) : Board :=
  let b := if Piece_eqb pieceType King then stripKingRights b else b in
  if Piece_eqb pieceType Rook
  then stripRookRights b (Colortomove b) (bit (From m)) else b.

(** "Apply the castling rook movement". *)
Definition specialCastleRook (b : Board) (castle : Z * Z * Z) : Board :=
  let '(castleStatus, oldRookLoc, newRookLoc) := castle in
  let ourCol := Colortomove b in
  if castleStatus =? 0 then b
  else
    let b := movePiece b ourCol Rook Rook oldRookLoc newRookLoc in
    let b := xorPieceSquare b
               (piecesPawnZobristIndexes ourCol + (pieceCode Rook - 1))
               oldRookLoc in
    xorPieceSquare b
      (piecesPawnZobristIndexes ourCol + (pieceCode Rook - 1)) newRookLoc.

(** "Is this an e.p. capture?" *)
Definition isEpCapture (m : Move) (pieceType : Piece)
  (oldEpCaptureSquare : Z) : bool :=
  Piece_eqb pieceType Pawn
  && (To m =? oldEpCaptureSquare)
  && negb (oldEpCaptureSquare =? 0).

(** "Strip the opponent pawn". *)
Definition specialEpCapture (b : Board) (m : Move) (pieceType : Piece) : Board :=
  let oldEpCaptureSquare := enpassant b in
  let oppCol := oppColor (Colortomove b) in
  if isEpCapture m pieceType oldEpCaptureSquare then
    let epOpponentPawnLocation :=
      wrap8 (oldEpCaptureSquare + epDeltas (Colortomove b)) in
    let b := removePiece b oppCol Pawn epOpponentPawnLocation in
    xorPieceSquare b (piecesPawnZobristIndexes oppCol) epOpponentPawnLocation
  else b.

(** "Update the en passant square". *)
Definition specialEpSquare (b : Board) (m : Move) (pieceType : Piece) : Board :=
  let epDelta := epDeltas (Colortomove b) in
  if Piece_eqb pieceType Pawn && (To m + 2 * epDelta =? From m)
  then setEnpassant b (wrap8 (To m + epDelta))
  else setEnpassant b 0.

(** "Apply the move - remove the captured piece first". *)
Definition specialCapture (b : Board) (m : Move) (capturedPieceType : Piece)
  : Board :=
  let oppCol := oppColor (Colortomove b) in
  if negb (Piece_eqb capturedPieceType Nothing) then
    let b := removePiece b oppCol capturedPieceType (To m) in
    xorPieceSquare b
      (piecesPawnZobristIndexes oppCol + (pieceCode capturedPieceType - 1))
      (To m)
  else b.

Definition specialMovePiece (b : Board) (m : Move)
  (pieceType promotedToPieceType : Piece) : Board :=
  let ourCol := Colortomove b in
  let b := movePiece b ourCol pieceType promotedToPieceType (From m) (To m) in
  let b := xorPieceSquare b
             ((pieceCode pieceType - 1) + piecesPawnZobristIndexes ourCol)
             (From m) in
  xorPieceSquare b
    ((pieceCode promotedToPieceType - 1) + piecesPawnZobristIndexes ourCol)
    (To m).

(** "If a rook was captured, it strips castling rights". *)
Definition specialCapturedRook (b : Board) (m : Move)
  (capturedPieceType : Piece) : Board :=
  if Piece_eqb capturedPieceType Rook
  then stripCapturedRookRights b (oppColor (Colortomove b)) (To m)
                               (bit (To m))
  else b.

(** "flip the side to move in the hash", "remove the old en passant
    square from the hash, and add the new one". *)
Definition specialFlip (b : Board) (oldEpCaptureSquare : Z) : Board :=
  let b := setHash b (Z.lxor (hash b) whiteToMoveZobristC) in
  let b := setColortomove b (oppColor (Colortomove b)) in
  let b := setHash b (Z.lxor (hash b) oldEpCaptureSquare) in
  setHash b (Z.lxor (hash b) (enpassant b)).

Definition MakeSpecialMove (b : Board) (m : Move) : Board * BoardSaveT :=
  let ourCol := Colortomove b in
  let oppCol := oppColor ourCol in
  let pieceType := PieceAt b (From m) in
  let castle := castleRook m pieceType in
  let castleStatus := fst (fst castle) in
  let b1 := specialClocks b m pieceType in
  let b2 := specialRights b1 m pieceType in
  let b3 := specialCastleRook b2 castle in
  let oldEpCaptureSquare := enpassant b3 in
  let isEp := isEpCapture m pieceType oldEpCaptureSquare in
  let b4 := specialEpCapture b3 m pieceType in
  let b5 := specialEpSquare b4 m pieceType in
  let promotedToPieceType := promotedPiece (Promote m) pieceType in
  let capturedPieceType := PieceAt b5 (To m) in
  let isCap := negb (Piece_eqb capturedPieceType Nothing) in
  let b6 := specialCapture b5 m capturedPieceType in
  let b7 := specialMovePiece b6 m pieceType promotedToPieceType in
  let b8 := specialCapturedRook b7 m capturedPieceType in
  (specialFlip b8 oldEpCaptureSquare,
   mkBoardSave (enpassant b) (Halfmoveclock b) (castlerights b)
     (From m) (To m)
     (* CaptureLoc *)
     (if isEp then wrap8 (oldEpCaptureSquare + epDeltas ourCol) else To m)
     pieceType promotedToPieceType
     (* CapturePiece *)
     (if isCap then capturedPieceType else if isEp then Pawn else Nothing)
     (* FromBb *)
     (pieceBitboard (bbsOf b ourCol) pieceType)
     (* ToBb *)
     (pieceBitboard (bbsOf b5 ourCol) promotedToPieceType)
     (* CaptureBb *)
     (if isCap then pieceBitboard (bbsOf b5 oppCol) capturedPieceType
      else if isEp then Pawns (bbsOf b3 oppCol) else 0)
     (* OurRookFrom, OurRookTo *)
     (if castleStatus =? 0 then 0 else snd (fst castle))
     (if castleStatus =? 0 then 0 else snd castle)
     (Rooks (bbsOf b ourCol))
     (All (bbsOf b ourCol)) (All (bbsOf b oppCol))
     (hash b)).

Definition MakeMove (b : Board) (m : Move) : Board * BoardSaveT :=
  if IsSimple m then MakeSimpleMove b m else MakeSpecialMove b m.

End MakeMove.

(* ------------------------------------------------------------------ *)
(** ** util.go: move strings

    A Go string is a sequence of bytes, as is a [string] of 8-bit
    characters here.  [ParseMove] returns the pair (move, error) of the
    source, the error being [None] for [nil]. *)

Definition byteOf (c : ascii) : Z := Z.of_N (N_of_ascii c).

(** [s[i]]; 0 out of range (where Go panics; the callers below index
    inside the string). *)
Definition byteAt (s : string) (i : nat) : Z :=
  match String.get i s with
  | Some c => byteOf c
  | None => 0
  end.

(** The first byte of [strings.ToLower(alg)] given the first byte of
    [alg].  For an ASCII byte this is its lower case.  For a byte of
    128 or more the lowered string starts with a byte that is again 128
    or more, or with 'i' or 'k' (the lower case of U+0130 and U+212A);
    such a byte is left as it is here, outside 'a'..'h' either way. *)
Definition toLowerByte (c : Z) : Z :=
  if (65 <=? c) && (c <=? 90) then c + 32 else c.

Definition AlgebraicToIndex (alg : string) : Z * option string :=
  let firstchar := toLowerByte (byteAt alg 0) in
  if (firstchar <? 97) || (firstchar >? 104)
     || (byteAt alg 1 <? 49) || (byteAt alg 1 >? 56)
  then (64, Some ("Invalid algebraic " ++ alg)%string)
  else (wrap8 ((firstchar - 97) + wrap8 ((byteAt alg 1 - 49) * 8)), None).

Definition ParseMove (movestr : string) : Move * option string :=
  if String.eqb movestr "0000" then (0, None)
  else
    let mv : Move := 0 in
    let len := Z.of_nat (String.length movestr) in
    if (len <? 4) || (len >? 5)
    then (mv, Some "Invalid move to parse."%string)
    else
      let '(from, errf) := AlgebraicToIndex (substring 0 2 movestr) in
      let '(to, errto) := AlgebraicToIndex (substring 2 2 movestr) in
      match errf, errto with
      | None, None =>
          let mv := Setfrom (Setto mv to) from in
          if len =? 5 then
            let c := byteAt movestr 4 in
            if c =? 110 then (Setpromote mv (pieceCode Knight), None)
            else if c =? 98 then (Setpromote mv (pieceCode Bishop), None)
            else if c =? 113 then (Setpromote mv (pieceCode Queen), None)
            else if c =? 114 then (Setpromote mv (pieceCode Rook), None)
            else (mv, Some "Invalid promotion symbol in move."%string)
          else (mv, None)
      | _, _ => (mv, Some "Invalid move to parse."%string)
      end.

(* ------------------------------------------------------------------ *)
(** ** Precomputed tables *)

Definition fileOf (s : Z) : Z := Z.land s 7.
Definition rankOf (s : Z) : Z := Z.shiftr s 3.

(** Modelled from the spec: the table [knightMasks] ("squares a knight on
    s attacks") is not among the sources. *)
Definition knightMasks (s : Z) : Z :=
  bbOf (fun t =>
          let dr := Z.abs (rankOf t - rankOf s) in
          let df := Z.abs (fileOf t - fileOf s) in
          ((dr =? 1) && (df =? 2)) || ((dr =? 2) && (df =? 1))).

(** Modelled from the spec: the table [kingMasks] ("squares a king on s
    attacks (one step in 8 directions)") is not among the sources. *)
Definition kingMasks (s : Z) : Z :=
  bbOf (fun t =>
          negb (t =? s)
          && (Z.abs (rankOf t - rankOf s) <=? 1)
          && (Z.abs (fileOf t - fileOf s) <=? 1)).

(** Modelled from the spec: the constant [everything] (every square
    allowed as a destination) is not among the sources. *)
Definition everything : Z := mask64.

Definition rookAligned (a b : Z) : bool :=
  negb (a =? b) && ((rankOf a =? rankOf b) || (fileOf a =? fileOf b)).

Definition bishopAligned (a b : Z) : bool :=
  negb (a =? b)
  && (Z.abs (rankOf a - rankOf b) =? Z.abs (fileOf a - fileOf b)).

(** [k] lies strictly between [a] and [b] on the segment that joins them. *)
Definition strictlyBetween (a b k : Z) : bool :=
  negb (k =? a) && negb (k =? b)
  && ((rankOf k - rankOf a) * (fileOf b - fileOf a)
      =? (rankOf b - rankOf a) * (fileOf k - fileOf a))
  && (Z.min (rankOf a) (rankOf b) <=? rankOf k)
  && (rankOf k <=? Z.max (rankOf a) (rankOf b))
  && (Z.min (fileOf a) (fileOf b) <=? fileOf k)
  && (fileOf k <=? Z.max (fileOf a) (fileOf b)).

Definition betweenSquares (a b : Z) : list Z :=
  filter (strictlyBetween a b) allSquares.

(** The squares of [line]-aligned rays from [s] that are reached before
    any square of [blockers] is passed: the first blocker of a ray is
    included, the squares beyond it are not. *)
Definition rayAttacks (aligned : Z -> Z -> bool) (s blockers : Z) : Z :=
  bbOf (fun t =>
          aligned s t
          && forallb (fun k => negb (Z.testbit blockers k))
                     (betweenSquares s t)).

(** Modelled from the spec: the magic tables are not among the sources.
    The blocker mask of a square holds its "rays ... to (but not
    including) the edge squares". *)
Definition magicRookBlockerMasks (s : Z) : Z :=
  bbOf (fun t =>
          negb (t =? s)
          && (((rankOf t =? rankOf s) && (1 <=? fileOf t) && (fileOf t <=? 6))
              || ((fileOf t =? fileOf s) && (1 <=? rankOf t)
                  && (rankOf t <=? 6)))).

Definition magicBishopBlockerMasks (s : Z) : Z :=
  bbOf (fun t =>
          bishopAligned s t
          && (1 <=? fileOf t) && (fileOf t <=? 6)
          && (1 <=? rankOf t) && (rankOf t <=? 6)).

(** Modelled from the spec: [rookAttackTable sq blockers] is the entry
    [magicMovesRook[sq][(blockers * magicNumberRook[sq]) >>
    magicRookShifts[sq]]], "the attack bitboard for that occupancy -
    including the first blocker square on each ray and all empty squares
    up to it, excluding squares beyond the blocker"; likewise for the
    bishop. *)
Definition rookAttackTable (sq blockers : Z) : Z :=
  rayAttacks rookAligned sq blockers.

Definition bishopAttackTable (sq blockers : Z) : Z :=
  rayAttacks bishopAligned sq blockers.

(* ------------------------------------------------------------------ *)
(** ** The move generator *)

Definition promoRankBbs (c : ColorT) : Z :=
  match c with White => onlyRank 7 | Black => onlyRank 0 end.
Definition doublePushRankBBs (c : ColorT) : Z :=
  match c with White => onlyRank 3 | Black => onlyRank 4 end.
Definition pawnPushDirections (c : ColorT) : Z :=
  match c with White => 1 | Black => -1 end.
Definition oneRankBacks (c : ColorT) : Z :=
  match c with White => -8 | Black => 8 end.

Definition CalculateRookMoveBitboard (currRook allPieces : Z) : Z :=
  let blockers := Z.land (magicRookBlockerMasks currRook) allPieces in
  rookAttackTable currRook blockers.

Definition CalculateBishopMoveBitboard (currBishop allPieces : Z) : Z :=
  let blockers := Z.land (magicBishopBlockerMasks currBishop) allPieces in
  bishopAttackTable currBishop blockers.

(** The union over the attackers of [attack attacker & rays]: the loops
    that add the interposed squares to the blocker mask. *)
Definition interposed (attack : Z -> Z -> Z) (attackers rays allPieces : Z)
  : Z :=
  fold_left (fun acc curr_attacker =>
               Z.lor acc (Z.land (attack curr_attacker allPieces) rays))
            (squaresOf attackers) 0.

(** "find attacking pawns": the squares from which a pawn of the
    attacking side attacks [origin], before the intersection with the
    pawns.  The tests [origin-7 >= 0] and [origin-9 >= 0] of the source
    always hold of a uint8, whose subtraction wraps. *)
Definition pawnAttackersMask (byBlack : bool) (origin : Z) : Z :=
  if byBlack then
    Z.lor (Z.land (bit (wrap8 (origin + 7))) (not64 (onlyFile 7)))
          (Z.land (bit (wrap8 (origin + 9))) (not64 (onlyFile 0)))
  else
    Z.lor (Z.land (bit (wrap8 (origin - 7))) (not64 (onlyFile 0)))
          (Z.land (bit (wrap8 (origin - 9))) (not64 (onlyFile 7))).

Definition countAttacks (b : Board) (byBlack : bool) (origin abortEarly : Z)
  : Z * Z :=
  let numAttacks := 0 in
  let blockerDestinations := 0 in
  let oppPieces := if byBlack then bbsOf b Black else bbsOf b White in
  let allPieces := Z.lor (All (bbsOf b White)) (All (bbsOf b Black)) in
  (* find attacking knights *)
  let knight_attackers := Z.land (knightMasks origin) (Knights oppPieces) in
  let numAttacks := numAttacks + OnesCount64 knight_attackers in
  let blockerDestinations := Z.lor blockerDestinations knight_attackers in
  if numAttacks >=? abortEarly then (numAttacks, blockerDestinations) else
  (* find attacking bishops and queens *)
  let diag_candidates := Z.land (magicBishopBlockerMasks origin) allPieces in
  let origin_diag_rays := bishopAttackTable origin diag_candidates in
  let diag_attackers :=
    Z.land origin_diag_rays (Z.lor (Bishops oppPieces) (Queens oppPieces)) in
  let numAttacks := numAttacks + OnesCount64 diag_attackers in
  let blockerDestinations := Z.lor blockerDestinations diag_attackers in
  if numAttacks >=? abortEarly then (numAttacks, blockerDestinations) else
  let blockerDestinations :=
    Z.lor blockerDestinations
          (interposed CalculateBishopMoveBitboard diag_attackers
                      origin_diag_rays allPieces) in
  (* find attacking rooks and queens *)
  let ortho_candidates := Z.land (magicRookBlockerMasks origin) allPieces in
  let origin_ortho_rays := rookAttackTable origin ortho_candidates in
  let ortho_attackers :=
    Z.land origin_ortho_rays (Z.lor (Rooks oppPieces) (Queens oppPieces)) in
  let numAttacks := numAttacks + OnesCount64 ortho_attackers in
  let blockerDestinations := Z.lor blockerDestinations ortho_attackers in
  if numAttacks >=? abortEarly then (numAttacks, blockerDestinations) else
  let blockerDestinations :=
    Z.lor blockerDestinations
          (interposed CalculateRookMoveBitboard ortho_attackers
                      origin_ortho_rays allPieces) in
  (* find attacking kings *)
  let king_attackers := Z.land (kingMasks origin) (Kings oppPieces) in
  let numAttacks := numAttacks + OnesCount64 king_attackers in
  let blockerDestinations := Z.lor blockerDestinations king_attackers in
  if numAttacks >=? abortEarly then (numAttacks, blockerDestinations) else
  (* find attacking pawns *)
  let pawn_attackers_mask := pawnAttackersMask byBlack origin in
  let pawn_attackers_mask := Z.land pawn_attackers_mask (Pawns oppPieces) in
  let numAttacks := numAttacks + OnesCount64 pawn_attackers_mask in
  let blockerDestinations := Z.lor blockerDestinations pawn_attackers_mask in
  (numAttacks, blockerDestinations).

Definition UnderDirectAttack (b : Board) (byBlack : bool) (origin : Z)
  : bool :=
  fst (countAttacks b byBlack origin 1) >=? 1.

Definition anyUnderDirectAttack (b : Board) (byBlack : bool)
  (squares : list Z) : bool :=
  existsb (UnderDirectAttack b byBlack) squares.

Definition isWhite (c : ColorT) : bool := ColorT_eqb c White.

Definition OurKingInCheck (b : Board) : bool :=
  let origin := TrailingZeros64 (Kings (ourBitboards b)) in
  fst (countAttacks b (isWhite (Colortomove b)) origin 1) >=? 1.

(** [var move Move; move.Setfrom(from).Setto(to)]. *)
Definition mkMove (from to : Z) : Move := Setto (Setfrom 0 from) to.

(** [for i := Piece(Knight); i <= Queen; i++ { move.Setpromote(i);
    append }]: the four moves appended. *)
Definition promoMoves (move : Move) : list Move :=
  let m2 := Setpromote move (pieceCode Knight) in
  let m3 := Setpromote m2 (pieceCode Bishop) in
  let m4 := Setpromote m3 (pieceCode Rook) in
  let m5 := Setpromote m4 (pieceCode Queen) in
  [m2; m3; m4; m5].

Definition genMovesFromTargets (moveList : list Move) (origin targets : Z)
  : list Move :=
  moveList ++ map (fun target => mkMove origin (Square target))
                  (squaresOf targets).

(** *** Pinned pieces *)

(** IEEE 754 binary32, the [float32] of the slope test. *)
Definition f32 (n : Z) : spec_float := binary_normalize 24 128 n 0 false.
Definition f32sub : spec_float -> spec_float -> spec_float := SFsub 24 128.
Definition f32div : spec_float -> spec_float -> spec_float := SFdiv 24 128.

(** [(float32(x)/8 - float32(y)/8) / (float32(x%8) - float32(y%8))]. *)
Definition slope32 (x y : Z) : spec_float :=
  f32div (f32sub (f32div (f32 x) (f32 8)) (f32div (f32 y) (f32 8)))
         (f32sub (f32 (x mod 8)) (f32 (y mod 8))).

(** [a != b] on floats. *)
Definition f32neq (a b : spec_float) : bool := negb (SFeqb a b).

Definition pinnedOrthoStep (b : Board) (allowDest : Z)
  (st : list Move * Z) (currRookIdx : Z) : list Move * Z :=
  let '(moveList, allPinnedPieces) := st in
  let ourCol := Colortomove b in
  let ourPieces := bbsOf b ourCol in
  let oppPieces := bbsOf b (oppColor ourCol) in
  let ourKingIdx := TrailingZeros64 (Kings ourPieces) in
  let pawnPushDirection := pawnPushDirections ourCol in
  let doublePushRank := doublePushRankBBs ourCol in
  let allPieces := Z.lor (All oppPieces) (All ourPieces) in
  let kingOrthoTargets := CalculateRookMoveBitboard ourKingIdx allPieces in
  let rookTargets :=
    Z.land (CalculateRookMoveBitboard currRookIdx allPieces)
           (not64 (All oppPieces)) in
  (* A piece is pinned iff it falls along both attack rays. *)
  let pinnedPiece :=
    Z.land (Z.land rookTargets kingOrthoTargets) (All ourPieces) in
  if pinnedPiece =? 0 then st else
  let pinnedPieceIdx := TrailingZeros64 pinnedPiece in
  let sameRank := (pinnedPieceIdx / 8 =? ourKingIdx / 8)
                  && (pinnedPieceIdx / 8 =? currRookIdx / 8) in
  let sameFile := (pinnedPieceIdx mod 8 =? ourKingIdx mod 8)
                  && (pinnedPieceIdx mod 8 =? currRookIdx mod 8) in
  if negb sameRank && negb sameFile then st else
  let allPinnedPieces := Z.lor allPinnedPieces pinnedPiece in
  if negb (Z.land pinnedPiece (Pawns ourPieces) =? 0) then
    if sameFile then
      let pawnTargets :=
        Z.land (bit (wrap8 (pinnedPieceIdx + 8 * pawnPushDirection)))
               (not64 allPieces) in
      let pawnTargets :=
        if negb (pawnTargets =? 0)
        then Z.lor pawnTargets
               (Z.land
                  (Z.land
                     (bit (wrap8 (pinnedPieceIdx + 16 * pawnPushDirection)))
                     (not64 allPieces))
                  doublePushRank)
        else pawnTargets in
      let pawnTargets := Z.land pawnTargets allowDest in
      (genMovesFromTargets moveList (Square pinnedPieceIdx) pawnTargets,
       allPinnedPieces)
    else (moveList, allPinnedPieces)
  else if (Z.land pinnedPiece (Rooks ourPieces) =? 0)
          && (Z.land pinnedPiece (Queens ourPieces) =? 0)
  then (moveList, allPinnedPieces)
  else
    let pinnedPieceAllMoves :=
      Z.land (CalculateRookMoveBitboard pinnedPieceIdx allPieces)
             (not64 (All ourPieces)) in
    let pinnedTargets :=
      Z.land pinnedPieceAllMoves
             (Z.lor (Z.lor rookTargets kingOrthoTargets) (bit currRookIdx)) in
    let pinnedTargets := Z.land pinnedTargets allowDest in
    (genMovesFromTargets moveList (Square pinnedPieceIdx) pinnedTargets,
     allPinnedPieces).

Definition pinnedDiagStep (b : Board) (allowDest : Z)
  (st : list Move * Z) (currBishopIdx : Z) : list Move * Z :=
  let '(moveList, allPinnedPieces) := st in
  let ourCol := Colortomove b in
  let ourPieces := bbsOf b ourCol in
  let oppPieces := bbsOf b (oppColor ourCol) in
  let ourKingIdx := TrailingZeros64 (Kings ourPieces) in
  let ourPromotionRank := promoRankBbs ourCol in
  let allPieces := Z.lor (All oppPieces) (All ourPieces) in
  let kingDiagTargets := CalculateBishopMoveBitboard ourKingIdx allPieces in
  let bishopTargets :=
    Z.land (CalculateBishopMoveBitboard currBishopIdx allPieces)
           (not64 (All oppPieces)) in
  let pinnedPiece :=
    Z.land (Z.land bishopTargets kingDiagTargets) (All ourPieces) in
  if pinnedPiece =? 0 then st else
  let pinnedPieceIdx := TrailingZeros64 pinnedPiece in
  let bishopToPinnedSlope := slope32 pinnedPieceIdx currBishopIdx in
  let bishopToKingSlope := slope32 ourKingIdx currBishopIdx in
  if f32neq bishopToPinnedSlope bishopToKingSlope then st else
  let allPinnedPieces := Z.lor allPinnedPieces pinnedPiece in
  if negb (Z.land pinnedPiece (Pawns ourPieces) =? 0) then
    if negb (Z.land (bit currBishopIdx) allowDest =? 0) then
      if (isWhite (Colortomove b)
          && (pinnedPieceIdx / 8 + 1 =? currBishopIdx / 8))
         || (negb (isWhite (Colortomove b))
             && (pinnedPieceIdx / 8 =? currBishopIdx / 8 + 1))
      then
        if negb (Z.land (bit currBishopIdx) ourPromotionRank =? 0)
        then
          (moveList
           ++ map (fun i =>
                     Setpromote
                       (mkMove (Square pinnedPieceIdx) (Square currBishopIdx))
                       i)
                  [pieceCode Knight; pieceCode Bishop; pieceCode Rook;
                   pieceCode Queen],
           allPinnedPieces)
        else
          (moveList
           ++ [mkMove (Square pinnedPieceIdx) (Square currBishopIdx)],
           allPinnedPieces)
      else (moveList, allPinnedPieces)
    else (moveList, allPinnedPieces)
  else if (Z.land pinnedPiece (Bishops ourPieces) =? 0)
          && (Z.land pinnedPiece (Queens ourPieces) =? 0)
  then (moveList, allPinnedPieces)
  else
    let pinnedPieceAllMoves :=
      Z.land (CalculateBishopMoveBitboard pinnedPieceIdx allPieces)
             (not64 (All ourPieces)) in
    let pinnedTargets :=
      Z.land pinnedPieceAllMoves
             (Z.lor (Z.lor bishopTargets kingDiagTargets)
                    (bit currBishopIdx)) in
    let pinnedTargets := Z.land pinnedTargets allowDest in
    (genMovesFromTargets moveList (Square pinnedPieceIdx) pinnedTargets,
     allPinnedPieces).

(** Returns the extended move list and the bitboard of the pinned pieces. *)
Definition generatePinnedMoves (b : Board) (moveList : list Move)
  (allowDest : Z) : list Move * Z :=
  let oppPieces := bbsOf b (oppColor (Colortomove b)) in
  let oppRooks := Z.lor (Rooks oppPieces) (Queens oppPieces) in
  let st := fold_left (pinnedOrthoStep b allowDest) (squaresOf oppRooks)
                      (moveList, 0) in
  let oppBishops := Z.lor (Bishops oppPieces) (Queens oppPieces) in
  fold_left (pinnedDiagStep b allowDest) (squaresOf oppBishops) st.

(** *** Pawns *)

Definition pawnPushBitboards (b : Board) (nonpinned : Z) : Z * Z :=
  let free := Z.land (not64 (All (bbsOf b White)))
                     (not64 (All (bbsOf b Black))) in
  let ourPawns := Pawns (bbsOf b (Colortomove b)) in
  match Colortomove b with
  | White =>
      let movableWhitePawns := Z.land ourPawns nonpinned in
      let targets := Z.land (shl64 movableWhitePawns 8) free in
      let doubleTargets :=
        Z.land (Z.land (shl64 targets 8) (onlyRank 3)) free in
      (targets, doubleTargets)
  | Black =>
      let movableBlackPawns := Z.land ourPawns nonpinned in
      let targets := Z.land (shr64 movableBlackPawns 8) free in
      let doubleTargets :=
        Z.land (Z.land (shr64 targets 8) (onlyRank 4)) free in
      (targets, doubleTargets)
  end.

Definition canPromoteAt (c : ColorT) (target : Z) : bool :=
  match c with White => target >=? 56 | Black => target <=? 7 end.

Definition pawnPushes (b : Board) (moveList : list Move)
  (nonpinned allowDest : Z) : list Move :=
  let '(targets, doubleTargets) := pawnPushBitboards b nonpinned in
  let ourCol := Colortomove b in
  let oneRankBack := oneRankBacks ourCol in
  let targets := Z.land targets allowDest in
  let doubleTargets := Z.land doubleTargets allowDest in
  (* push all pawns by one square *)
  let moveList :=
    fold_left
      (fun moveList target =>
         let move := Setto (Setfrom 0 (Square (target + oneRankBack)))
                           (Square target) in
         if canPromoteAt (Colortomove b) target
         then moveList ++ promoMoves move
         else moveList ++ [move])
      (squaresOf targets) moveList in
  (* push some pawns by two squares *)
  fold_left
    (fun moveList doubleTarget =>
       moveList
       ++ [Setto (Setfrom 0 (Square (doubleTarget + 2 * oneRankBack)))
                 (Square doubleTarget)])
    (squaresOf doubleTargets) moveList.

Definition pawnCaptureBitboards (b : Board) (nonpinned : Z) : Z * Z :=
  let notHFile := 0x7F7F7F7F7F7F7F7F in
  let notAFile := 0xFEFEFEFEFEFEFEFE in
  let ourCol := Colortomove b in
  let ourPieces := bbsOf b ourCol in
  let oppPieces := bbsOf b (oppColor ourCol) in
  let targets := All oppPieces in
  let targets := if enpassant b >? 0
                 then Z.lor targets (bit (enpassant b)) else targets in
  let ourpawns := Z.land (Pawns ourPieces) nonpinned in
  match Colortomove b with
  | White =>
      (Z.land (Z.land (shl64 ourpawns 9) notAFile) targets,
       Z.land (Z.land (shl64 ourpawns 7) notHFile) targets)
  | Black =>
      (Z.land (Z.land (shr64 ourpawns 7) notAFile) targets,
       Z.land (Z.land (shr64 ourpawns 9) notHFile) targets)
  end.

(** "Apply, check actual legality, then unapply": the six bitboard
    assignments before [OurKingInCheck], the six after it, on the board
    itself. *)
Definition epApply (b : Board) (move : Move) : Board :=
  let ourCol := Colortomove b in
  let oppCol := oppColor ourCol in
  let enpassantEnemy := wrap8 (To move + oneRankBacks ourCol) in
  let b := setBb b ourCol Pawn
             (Z.land (Pawns (bbsOf b ourCol)) (not64 (bit (From move)))) in
  let b := setAllBb b ourCol
             (Z.land (All (bbsOf b ourCol)) (not64 (bit (From move)))) in
  let b := setBb b ourCol Pawn
             (Z.lor (Pawns (bbsOf b ourCol)) (bit (To move))) in
  let b := setAllBb b ourCol (Z.lor (All (bbsOf b ourCol)) (bit (To move))) in
  let b := setBb b oppCol Pawn
             (Z.land (Pawns (bbsOf b oppCol)) (not64 (bit enpassantEnemy))) in
  setAllBb b oppCol
    (Z.land (All (bbsOf b oppCol)) (not64 (bit enpassantEnemy))).

Definition epUnapply (b : Board) (move : Move) : Board :=
  let ourCol := Colortomove b in
  let oppCol := oppColor ourCol in
  let enpassantEnemy := wrap8 (To move + oneRankBacks ourCol) in
  let b := setBb b ourCol Pawn
             (Z.lor (Pawns (bbsOf b ourCol)) (bit (From move))) in
  let b := setAllBb b ourCol
             (Z.lor (All (bbsOf b ourCol)) (bit (From move))) in
  let b := setBb b ourCol Pawn
             (Z.land (Pawns (bbsOf b ourCol)) (not64 (bit (To move)))) in
  let b := setAllBb b ourCol
             (Z.land (All (bbsOf b ourCol)) (not64 (bit (To move)))) in
  let b := setBb b oppCol Pawn
             (Z.lor (Pawns (bbsOf b oppCol)) (bit enpassantEnemy)) in
  setAllBb b oppCol (Z.lor (All (bbsOf b oppCol)) (bit enpassantEnemy)).

Definition epProbe (b : Board) (move : Move) : Board * bool :=
  let b := epApply b move in
  let kingInCheck := OurKingInCheck b in
  let b := epUnapply b move in
  (b, kingInCheck).

(** The move the capture loop builds for [target] in direction [dir]. *)
Definition captureMove (c : ColorT) (dir target : Z) : Move :=
  let move := Setto 0 (Square target) in
  match c with
  | White => Setfrom move (Square (target - (9 - dir * 2)))
  | Black => Setfrom move (Square (target + (9 - dir * 2)))
  end.

(** One iteration of the inner loop of [pawnCaptures]. *)
Definition pawnCaptureStep (dir : Z) (st : Board * list Move) (target : Z)
  : Board * list Move :=
  let '(b, moveList) := st in
  let move := captureMove (Colortomove b) dir target in
  let canPromote := canPromoteAt (Colortomove b) target in
  let '(b, rejected) :=
    if (wrap8 target =? enpassant b) && negb (enpassant b =? 0)
    then epProbe b move
    else (b, false) in
  if rejected then (b, moveList)
  else if canPromote then (b, moveList ++ promoMoves move)
  else (b, moveList ++ [move]).

Definition pawnCaptures (b : Board) (moveList : list Move)
  (nonpinned allowDest : Z) : Board * list Move :=
  let '(east, west) := pawnCaptureBitboards b nonpinned in
  let allowDest := if enpassant b >? 0
                   then Z.lor allowDest (bit (enpassant b)) else allowDest in
  let east := Z.land east allowDest in
  let west := Z.land west allowDest in
  let '(d0, d1) := match Colortomove b with
                   | White => (east, west)
                   | Black => (west, east)
                   end in
  let st := fold_left (pawnCaptureStep 0) (squaresOf d0) (b, moveList) in
  fold_left (pawnCaptureStep 1) (squaresOf d1) st.

(** *** Knights, sliders *)

Definition knightMoves (b : Board) (moveList : list Move)
  (nonpinned allowDest : Z) : list Move :=
  let ourPieces := bbsOf b (Colortomove b) in
  let ourKnights := Z.land (Knights ourPieces) nonpinned in
  let noFriendlyPieces := not64 (All ourPieces) in
  fold_left
    (fun moveList currentKnight =>
       let targets := Z.land (Z.land (knightMasks currentKnight)
                                     noFriendlyPieces) allowDest in
       genMovesFromTargets moveList (Square currentKnight) targets)
    (squaresOf ourKnights) moveList.

Definition rookMoves (b : Board) (moveList : list Move)
  (nonpinned allowDest : Z) : list Move :=
  let ourPieces := bbsOf b (Colortomove b) in
  let ourRooks := Z.land (Rooks ourPieces) nonpinned in
  let friendlyPieces := All ourPieces in
  let allPieces := Z.lor (All (bbsOf b White)) (All (bbsOf b Black)) in
  fold_left
    (fun moveList currRook =>
       let targets :=
         Z.land (Z.land (CalculateRookMoveBitboard currRook allPieces)
                        (not64 friendlyPieces)) allowDest in
       genMovesFromTargets moveList (Square currRook) targets)
    (squaresOf ourRooks) moveList.

Definition bishopMoves (b : Board) (moveList : list Move)
  (nonpinned allowDest : Z) : list Move :=
  let ourPieces := bbsOf b (Colortomove b) in
  let ourBishops := Z.land (Bishops ourPieces) nonpinned in
  let friendlyPieces := All ourPieces in
  let allPieces := Z.lor (All (bbsOf b White)) (All (bbsOf b Black)) in
  fold_left
    (fun moveList currBishop =>
       let targets :=
         Z.land (Z.land (CalculateBishopMoveBitboard currBishop allPieces)
                        (not64 friendlyPieces)) allowDest in
       genMovesFromTargets moveList (Square currBishop) targets)
    (squaresOf ourBishops) moveList.

Definition queenMoves (b : Board) (moveList : list Move)
  (nonpinned allowDest : Z) : list Move :=
  let ourPieces := bbsOf b (Colortomove b) in
  let ourQueens := Z.land (Queens ourPieces) nonpinned in
  let friendlyPieces := All ourPieces in
  let allPieces := Z.lor (All (bbsOf b White)) (All (bbsOf b Black)) in
  fold_left
    (fun moveList currQueen =>
       let diag_targets :=
         Z.land (Z.land (CalculateBishopMoveBitboard currQueen allPieces)
                        (not64 friendlyPieces)) allowDest in
       let moveList :=
         genMovesFromTargets moveList (Square currQueen) diag_targets in
       let ortho_targets :=
         Z.land (Z.land (CalculateRookMoveBitboard currQueen allPieces)
                        (not64 friendlyPieces)) allowDest in
       genMovesFromTargets moveList (Square currQueen) ortho_targets)
    (squaresOf ourQueens) moveList.

(** *** The king *)

(** The loop of [kingPushes], run on the board without the king. *)
Definition kingPushTargets (b : Board) (targets : Z) : list Z :=
  filter (fun target =>
            negb (UnderDirectAttack b (isWhite (Colortomove b)) target))
         (squaresOf targets).

(** [ptrToOurBitboards] is always [&b.Bitboards[b.Colortomove]]. *)
Definition kingPushes (b : Board) (moveList : list Move) (allowDest : Z)
  : Board * list Move :=
  let ourCol := Colortomove b in
  let ourKingLocation := TrailingZeros64 (Kings (bbsOf b ourCol)) in
  let noFriendlyPieces := not64 (All (bbsOf b ourCol)) in
  let oldKings := Kings (bbsOf b ourCol) in
  let b := setBb b ourCol King 0 in
  let b := setAllBb b ourCol
             (Z.land (All (bbsOf b ourCol)) (not64 (bit ourKingLocation))) in
  let targets := Z.land (Z.land (kingMasks ourKingLocation) noFriendlyPieces)
                        allowDest in
  let moveList :=
    moveList ++ map (fun target => mkMove (Square ourKingLocation)
                                          (Square target))
                    (kingPushTargets b targets) in
  let b := setBb b ourCol King oldKings in
  let b := setAllBb b ourCol
             (Z.lor (All (bbsOf b ourCol)) (bit ourKingLocation)) in
  (b, moveList).

Definition kingMoves (b : Board) (moveList : list Move) (allowDest : Z)
  (includeCastling : bool) : Board * list Move :=
  let ourCol := Colortomove b in
  let moveList :=
    if includeCastling then
      let ourKingLocation := TrailingZeros64 (Kings (bbsOf b ourCol)) in
      let allPieces := Z.lor (All (bbsOf b White)) (All (bbsOf b Black)) in
      let '(canCastleQueenside, canCastleKingside) :=
        match Colortomove b with
        | White =>
            let kingsideClear :=
              Z.land allPieces (Z.lor (bit 5) (bit 6)) =? 0 in
            let queensideClear :=
              Z.land allPieces (Z.lor (Z.lor (bit 3) (bit 2)) (bit 1)) =? 0 in
            (canCastle b White Queenside && queensideClear
             && negb (anyUnderDirectAttack b true [2; 3]),
             canCastle b White Kingside && kingsideClear
             && negb (anyUnderDirectAttack b true [5; 6]))
        | Black =>
            let kingsideClear :=
              Z.land allPieces (Z.lor (bit 61) (bit 62)) =? 0 in
            let queensideClear :=
              Z.land allPieces (Z.lor (Z.lor (bit 57) (bit 58)) (bit 59))
              =? 0 in
            (canCastle b Black Queenside && queensideClear
             && negb (anyUnderDirectAttack b false [58; 59]),
             canCastle b Black Kingside && kingsideClear
             && negb (anyUnderDirectAttack b false [61; 62]))
        end in
      let moveList :=
        if canCastleKingside
        then moveList ++ [mkMove (Square ourKingLocation)
                                 (Square (wrap8 (ourKingLocation + 2)))]
        else moveList in
      if canCastleQueenside
      then moveList ++ [mkMove (Square ourKingLocation)
                               (Square (wrap8 (ourKingLocation - 2)))]
      else moveList
    else moveList in
  (* non-castling *)
  kingPushes b moveList allowDest.

(** *** The entry points *)

(** [None] stands for the panic of a board without a king of the side to
    move: [kingLocation] is then 64 and [knightMasks[64]] is out of
    range.  Otherwise the board as the call leaves it, the moves and
    [isInCheck]. *)
Definition GenerateLegalMoves2 (b : Board)
  (onlyCapturesPromosCheckEvasion : bool)
  : option (Board * list Move * bool) :=
  let moves : list Move := [] in
  let ourCol := Colortomove b in
  let kingLocation := TrailingZeros64 (Kings (bbsOf b ourCol)) in
  if kingLocation >=? 64 then None else
  let '(kingAttackers, blockerDestinations) :=
    countAttacks b (isWhite ourCol) kingLocation 2 in
  if kingAttackers >=? 2 then
    let '(b, moves) := kingPushes b moves everything in
    Some (b, moves, true)
  else if kingAttackers =? 1 then
    let '(moves, pinnedPieces) :=
      generatePinnedMoves b moves blockerDestinations in
    let nonpinnedPieces := not64 pinnedPieces in
    let moves := pawnPushes b moves nonpinnedPieces blockerDestinations in
    let '(b, moves) :=
      pawnCaptures b moves nonpinnedPieces blockerDestinations in
    let moves := knightMoves b moves nonpinnedPieces blockerDestinations in
    let moves := rookMoves b moves nonpinnedPieces blockerDestinations in
    let moves := bishopMoves b moves nonpinnedPieces blockerDestinations in
    let moves := queenMoves b moves nonpinnedPieces blockerDestinations in
    let '(b, moves) := kingPushes b moves everything in
    Some (b, moves, true)
  else
    let oppCol := oppColor ourCol in
    let allowDest := if onlyCapturesPromosCheckEvasion
                     then All (bbsOf b oppCol) else everything in
    let '(moves, pinnedPieces) := generatePinnedMoves b moves allowDest in
    let nonpinnedPieces := not64 pinnedPieces in
    (* always generate pawn promos *)
    let promoDest := promoRankBbs ourCol in
    let moves := pawnPushes b moves nonpinnedPieces
                            (Z.lor allowDest promoDest) in
    let '(b, moves) := pawnCaptures b moves nonpinnedPieces allowDest in
    let moves := knightMoves b moves nonpinnedPieces allowDest in
    let moves := rookMoves b moves nonpinnedPieces allowDest in
    let moves := bishopMoves b moves nonpinnedPieces allowDest in
    let moves := queenMoves b moves nonpinnedPieces allowDest in
    let '(b, moves) :=
      kingMoves b moves allowDest (negb onlyCapturesPromosCheckEvasion) in
    Some (b, moves, false).

Definition GenerateLegalMoves (b : Board) : option (list Move) :=
  match GenerateLegalMoves2 b false with
  | Some (_, moves, _) => Some moves
  | None => None
  end.

(* ------------------------------------------------------------------ *)
(** ** Building positions

    [ParseFen] after the split of the FEN string into its fields, the
    numeric fields already read: the piece placement is expanded,
    its ranks are reversed and every piece is added with [addPiece]; the
    castle rights are flipped on; the hash is recomputed at the end. *)

Section Fen.
Context {zk : ZobristKeys}.

(** Digits replaced by that many dashes, the ranks split at '/'. *)
Fixpoint fenRanks (s : string) (cur : list Z) (acc : list (list Z))
  : list (list Z) :=
  match s with
  | EmptyString => acc ++ [cur]
  | String c rest =>
      let x := byteOf c in
      if x =? 47 then fenRanks rest [] (acc ++ [cur])
      else if (49 <=? x) && (x <=? 56)
      then fenRanks rest (cur ++ repeat 45 (Z.to_nat (x - 48))) acc
      else fenRanks rest (cur ++ [x]) acc
  end.

Definition fenPiece (b : Board) (i ch : Z) : Board :=
  if ch =? 112 then addPiece b Black Pawn i
  else if ch =? 110 then addPiece b Black Knight i
  else if ch =? 98 then addPiece b Black Bishop i
  else if ch =? 114 then addPiece b Black Rook i
  else if ch =? 113 then addPiece b Black Queen i
  else if ch =? 107 then addPiece b Black King i
  else if ch =? 80 then addPiece b White Pawn i
  else if ch =? 78 then addPiece b White Knight i
  else if ch =? 66 then addPiece b White Bishop i
  else if ch =? 82 then addPiece b White Rook i
  else if ch =? 81 then addPiece b White Queen i
  else if ch =? 75 then addPiece b White King i
  else b.

Definition containsByte (s : string) (x : Z) : bool :=
  existsb (fun c => byteOf c =? x) (list_ascii_of_string s).

Definition emptyBoard : Board :=
  mkBoard White 0 0 (mkPerColor 0 0) 0
          (mkPerColor emptyBitboards emptyBitboards)
          (repeat Nothing 64) 0.

Definition ParseFenFields (placement : string) (side : ColorT)
  (castling : string) (ep halfmove fullmove : Z) : Board :=
  let squares := List.concat (rev (fenRanks placement [] [])) in
  let b :=
    fold_left (fun b ic => fenPiece b (fst ic) (snd ic))
              (combine allSquares squares) emptyBoard in
  let b := setColortomove b side in
  let b := if containsByte castling 75
           then flipCastleRights b White Kingside else b in
  let b := if containsByte castling 81
           then flipCastleRights b White Queenside else b in
  let b := if containsByte castling 107
           then flipCastleRights b Black Kingside else b in
  let b := if containsByte castling 113
           then flipCastleRights b Black Queenside else b in
  let b := setEnpassant b ep in
  let b := setHalfmoveclock b (wrap8 halfmove) in
  let b := setFullmoveno b (wrap16 fullmove) in
  setHash b (recomputeBoardHash b).

(** rnbqkbnr/pppppppp/8/8/8/8/PPPPPPPP/RNBQKBNR w KQkq - 0 1 *)
Definition startPosition : Board :=
  ParseFenFields "rnbqkbnr/pppppppp/8/8/8/8/PPPPPPPP/RNBQKBNR" White "KQkq"
                 0 0 1.

(** 8/8/8/K2pP2r/8/8/8/7k w - d6 0 1 *)
Definition epPinPosition : Board :=
  ParseFenFields "8/8/8/K2pP2r/8/8/8/7k" White "-" 43 0 1.

End Fen.

(* ------------------------------------------------------------------ *)
(** ** The position invariants of the specification *)

Definition u8b (x : Z) : bool := (0 <=? x) && (x <? 256).
Definition u16b (x : Z) : bool := (0 <=? x) && (x <? 65536).
Definition u64b (x : Z) : bool := (0 <=? x) && (x <? 2 ^ 64).

Definition kinds : list Piece := [Pawn; Knight; Bishop; Rook; Queen; King].

Definition bitboardsInRange (bb : Bitboards) : bool :=
  u64b (NoPieces bb) && forallb (fun k => u64b (pieceBitboard bb k)) kinds
  && u64b (All bb).

(** Invariant 1: [All] is the union of the six kinds, which are pairwise
    disjoint. *)
Definition unionOfKinds (bb : Bitboards) : Z :=
  fold_right (fun k acc => Z.lor (pieceBitboard bb k) acc) 0 kinds.

Definition kindsDisjoint (bb : Bitboards) : bool :=
  forallb (fun k1 =>
             forallb (fun k2 =>
                        Piece_eqb k1 k2
                        || (Z.land (pieceBitboard bb k1) (pieceBitboard bb k2)
                            =? 0))
                     kinds)
          kinds.

Definition allIsUnion (bb : Bitboards) : bool :=
  (All bb =? unionOfKinds bb) && kindsDisjoint bb.

(** Invariant 3: on every square the pieces array agrees with the
    bitboards. *)
Definition squareAgrees (b : Board) (s : Z) : bool :=
  forallb (fun k =>
             Bool.eqb (Z.testbit (Z.lor (pieceBitboard (bbsOf b White) k)
                                        (pieceBitboard (bbsOf b Black) k)) s)
                      (Piece_eqb (PieceAt b s) k))
          kinds.

(** Invariant 4: exactly one king. *)
Definition oneKing (bb : Bitboards) : bool := OnesCount64 (Kings bb) =? 1.

(** Invariant 5: the en-passant square is on the rank behind a pawn of
    the side that just moved, the square the pawn passed over is empty
    and the pawn stands one step further. *)
Definition epConsistent (b : Board) : bool :=
  let ep := enpassant b in
  (ep =? 0)
  || (match Colortomove b with
      | White => (40 <=? ep) && (ep <=? 47)
      | Black => (16 <=? ep) && (ep <=? 23)
      end
      && Piece_eqb (PieceAt b ep) Nothing
      && Z.testbit (Pawns (oppBitboards b)) (ep + epDeltas (Colortomove b))).

(** Invariant 6: a castle right implies king and rook on their home
    squares. *)
Definition castleConsistent (b : Board) : bool :=
  implb (canCastle b White Kingside)
        (Z.testbit (Kings (bbsOf b White)) 4
         && Z.testbit (Rooks (bbsOf b White)) 7)
  && implb (canCastle b White Queenside)
           (Z.testbit (Kings (bbsOf b White)) 4
            && Z.testbit (Rooks (bbsOf b White)) 0)
  && implb (canCastle b Black Kingside)
           (Z.testbit (Kings (bbsOf b Black)) 60
            && Z.testbit (Rooks (bbsOf b Black)) 63)
  && implb (canCastle b Black Queenside)
           (Z.testbit (Kings (bbsOf b Black)) 60
            && Z.testbit (Rooks (bbsOf b Black)) 56).

Definition fieldsInRange (b : Board) : bool :=
  u8b (enpassant b) && u8b (Halfmoveclock b)
  && u8b (pcGet (castlerights b) White) && u8b (pcGet (castlerights b) Black)
  && u16b (Fullmoveno b) && u64b (hash b)
  && bitboardsInRange (bbsOf b White) && bitboardsInRange (bbsOf b Black)
  && (Z.of_nat (List.length (pieces b)) =? 64).

(** Invariants 1 to 6 and the ranges of the fields. *)
Definition consistentb (b : Board) : bool :=
  fieldsInRange b
  && allIsUnion (bbsOf b White) && allIsUnion (bbsOf b Black)
  && (Z.land (All (bbsOf b White)) (All (bbsOf b Black)) =? 0)
  && forallb (squareAgrees b) allSquares
  && oneKing (bbsOf b White) && oneKing (bbsOf b Black)
  && epConsistent b
  && castleConsistent b.

Definition consistent (b : Board) : Prop := consistentb b = true.

(** Invariant 7. *)
Definition hashConsistent {zk : ZobristKeys} (b : Board) : Prop :=
  hash b = recomputeBoardHash b.

(** The observable state: every field but the bitboard slot of
    [Nothing]. *)
Definition sameBitboards (x y : Bitboards) : Prop :=
  (forall k, In k kinds -> pieceBitboard x k = pieceBitboard y k)
  /\ All x = All y.

Definition sameObservable (x y : Board) : Prop :=
  Colortomove x = Colortomove y
  /\ enpassant x = enpassant y
  /\ Halfmoveclock x = Halfmoveclock y
  /\ castlerights x = castlerights y
  /\ Fullmoveno x = Fullmoveno y
  /\ sameBitboards (bbsOf x White) (bbsOf y White)
  /\ sameBitboards (bbsOf x Black) (bbsOf y Black)
  /\ pieces x = pieces y
  /\ hash x = hash y.

(* ------------------------------------------------------------------ *)
(** ** Notions the claims are stated with *)

(** The squares from which a pawn attacks [origin]: one rank towards
    the attacking side, on an adjacent file. *)
Definition pawnAttackerSquares (byBlack : bool) (origin : Z) : Z :=
  bbOf (fun t =>
          (Z.abs (fileOf t - fileOf origin) =? 1)
          && (rankOf t =? rankOf origin + (if byBlack then 1 else -1))).

(** The squares a pawn of color [c] on [f] attacks. *)
Definition pawnAttacks (c : ColorT) (f t : Z) : bool :=
  (Z.abs (fileOf t - fileOf f) =? 1)
  && (rankOf t =? rankOf f + pawnPushDirections c).

(** The pieces of one side that attack [origin], after the five items of
    the specification of [count_attackers]: knights, diagonal sliders,
    orthogonal sliders, king, pawns. *)
Definition attackersOf (b : Board) (byBlack : bool) (origin : Z) : Z :=
  let oppPieces := if byBlack then bbsOf b Black else bbsOf b White in
  let allPieces := Z.lor (All (bbsOf b White)) (All (bbsOf b Black)) in
  let pawnSquares := pawnAttackerSquares byBlack origin in
  Z.lor
    (Z.land (knightMasks origin) (Knights oppPieces))
    (Z.lor
       (Z.land (CalculateBishopMoveBitboard origin allPieces)
               (Z.lor (Bishops oppPieces) (Queens oppPieces)))
       (Z.lor
          (Z.land (CalculateRookMoveBitboard origin allPieces)
                  (Z.lor (Rooks oppPieces) (Queens oppPieces)))
          (Z.lor (Z.land (kingMasks origin) (Kings oppPieces))
                 (Z.land pawnSquares (Pawns oppPieces))))).

(** The board of the side to move with its king taken off the
    bitboards. *)
Definition withoutOurKing (b : Board) : Board :=
  let ourCol := Colortomove b in
  let k := TrailingZeros64 (Kings (bbsOf b ourCol)) in
  let b := setBb b ourCol King 0 in
  setAllBb b ourCol (Z.land (All (bbsOf b ourCol)) (not64 (bit k))).

(** The integer predicate of the specification for a diagonal pin: king
    [k], piece [p] and slider [s] pairwise on a common diagonal, the
    piece strictly between the other two. *)
Definition intDiagPin (k p s : Z) : bool :=
  bishopAligned k p && bishopAligned p s && bishopAligned k s
  && strictlyBetween k s p.

(** The halfmove clock after a move, as the claim has it (saturating)
    and as an 8-bit counter has it (wrapping). *)
Definition resetsClock (b : Board) (m : Move) : bool :=
  negb (Piece_eqb (PieceAt b (To m)) Nothing)
  || Piece_eqb (PieceAt b (From m)) Pawn.

Definition saturatingClock (b : Board) (m : Move) : Z :=
  if resetsClock b m then 0 else Z.min 255 (Halfmoveclock b + 1).

Definition wrappingClock (b : Board) (m : Move) : Z :=
  if resetsClock b m then 0 else wrap8 (Halfmoveclock b + 1).

(** Move strings: a square is a file letter and a rank digit. *)
Definition isFileLower (c : Z) : bool := (97 <=? c) && (c <=? 104).
Definition isFileAnyCase (c : Z) : bool :=
  isFileLower c || ((65 <=? c) && (c <=? 72)).
Definition isRank (c : Z) : bool := (49 <=? c) && (c <=? 56).
Definition isPromoLetter (c : Z) : bool :=
  (c =? 110) || (c =? 98) || (c =? 114) || (c =? 113).

(** The shape of a move string, given the test for a file letter. *)
Definition moveShape (isFile : Z -> bool) (s : string) : bool :=
  let len := String.length s in
  (Nat.eqb len 4 || Nat.eqb len 5)
  && isFile (byteAt s 0) && isRank (byteAt s 1)
  && isFile (byteAt s 2) && isRank (byteAt s 3)
  && (Nat.eqb len 4 || isPromoLetter (byteAt s 4)).

(* ------------------------------------------------------------------ *)
(** ** Sample keys and positions *)

Definition sampleKeys : ZobristKeys :=
  {| pieceSquareZobristC := fun i s => 2 ^ 20 + 2 ^ (i + 7) + s;
     castleRightsZobristC := fun c s => 2 ^ 30 + 2 * colorCode c + sideCode s;
     whiteToMoveZobristC := 2 ^ 40 |}.

(** r3k2r/p1ppqpb1/bn2pnp1/3PN3/1p2P3/2N2Q1p/PPPBBPPP/R3K2R w KQkq - 0 1 *)
Definition kiwipete {zk : ZobristKeys} : Board :=
  ParseFenFields "r3k2r/p1ppqpb1/bn2pnp1/3PN3/1p2P3/2N2Q1p/PPPBBPPP/R3K2R"
                 White "KQkq" 0 0 1.

(** 7b/8/8/4Pp2/8/8/1K6/7k w - f6 0 1: the pawn on e5 is pinned by the
    bishop on h8, and f6 lies on the line of the pin. *)
Definition epOnPinLine {zk : ZobristKeys} : Board :=
  ParseFenFields "7b/8/8/4Pp2/8/8/1K6/7k" White "-" 45 0 1.

(** 8/8/8/4P3/8/8/8/K6k w - d6 0 1: an en-passant square with no pawn
    behind it. *)
Definition strayEpSquare {zk : ZobristKeys} : Board :=
  ParseFenFields "8/8/8/4P3/8/8/8/K6k" White "-" 43 0 1.

(** The initial position with the halfmove clock at 255. *)
Definition clockAt255 {zk : ZobristKeys} : Board :=
  ParseFenFields "rnbqkbnr/pppppppp/8/8/8/8/PPPPPPPP/RNBQKBNR" White "KQkq"
                 0 255 1.

(** 4k3/8/8/8/8/5n2/8/r3K3 w - - 0 1: the white king on e1 is attacked
    by the rook on a1 and the knight on f3. *)
Definition doubleCheck {zk : ZobristKeys} : Board :=
  ParseFenFields "4k3/8/8/8/8/5n2/8/r3K3" White "-" 0 0 1.

(** 7k/8/8/8/3b4/8/1N6/K7 w - - 0 1: the knight on b2 is pinned by the
    bishop on d4. *)
Definition diagonalPin {zk : ZobristKeys} : Board :=
  ParseFenFields "7k/8/8/8/3b4/8/1N6/K7" White "-" 0 0 1.

(* ------------------------------------------------------------------ *)
(** ** Relations used by the proofs *)

(** The rights held on [b'] are among those held on [b]. *)
Definition rightsWithin (b' b : Board) : Prop :=
  forall c s, canCastle b' c s = true -> canCastle b c s = true.

(** Every way the generator writes a move from [f] to [t]. *)
Definition encodings (f t : Z) : list Move :=
  [mkMove f t; Setfrom (Setto 0 t) f]
  ++ promoMoves (mkMove f t)
  ++ promoMoves (Setfrom (Setto 0 t) f)
  ++ map (Setpromote (mkMove f t))
         [pieceCode Knight; pieceCode Bishop; pieceCode Rook; pieceCode Queen].

Definition decodes (f t : Z) (m : Move) : bool :=
  (From m =? f) && (To m =? t) && negb (IsSimple m).

(** The two results of [GenerateLegalMoves2]: the moves and [isInCheck]. *)
Definition generated (b : Board) (onlyCapturesPromosCheckEvasion : bool)
  : option (list Move * bool) :=
  match GenerateLegalMoves2 b onlyCapturesPromosCheckEvasion with
  | Some (_, moves, inCheck) => Some (moves, inCheck)
  | None => None
  end.

(** The moves of the initial position, in the order of generation. *)
Definition initialMoves : list Move :=
  map (fun s => fst (ParseMove s))
      ["a2a3"; "b2b3"; "c2c3"; "d2d3"; "e2e3"; "f2f3"; "g2g3"; "h2h3";
       "a2a4"; "b2b4"; "c2c4"; "d2d4"; "e2e4"; "f2f4"; "g2g4"; "h2h4";
       "b1a3"; "b1c3"; "g1f3"; "g1h3"]%string.

(** The square a capturing pawn comes from, and the bitboard the capture
    loop walks in direction [dir] (0 or 1). *)
Definition captureOrigin (c : ColorT) (dir target : Z) : Z :=
  match c with
  | White => target - (9 - dir * 2)
  | Black => target + (9 - dir * 2)
  end.

Definition dirBoard (b : Board) (nonpinned dir : Z) : Z :=
  let '(east, west) := pawnCaptureBitboards b nonpinned in
  match Colortomove b with
  | White => if dir =? 0 then east else west
  | Black => if dir =? 0 then west else east
  end.

(** The file a capture in direction [dir] cannot land on. *)
Definition wrapFile (c : ColorT) (dir : Z) : Z :=
  match c with
  | White => if dir =? 0 then 0 else 7
  | Black => if dir =? 0 then 7 else 0
  end.

(** The squares a pawn may capture on: the opposing pieces and the
    en-passant square. *)
Definition captureTargets (b : Board) : Z :=
  let targets := All (oppBitboards b) in
  if enpassant b >? 0 then Z.lor targets (bit (enpassant b)) else targets.

(** The moves one iteration of the capture loop appends on board [b]. *)
Definition captureStepMoves (b : Board) (dir target : Z) : list Move :=
  let move := captureMove (Colortomove b) dir target in
  let probing := (wrap8 target =? enpassant b) && negb (enpassant b =? 0) in
  if probing && OurKingInCheck (epApply b move) then []
  else if canPromoteAt (Colortomove b) target then promoMoves move
  else [move].

(* ------------------------------------------------------------------ *)
(** ** Printing squares and moves (util.go, types.go) *)

(** [strconv.Itoa]. *)
Definition Itoa (n : Z) : string := NilZero.string_of_int (Z.to_int n).

(** [IndexToAlgebraic]; [None] where the source stops the process with
    [log.Fatal].  [id] is a [Square], a uint8. *)
Definition IndexToAlgebraic (id : Z) : option string :=
  if (id <? 0) || (id >? 63) then None
  else
    let rune := wrap8 (id mod 8 + 97) in
    Some (String (ascii_of_N (Z.to_N rune)) (Itoa (id / 8 + 1))).

(** [Move.String]. *)
Definition Move_String (m : Move) : option string :=
  if m =? 0 then Some "0000"%string
  else
    match IndexToAlgebraic (Square (From m)),
          IndexToAlgebraic (Square (To m)) with
    | Some f, Some t =>
        let result := (f ++ t)%string in
        Some (if Promote m =? pieceCode Queen then (result ++ "q")%string
              else if Promote m =? pieceCode Knight then (result ++ "n")%string
              else if Promote m =? pieceCode Rook then (result ++ "r")%string
              else if Promote m =? pieceCode Bishop then (result ++ "b")%string
              else result)
    | _, _ => None
    end.

(** The move word with the given origin, destination and promotion code. *)
Definition moveWord (f t p : Z) : Move :=
  Setpromote (Setfrom (Setto 0 t) f) p.


(* ------------------------------------------------------------------ *)
(** ** The null move (apply.go) *)

Section NullMove.
Context {zk : ZobristKeys}.

(** [ApplyNullMove2]: the board after the null move, and the
    [oldEpCaptureSquare] its [Unapply] closure holds. *)
Definition ApplyNullMove2 (b : Board) : Board * Z :=
  let oldEpCaptureSquare := enpassant b in
  let b := setEnpassant b 0 in
  let b := setHash b (Z.lxor (hash b) oldEpCaptureSquare) in
  let b := setHash b (Z.lxor (hash b) whiteToMoveZobristC) in
  let b := setColortomove b (oppColor (Colortomove b)) in
  (b, oldEpCaptureSquare).

(** The closure [moveInfo.Unapply], run on the board as it is then. *)
Definition UnapplyNullMove (b : Board) (oldEpCaptureSquare : Z) : Board :=
  let b := setHash b (Z.lxor (hash b) whiteToMoveZobristC) in
  let b := setColortomove b (oppColor (Colortomove b)) in
  let b := setHash b (Z.lxor (hash b) oldEpCaptureSquare) in
  setEnpassant b oldEpCaptureSquare.

(** The two parts of [recomputeBoardHash]: what side to move, castle
    rights and the en-passant square contribute, and what the square
    [i] contributes. *)
Definition headHash (b : Board) : Z :=
  let hash := 0 in
  let hash := match Colortomove b with
              | White => Z.lxor hash whiteToMoveZobristC
              | Black => hash
              end in
  let hash := if canCastle b White Kingside
              then Z.lxor hash (castleRightsZobristC White Kingside) else hash in
  let hash := if canCastle b White Queenside
              then Z.lxor hash (castleRightsZobristC White Queenside) else hash in
  let hash := if canCastle b Black Kingside
              then Z.lxor hash (castleRightsZobristC Black Kingside) else hash in
  let hash := if canCastle b Black Queenside
              then Z.lxor hash (castleRightsZobristC Black Queenside) else hash in
  Z.lxor hash (enpassant b).

Definition squareKey (b : Board) (i : Z) : Z :=
  if isWhitePieceAt b i
  then pieceSquareZobristC (pieceCode (PieceAt b i) - 1) i
  else if isBlackPieceAt b i
  then pieceSquareZobristC (pieceCode (PieceAt b i) + 5) i
  else 0.

Definition piecesHash (b : Board) : Z :=
  fold_left (fun hash i => Z.lxor hash (squareKey b i)) allSquares 0.

End NullMove.


(** [m] is a move of one of the pieces in the bitboard [origins], not
    pinned, to a square it attacks ([attacks f] for the piece on [f])
    that holds no piece of the side to move and is allowed as a
    destination. *)
Definition movesBy (b : Board) (origins : Z) (attacks : Z -> Z)
  (nonpinned allowDest : Z) (m : Move) : Prop :=
  exists f t,
    m = mkMove f t
    /\ 0 <= f < 64 /\ 0 <= t < 64
    /\ Z.testbit origins f = true
    /\ Z.testbit nonpinned f = true
    /\ Z.testbit (attacks f) t = true
    /\ Z.testbit (All (ourBitboards b)) t = false
    /\ Z.testbit allowDest t = true.

(** Every piece of both sides. *)
Definition occupied (b : Board) : Z :=
  Z.lor (All (bbsOf b White)) (All (bbsOf b Black)).


(** The square the king starts on. *)
Definition homeSquare (c : ColorT) : Z :=
  match c with White => 4 | Black => 60 end.


(** The rank a pawn of color [c] reaches with a double push. *)
Definition doublePushRank (c : ColorT) : Z :=
  match c with White => 3 | Black => 4 end.

(** [var move Move; move.Setfrom(Square(f)).Setto(Square(t))] for
    [int]s [f] and [t]. *)
Definition moveOfInts (f t : Z) : Move := mkMove (Square f) (Square t).


(** [l[s]] for a pieces array [l]. *)
Definition pieceOn (l : list Piece) (s : Z) : Piece :=
  nth (Z.to_nat s) l Nothing.

(** [b.Bbs[col][k]]. *)
Definition kindBb (b : Board) (col : ColorT) (k : Piece) : Z :=
  pieceBitboard (bbsOf b col) k.

(** What [MakeSpecialMove] needs of a king move over two files, which it
    takes for a castle: the rook on the square it is fetched from, the
    square it is put on empty, both on the board. *)
Definition castleSquaresOk (b : Board) (m : Move) : Prop :=
  PieceAt b (From m) = King ->
  (To m - From m = 2 ->
   To m + 1 < 64
   /\ PieceAt b (To m + 1) = Rook /\ PieceAt b (To m - 1) = Nothing)
  /\ (To m - From m = -2 ->
      2 <= To m
      /\ PieceAt b (To m - 2) = Rook /\ PieceAt b (To m + 1) = Nothing).


(* ------------------------------------------------------------------ *)
(** * Properties *)

(** ** Bits of machine integers *)

Lemma u64b_iff x : u64b x = true <-> 0 <= x < 2 ^ 64.
Proof. unfold u64b. rewrite andb_true_iff, Z.leb_le, Z.ltb_lt. tauto. Qed.

Lemma testbit_wrap64 x i :
  Z.testbit (wrap64 x) i = (i <? 64) && Z.testbit x i.
Proof. unfold wrap64. apply Z.testbit_mod_pow2. lia. Qed.

Lemma wrap64_range x : 0 <= wrap64 x < 2 ^ 64.
Proof. unfold wrap64. apply Z.mod_pos_bound. lia. Qed.

Lemma wrap64_id x : 0 <= x < 2 ^ 64 -> wrap64 x = x.
Proof. intros. unfold wrap64. apply Z.mod_small. assumption. Qed.

Lemma testbit_neg_index x i : i < 0 -> Z.testbit x i = false.
Proof. intros. apply Z.testbit_neg_r. assumption. Qed.

Lemma u64_high x i : 0 <= x < 2 ^ 64 -> 64 <= i -> Z.testbit x i = false.
Proof.
  intros Hx Hi. rewrite <- (wrap64_id x Hx), testbit_wrap64.
  destruct (Z.ltb_spec i 64); [lia | reflexivity].
Qed.

Lemma testbit_true_range x i :
  0 <= x < 2 ^ 64 -> Z.testbit x i = true -> 0 <= i < 64.
Proof.
  intros Hx Hb. destruct (Z.lt_ge_cases i 0) as [Hn | Hn].
  - rewrite testbit_neg_index in Hb by assumption. discriminate.
  - destruct (Z.lt_ge_cases i 64) as [Hl | Hg]; [lia |].
    rewrite (u64_high x i Hx Hg) in Hb. discriminate.
Qed.

Lemma bits_range x :
  0 <= x -> (forall i, 64 <= i -> Z.testbit x i = false) -> 0 <= x < 2 ^ 64.
Proof.
  intros Hx Hb. split; [assumption |].
  destruct (Z.lt_ge_cases x (2 ^ 64)) as [Hl | Hg]; [assumption | exfalso].
  assert (Hpos : 0 < x) by lia.
  pose proof (Z.bit_log2 x Hpos) as Hlog.
  assert (64 <= Z.log2 x) by (apply Z.log2_le_pow2; lia).
  rewrite Hb in Hlog by assumption. discriminate.
Qed.

Lemma testbit_not64 x i :
  Z.testbit (not64 x) i = (0 <=? i) && (i <? 64) && negb (Z.testbit x i).
Proof.
  unfold not64. rewrite testbit_wrap64.
  destruct (Z.leb_spec 0 i) as [Hi | Hi].
  - rewrite Z.lnot_spec by assumption. reflexivity.
  - rewrite (testbit_neg_index (Z.lnot x)) by assumption.
    rewrite andb_false_r. reflexivity.
Qed.

Lemma testbit_shl64 x n i :
  0 <= n -> Z.testbit (shl64 x n) i = (i <? 64) && Z.testbit x (i - n).
Proof.
  intros Hn. unfold shl64. rewrite testbit_wrap64.
  destruct (Z.leb_spec 0 i) as [Hi | Hi].
  - rewrite Z.shiftl_spec by assumption. reflexivity.
  - rewrite !testbit_neg_index by lia. reflexivity.
Qed.

Lemma testbit_shr64 x n i :
  0 <= n -> 0 <= i -> Z.testbit (shr64 x n) i = Z.testbit x (i + n).
Proof. intros. unfold shr64. apply Z.shiftr_spec. assumption. Qed.

Lemma testbit_bit pos i :
  0 <= pos -> Z.testbit (bit pos) i = (i =? pos) && (pos <? 64).
Proof.
  intros Hp. unfold bit. rewrite testbit_shl64 by assumption.
  destruct (Z.eqb_spec i pos) as [-> | Hne].
  - rewrite Z.sub_diag. change (Z.testbit 1 0) with true.
    rewrite andb_true_r. reflexivity.
  - destruct (Z.lt_ge_cases (i - pos) 0) as [Hn | Hn].
    + rewrite testbit_neg_index by assumption. apply andb_false_r.
    + replace (Z.testbit 1 (i - pos)) with false.
      * apply andb_false_r.
      * symmetry. change 1 with (2 ^ 0). apply Z.pow2_bits_false. lia.
Qed.

Lemma bit_range pos : 0 <= bit pos < 2 ^ 64.
Proof. unfold bit, shl64. apply wrap64_range. Qed.

Lemma not64_range x : 0 <= not64 x < 2 ^ 64.
Proof. unfold not64. apply wrap64_range. Qed.

Lemma land_range x y : 0 <= x < 2 ^ 64 -> 0 <= Z.land x y < 2 ^ 64.
Proof.
  intros Hx. apply bits_range.
  - apply Z.land_nonneg. lia.
  - intros i Hi. rewrite Z.land_spec, (u64_high x i Hx Hi). reflexivity.
Qed.

Lemma land_range_r x y : 0 <= y < 2 ^ 64 -> 0 <= Z.land x y < 2 ^ 64.
Proof. intros Hy. rewrite Z.land_comm. apply land_range. assumption. Qed.

Lemma lor_range x y :
  0 <= x < 2 ^ 64 -> 0 <= y < 2 ^ 64 -> 0 <= Z.lor x y < 2 ^ 64.
Proof.
  intros Hx Hy. apply bits_range.
  - apply Z.lor_nonneg. lia.
  - intros i Hi.
    rewrite Z.lor_spec, (u64_high x i Hx Hi), (u64_high y i Hy Hi).
    reflexivity.
Qed.

(** Two 64-bit numbers with the same bits are equal. *)
Lemma bits_eq64 x y :
  0 <= x < 2 ^ 64 -> 0 <= y < 2 ^ 64 ->
  (forall i, 0 <= i < 64 -> Z.testbit x i = Z.testbit y i) -> x = y.
Proof.
  intros Hx Hy Hb. apply Z.bits_inj'. intros i Hi.
  destruct (Z.lt_ge_cases i 64) as [Hl | Hg].
  - apply Hb. lia.
  - rewrite (u64_high x i Hx Hg), (u64_high y i Hy Hg). reflexivity.
Qed.

Lemma land_bit_zero x pos :
  0 <= pos < 64 -> (Z.land x (bit pos) =? 0) = negb (Z.testbit x pos).
Proof.
  intros Hp. destruct (Z.testbit x pos) eqn:Hb; cbn [negb].
  - apply Z.eqb_neq. intros H0.
    assert (Z.testbit (Z.land x (bit pos)) pos = true) as Ht.
    { rewrite Z.land_spec, Hb, testbit_bit, Z.eqb_refl by lia.
      destruct (Z.ltb_spec pos 64); [reflexivity | lia]. }
    rewrite H0, Z.bits_0 in Ht. discriminate.
  - apply Z.eqb_eq. apply Z.bits_inj'. intros i Hi.
    rewrite Z.land_spec, Z.bits_0, testbit_bit by lia.
    destruct (Z.eqb_spec i pos) as [-> | _].
    + rewrite Hb. reflexivity.
    + apply andb_false_r.
Qed.

Lemma bitSet_testbit x pos :
  0 <= pos < 64 -> bitSet x pos = Z.testbit x pos.
Proof.
  intros. unfold bitSet. rewrite land_bit_zero by assumption.
  apply negb_involutive.
Qed.

(** Case analysis on the integer comparisons of the goal. *)
Ltac zcases :=
  repeat match goal with
         | |- context [Z.eqb ?a ?b] => destruct (Z.eqb_spec a b)
         | |- context [Z.ltb ?a ?b] => destruct (Z.ltb_spec a b)
         | |- context [Z.leb ?a ?b] => destruct (Z.leb_spec a b)
         end;
  subst; try lia.

(** Setting a bit that is set, clearing a bit that is clear. *)
Lemma clear_then_set x pos :
  0 <= x < 2 ^ 64 -> 0 <= pos -> Z.testbit x pos = true ->
  Z.lor (Z.land x (not64 (bit pos))) (bit pos) = x.
Proof.
  intros Hx Hp Hb. pose proof (testbit_true_range x pos Hx Hb).
  apply Z.bits_inj'. intros i Hi.
  rewrite Z.lor_spec, Z.land_spec, testbit_not64, testbit_bit by assumption.
  zcases; cbn; try rewrite Hb; try btauto.
  rewrite (u64_high x i) by lia. reflexivity.
Qed.

Lemma set_then_clear x pos :
  0 <= x < 2 ^ 64 -> 0 <= pos -> Z.testbit x pos = false ->
  Z.land (Z.lor x (bit pos)) (not64 (bit pos)) = x.
Proof.
  intros Hx Hp Hb. apply Z.bits_inj'. intros i Hi.
  rewrite Z.land_spec, Z.lor_spec, testbit_not64, testbit_bit by assumption.
  zcases; cbn; try rewrite Hb; try btauto.
  all: rewrite (u64_high x) by lia; reflexivity.
Qed.

(** *** Trailing zeros and the pop loop *)

Lemma pos_ctz_nonneg p : 0 <= pos_ctz p.
Proof. induction p; cbn [pos_ctz]; lia. Qed.

Lemma pos_ctz_spec p :
  Z.testbit (Zpos p) (pos_ctz p) = true
  /\ forall i, 0 <= i < pos_ctz p -> Z.testbit (Zpos p) i = false.
Proof.
  induction p as [p IH | p IH |]; cbn [pos_ctz].
  - split; [reflexivity | intros; lia].
  - destruct IH as [IH1 IH2]. pose proof (pos_ctz_nonneg p).
    change (Zpos p~0) with (2 * Zpos p). split.
    + replace (1 + pos_ctz p) with (Z.succ (pos_ctz p)) by lia.
      rewrite Z.testbit_even_succ by assumption. exact IH1.
    + intros i Hi. destruct (Z.eq_dec i 0) as [-> | Hne].
      * apply Z.testbit_even_0.
      * replace i with (Z.succ (i - 1)) by lia.
        rewrite Z.testbit_even_succ by lia. apply IH2. lia.
  - split; [reflexivity | intros; lia].
Qed.

Lemma tz_spec x :
  0 < x ->
  0 <= TrailingZeros64 x
  /\ Z.testbit x (TrailingZeros64 x) = true
  /\ forall i, 0 <= i < TrailingZeros64 x -> Z.testbit x i = false.
Proof.
  intros Hx. destruct x as [| p | p]; try lia. cbn [TrailingZeros64].
  pose proof (pos_ctz_spec p) as [H1 H2]. pose proof (pos_ctz_nonneg p).
  auto.
Qed.

Lemma tz_range x :
  0 <= x < 2 ^ 64 -> x <> 0 -> 0 <= TrailingZeros64 x < 64.
Proof.
  intros Hx Hne. destruct (tz_spec x) as (H0 & H1 & _); [lia |].
  apply (testbit_true_range x); assumption.
Qed.

Lemma tz_zero : TrailingZeros64 0 = 64.
Proof. reflexivity. Qed.

(** The bits of [x - 1]. *)
Lemma pos_pred_bits p i :
  0 <= i ->
  Z.testbit (Zpos p - 1) i
  = if i <? pos_ctz p then true
    else if i =? pos_ctz p then false else Z.testbit (Zpos p) i.
Proof.
  revert i. induction p as [p IH | p IH |]; intros i Hi; cbn [pos_ctz].
  - replace (Zpos p~1 - 1) with (2 * Zpos p) by lia.
    change (Zpos p~1) with (2 * Zpos p + 1).
    destruct (Z.eq_dec i 0) as [-> | Hne].
    + cbn [Z.ltb Z.eqb Z.compare]. apply Z.testbit_even_0.
    + destruct (Z.ltb_spec i 0); [lia |].
      destruct (Z.eqb_spec i 0); [lia |].
      replace i with (Z.succ (i - 1)) by lia.
      rewrite Z.testbit_even_succ, Z.testbit_odd_succ by lia. reflexivity.
  - pose proof (pos_ctz_nonneg p).
    replace (Zpos p~0 - 1) with (2 * (Zpos p - 1) + 1) by lia.
    change (Zpos p~0) with (2 * Zpos p).
    destruct (Z.eq_dec i 0) as [-> | Hne].
    + rewrite Z.testbit_odd_0.
      destruct (Z.ltb_spec 0 (1 + pos_ctz p)); [reflexivity | lia].
    + replace i with (Z.succ (i - 1)) at 1 4 by lia.
      rewrite Z.testbit_odd_succ, Z.testbit_even_succ by lia.
      rewrite IH by lia.
      destruct (Z.ltb_spec (i - 1) (pos_ctz p)),
               (Z.ltb_spec i (1 + pos_ctz p)); try lia; try reflexivity.
      destruct (Z.eqb_spec (i - 1) (pos_ctz p)),
               (Z.eqb_spec i (1 + pos_ctz p)); try lia; reflexivity.
  - change (1 - 1) with 0. rewrite Z.bits_0.
    destruct (Z.ltb_spec i 0); [lia |].
    destruct (Z.eqb_spec i 0) as [-> | Hne]; [reflexivity |].
    symmetry. change 1 with (2 ^ 0). apply Z.pow2_bits_false. lia.
Qed.

(** [bb & (bb - 1)] clears the lowest set bit. *)
Lemma clear_lowest_bits x i :
  0 < x < 2 ^ 64 -> 0 <= i ->
  Z.testbit (Z.land x (wrap64 (x - 1))) i
  = Z.testbit x i && negb (i =? TrailingZeros64 x).
Proof.
  intros Hx Hi. rewrite wrap64_id by lia. rewrite Z.land_spec.
  destruct x as [| p | p]; try lia. cbn [TrailingZeros64].
  rewrite pos_pred_bits by assumption.
  pose proof (pos_ctz_spec p) as [H1 H2].
  destruct (Z.ltb_spec i (pos_ctz p)).
  - rewrite H2 by lia. reflexivity.
  - destruct (Z.eqb_spec i (pos_ctz p)); cbn [negb]; btauto.
Qed.

Lemma popLoop_spec fuel : forall bb,
  0 <= bb < 2 ^ 64 ->
  (forall i, 0 <= i < 64 - Z.of_nat fuel -> Z.testbit bb i = false) ->
  forall s, In s (popLoop fuel bb) <-> 0 <= s < 64 /\ Z.testbit bb s = true.
Proof.
  induction fuel as [| f IH]; intros bb Hbb Hlow s.
  - cbn [popLoop In]. split; [tauto |]. intros [Hs Hb].
    rewrite Hlow in Hb by (cbn; lia). discriminate.
  - cbn [popLoop]. destruct (Z.eqb_spec bb 0) as [-> | Hne].
    + cbn [In]. rewrite Z.bits_0. split; [tauto | intros [_ H]; discriminate].
    + assert (Hpos : 0 < bb < 2 ^ 64) by lia.
      destruct (tz_spec bb) as (Ht0 & Ht1 & Ht2); [lia |].
      pose proof (tz_range bb Hbb Hne) as Htr.
      set (bb' := Z.land bb (wrap64 (bb - 1))).
      assert (Hbb' : 0 <= bb' < 2 ^ 64).
      { apply land_range. assumption. }
      assert (Hlow' : forall i, 0 <= i < 64 - Z.of_nat f ->
                                Z.testbit bb' i = false).
      { intros i Hi. unfold bb'. rewrite clear_lowest_bits by lia.
        destruct (Z.eqb_spec i (TrailingZeros64 bb)) as [-> | Hd].
        - apply andb_false_r.
        - cbn [negb]. rewrite andb_true_r.
          destruct (Z.lt_ge_cases i (TrailingZeros64 bb)) as [Hl | Hg].
          + apply Ht2. lia.
          + apply Hlow. split; [lia |].
            destruct (Z.lt_ge_cases (TrailingZeros64 bb)
                                    (64 - Z.of_nat (S f))) as [Hc | Hc].
            * rewrite Hlow in Ht1 by lia. discriminate.
            * lia. }
      cbn [In]. rewrite (IH bb' Hbb' Hlow' s). unfold bb'. split.
      * intros [<- | [Hs Hb]]; [auto |].
        rewrite clear_lowest_bits in Hb by lia.
        apply andb_true_iff in Hb. tauto.
      * intros [Hs Hb].
        destruct (Z.eq_dec (TrailingZeros64 bb) s) as [He | Hd]; [auto | right].
        split; [assumption |]. rewrite clear_lowest_bits by lia.
        rewrite Hb. destruct (Z.eqb_spec s (TrailingZeros64 bb)); [lia | reflexivity].
Qed.

(** The pop loop visits exactly the set bits. *)
Lemma squaresOf_spec bb s :
  0 <= bb < 2 ^ 64 ->
  In s (squaresOf bb) <-> 0 <= s < 64 /\ Z.testbit bb s = true.
Proof.
  intros Hbb. unfold squaresOf. apply popLoop_spec; [assumption |].
  intros i Hi. cbn in Hi. lia.
Qed.

(** *** The 64 squares *)

Lemma allSquares_spec s : In s allSquares <-> 0 <= s < 64.
Proof.
  unfold allSquares. rewrite in_map_iff. split.
  - intros (n & <- & Hn). apply in_seq in Hn. lia.
  - intros Hs. exists (Z.to_nat s). split; [lia |]. apply in_seq. lia.
Qed.

Lemma forall_squares (P : Z -> bool) :
  forallb P allSquares = true -> forall s, 0 <= s < 64 -> P s = true.
Proof.
  intros H s Hs. rewrite forallb_forall in H. apply H.
  apply allSquares_spec. assumption.
Qed.

Lemma bbOf_fold_bits (P : Z -> bool) (l : list Z) i :
  (forall s, In s l -> 0 <= s < 64) ->
  Z.testbit (fold_right (fun s acc => if P s then Z.lor (bit s) acc else acc)
                        0 l) i
  = existsb (fun s => (i =? s) && P s) l.
Proof.
  intros Hl. induction l as [| a l IH]; cbn [fold_right existsb].
  - apply Z.bits_0.
  - assert (Ha : 0 <= a < 64) by (apply Hl; left; reflexivity).
    assert (Hl' : forall s, In s l -> 0 <= s < 64)
      by (intros; apply Hl; right; assumption).
    destruct (P a).
    + rewrite Z.lor_spec, testbit_bit, IH by (assumption || lia).
      destruct (Z.ltb_spec a 64); [| lia]. rewrite !andb_true_r. reflexivity.
    + rewrite IH by assumption. rewrite andb_false_r. reflexivity.
Qed.

Lemma testbit_bbOf (P : Z -> bool) i :
  Z.testbit (bbOf P) i = (0 <=? i) && (i <? 64) && P i.
Proof.
  unfold bbOf. rewrite bbOf_fold_bits by (intros s; apply allSquares_spec).
  destruct ((0 <=? i) && (i <? 64)) eqn:Hr.
  - apply andb_true_iff in Hr. rewrite Z.leb_le, Z.ltb_lt in Hr.
    cbn [andb]. destruct (P i) eqn:HP.
    + apply existsb_exists. exists i. rewrite Z.eqb_refl, HP.
      split; [apply allSquares_spec; lia | reflexivity].
    + apply not_true_is_false. intros He. apply existsb_exists in He.
      destruct He as (s & _ & Hs). apply andb_true_iff in Hs.
      destruct Hs as [He HPs]. apply Z.eqb_eq in He. subst s. congruence.
  - cbn [andb]. apply not_true_is_false. intros He.
    apply existsb_exists in He. destruct He as (s & Hin & Hs).
    apply andb_true_iff in Hs. destruct Hs as [He _]. apply Z.eqb_eq in He.
    subst s. apply allSquares_spec in Hin.
    apply andb_false_iff in Hr. rewrite Z.leb_gt, Z.ltb_ge in Hr. lia.
Qed.

Lemma bbOf_range (P : Z -> bool) : 0 <= bbOf P < 2 ^ 64.
Proof.
  apply bits_range.
  - unfold bbOf. induction allSquares as [| a l IH]; cbn [fold_right]; [lia |].
    destruct (P a); [| assumption].
    apply Z.lor_nonneg. pose proof (bit_range a). lia.
  - intros i Hi. rewrite testbit_bbOf.
    destruct (Z.ltb_spec i 64); [lia |]. rewrite andb_false_r. reflexivity.
Qed.

(** ** Pieces, colors, rights *)

Lemma Piece_eqb_eq a b : Piece_eqb a b = true <-> a = b.
Proof. destruct a, b; cbn; split; intros; try reflexivity; discriminate. Qed.

Lemma Piece_eqb_refl a : Piece_eqb a a = true.
Proof. apply Piece_eqb_eq. reflexivity. Qed.

Lemma Piece_eqb_spec a b : reflect (a = b) (Piece_eqb a b).
Proof.
  destruct (Piece_eqb a b) eqn:E; constructor.
  - apply Piece_eqb_eq. assumption.
  - intros H. apply Piece_eqb_eq in H. congruence.
Qed.

Lemma oppColor_involutive c : oppColor (oppColor c) = c.
Proof. destruct c; reflexivity. Qed.

Lemma oppColor_neq c : oppColor c <> c.
Proof. destruct c; discriminate. Qed.

Lemma canCastle_testbit b c s :
  canCastle b c s = Z.testbit (pcGet (castlerights b) c) (sideCode s).
Proof.
  unfold canCastle. set (x := pcGet (castlerights b) c).
  assert (Hk : 0 <= sideCode s) by (destruct s; cbn; lia).
  replace (toFlag s) with (2 ^ sideCode s)
    by (unfold toFlag; rewrite Z.shiftl_1_l; reflexivity).
  destruct (Z.testbit x (sideCode s)) eqn:Hb.
  - apply negb_true_iff, Z.eqb_neq. intros H0.
    assert (Z.testbit (Z.land x (2 ^ sideCode s)) (sideCode s) = true) as Ht
      by (rewrite Z.land_spec, Hb, Z.pow2_bits_true by assumption; reflexivity).
    rewrite H0, Z.bits_0 in Ht. discriminate.
  - apply negb_false_iff, Z.eqb_eq. apply Z.bits_inj'. intros i Hi.
    rewrite Z.land_spec, Z.bits_0, Z.pow2_bits_eqb by assumption.
    destruct (Z.eqb_spec (sideCode s) i) as [<- | _].
    + rewrite Hb. reflexivity.
    + apply andb_false_r.
Qed.

Lemma rightsWithin_same b' b :
  castlerights b' = castlerights b -> rightsWithin b' b.
Proof. intros H c s. unfold canCastle. rewrite H. tauto. Qed.

Lemma rightsWithin_refl b : rightsWithin b b.
Proof. intros c s H. exact H. Qed.

Lemma rightsWithin_trans b1 b2 b3 :
  rightsWithin b1 b2 -> rightsWithin b2 b3 -> rightsWithin b1 b3.
Proof. intros H12 H23 c s H. apply H23, H12, H. Qed.

Section Rights.
Context {zk : ZobristKeys}.

Lemma flip_within b c s :
  canCastle b c s = true -> rightsWithin (flipCastleRights b c s) b.
Proof.
  intros Hc c' s'. rewrite !canCastle_testbit in *.
  unfold flipCastleRights. cbn [castlerights setHash setCastlerights].
  assert (Hflag : toFlag s = 2 ^ sideCode s)
    by (unfold toFlag; rewrite Z.shiftl_1_l; reflexivity).
  destruct c, c'; cbn [pcGet pcSet atWhite atBlack] in *; try tauto;
    rewrite Hflag, Z.lxor_spec, Z.pow2_bits_eqb by (destruct s; cbn; lia);
    destruct (Z.eqb_spec (sideCode s) (sideCode s')) as [He | Hne];
    try (rewrite <- He, Hc; cbn; discriminate);
    rewrite xorb_false_r; tauto.
Qed.

Lemma stripKingRights_within b : rightsWithin (stripKingRights b) b.
Proof.
  unfold stripKingRights, weCanCastle, flipOurCastleRights.
  destruct (canCastle b (Colortomove b) Kingside) eqn:Hk.
  - set (b1 := flipCastleRights b (Colortomove b) Kingside).
    assert (H1 : rightsWithin b1 b) by (apply flip_within; assumption).
    destruct (canCastle b1 (Colortomove b1) Queenside) eqn:Hq.
    + eapply rightsWithin_trans; [apply flip_within; exact Hq | exact H1].
    + exact H1.
  - destruct (canCastle b (Colortomove b) Queenside) eqn:Hq.
    + apply flip_within. exact Hq.
    + apply rightsWithin_refl.
Qed.

Lemma stripRookRights_within b ourCol fromBit :
  rightsWithin (stripRookRights b ourCol fromBit) b.
Proof.
  unfold stripRookRights, weCanCastle, flipOurCastleRights.
  destruct (canCastle b (Colortomove b) Kingside) eqn:Hk; cbn [andb].
  - destruct (negb (Z.land fromBit (onlyFile 7) =? 0)
              && negb (Z.land fromBit (startingRankBbs ourCol) =? 0)).
    + apply flip_within. exact Hk.
    + destruct (canCastle b (Colortomove b) Queenside) eqn:Hq; cbn [andb].
      * destruct (negb (Z.land fromBit (onlyFile 0) =? 0)
                  && negb (Z.land fromBit (startingRankBbs ourCol) =? 0)).
        -- apply flip_within. exact Hq.
        -- apply rightsWithin_refl.
      * apply rightsWithin_refl.
  - destruct (canCastle b (Colortomove b) Queenside) eqn:Hq; cbn [andb].
    + destruct (negb (Z.land fromBit (onlyFile 0) =? 0)
                && negb (Z.land fromBit (startingRankBbs ourCol) =? 0)).
      * apply flip_within. exact Hq.
      * apply rightsWithin_refl.
    + apply rightsWithin_refl.
Qed.

Lemma stripCapturedRookRights_within b oppCol toLoc toBit :
  rightsWithin (stripCapturedRookRights b oppCol toLoc toBit) b.
Proof.
  unfold stripCapturedRookRights, oppCanCastle, flipOppCastleRights.
  destruct ((toLoc mod 8 =? 7)
            && negb (Z.land toBit (startingRankBbs oppCol) =? 0)); cbn [andb].
  - destruct (canCastle b (oppColor (Colortomove b)) Kingside) eqn:Hk.
    + apply flip_within. exact Hk.
    + destruct ((toLoc mod 8 =? 0)
                && negb (Z.land toBit (startingRankBbs oppCol) =? 0));
        cbn [andb]; [| apply rightsWithin_refl].
      destruct (canCastle b (oppColor (Colortomove b)) Queenside) eqn:Hq.
      * apply flip_within. exact Hq.
      * apply rightsWithin_refl.
  - destruct ((toLoc mod 8 =? 0)
              && negb (Z.land toBit (startingRankBbs oppCol) =? 0));
      cbn [andb]; [| apply rightsWithin_refl].
    destruct (canCastle b (oppColor (Colortomove b)) Queenside) eqn:Hq.
    + apply flip_within. exact Hq.
    + apply rightsWithin_refl.
Qed.

Lemma simpleByPiece_within b ourCol fromPiece fromLoc toLoc :
  rightsWithin (simpleByPiece b ourCol fromPiece fromLoc toLoc) b.
Proof.
  unfold simpleByPiece. destruct fromPiece; try apply rightsWithin_refl.
  - destruct (toLoc + 2 * epDeltas ourCol =? fromLoc);
      apply rightsWithin_same; reflexivity.
  - apply stripRookRights_within.
  - apply stripKingRights_within.
Qed.

Lemma simpleCapture_within b oppCol capturePiece toLoc :
  rightsWithin (simpleCapture b oppCol capturePiece toLoc) b.
Proof.
  unfold simpleCapture.
  destruct capturePiece; try apply rightsWithin_refl;
    try (apply rightsWithin_same; reflexivity).
  eapply rightsWithin_trans; [apply stripCapturedRookRights_within |].
  apply rightsWithin_same. reflexivity.
Qed.

Lemma MakeSimpleMove_within b m : rightsWithin (fst (MakeSimpleMove b m)) b.
Proof.
  unfold MakeSimpleMove. cbn [fst].
  eapply rightsWithin_trans; [apply rightsWithin_same; reflexivity |].
  eapply rightsWithin_trans; [apply rightsWithin_same; reflexivity |].
  eapply rightsWithin_trans; [apply simpleCapture_within |].
  eapply rightsWithin_trans; [apply rightsWithin_same; reflexivity |].
  eapply rightsWithin_trans; [apply simpleByPiece_within |].
  apply rightsWithin_same. reflexivity.
Qed.

Lemma specialClocks_rights b m p :
  castlerights (specialClocks b m p) = castlerights b.
Proof. unfold specialClocks. destruct (_ || _); reflexivity. Qed.

Lemma specialRights_within b m p : rightsWithin (specialRights b m p) b.
Proof.
  unfold specialRights. destruct (Piece_eqb p King).
  - destruct (Piece_eqb p Rook); [| apply stripKingRights_within].
    eapply rightsWithin_trans;
      [apply stripRookRights_within | apply stripKingRights_within].
  - destruct (Piece_eqb p Rook);
      [apply stripRookRights_within | apply rightsWithin_refl].
Qed.

Lemma specialCastleRook_rights b castle :
  castlerights (specialCastleRook b castle) = castlerights b.
Proof.
  unfold specialCastleRook. destruct castle as [[cs o] n].
  destruct (cs =? 0); reflexivity.
Qed.

Lemma specialEpCapture_rights b m p :
  castlerights (specialEpCapture b m p) = castlerights b.
Proof. unfold specialEpCapture. destruct (isEpCapture _ _ _); reflexivity. Qed.

Lemma specialEpSquare_rights b m p :
  castlerights (specialEpSquare b m p) = castlerights b.
Proof. unfold specialEpSquare. destruct (_ && _); reflexivity. Qed.

Lemma specialCapture_rights b m p :
  castlerights (specialCapture b m p) = castlerights b.
Proof. unfold specialCapture. destruct (negb _); reflexivity. Qed.

Lemma specialCapturedRook_within b m p :
  rightsWithin (specialCapturedRook b m p) b.
Proof.
  unfold specialCapturedRook. destruct (Piece_eqb p Rook).
  - apply stripCapturedRookRights_within.
  - apply rightsWithin_refl.
Qed.

Lemma MakeSpecialMove_within b m : rightsWithin (fst (MakeSpecialMove b m)) b.
Proof.
  unfold MakeSpecialMove. cbn [fst].
  eapply rightsWithin_trans; [apply rightsWithin_same; reflexivity |].
  eapply rightsWithin_trans; [apply specialCapturedRook_within |].
  eapply rightsWithin_trans; [apply rightsWithin_same; reflexivity |].
  eapply rightsWithin_trans;
    [apply rightsWithin_same; apply specialCapture_rights |].
  eapply rightsWithin_trans;
    [apply rightsWithin_same; apply specialEpSquare_rights |].
  eapply rightsWithin_trans;
    [apply rightsWithin_same; apply specialEpCapture_rights |].
  eapply rightsWithin_trans;
    [apply rightsWithin_same; apply specialCastleRook_rights |].
  eapply rightsWithin_trans; [apply specialRights_within |].
  apply rightsWithin_same. apply specialClocks_rights.
Qed.

(** C9. No application of a move sets a castle right: for every board
    and every move, whichever of [MakeSimpleMove] and [MakeSpecialMove]
    applies it, a right held after [MakeMove] was held before it. *)
Theorem MakeMove_never_sets_a_right (b : Board) (m : Move)
  (c : ColorT) (s : CastleRightsT) :
  canCastle (fst (MakeMove b m)) c s = true -> canCastle b c s = true.
Proof.
  unfold MakeMove. destruct (IsSimple m).
  - apply MakeSimpleMove_within.
  - apply MakeSpecialMove_within.
Qed.

End Rights.

(** ** Move strings *)

Lemma lowered_file_check x :
  (toLowerByte x <? 97) || (toLowerByte x >? 104) = negb (isFileAnyCase x).
Proof.
  unfold toLowerByte, isFileAnyCase, isFileLower.
  destruct (Z.leb_spec 65 x), (Z.leb_spec x 90); cbn [andb];
    rewrite ?Z.gtb_ltb; zcases; reflexivity.
Qed.

Lemma rank_check x : (x <? 49) || (x >? 56) = negb (isRank x).
Proof. unfold isRank. rewrite Z.gtb_ltb. zcases; reflexivity. Qed.

Lemma AlgebraicToIndex_error c0 c1 rest :
  snd (AlgebraicToIndex (String c0 (String c1 rest)))
  = if isFileAnyCase (byteOf c0) && isRank (byteOf c1)
    then None
    else Some ("Invalid algebraic " ++ String c0 (String c1 rest))%string.
Proof.
  unfold AlgebraicToIndex.
  change (byteAt (String c0 (String c1 rest)) 0) with (byteOf c0).
  change (byteAt (String c0 (String c1 rest)) 1) with (byteOf c1).
  rewrite <- !orb_assoc, orb_assoc, lowered_file_check.
  rewrite (orb_assoc (negb _)), <- (orb_assoc (negb _)), rank_check.
  destruct (isFileAnyCase (byteOf c0)), (isRank (byteOf c1)); reflexivity.
Qed.

Lemma promo_letter_cases c :
  isPromoLetter c = (c =? 110) || (c =? 98) || (c =? 113) || (c =? 114).
Proof. unfold isPromoLetter. btauto. Qed.

(** [ParseMove] on a string that is not "0000": the error test. *)
Lemma ParseMove_error s :
  s <> "0000"%string ->
  (snd (ParseMove s) = None <-> moveShape isFileAnyCase s = true).
Proof.
  intros Hne. unfold ParseMove.
  destruct (String.eqb_spec s "0000") as [-> | _]; [congruence |].
  destruct s as [| c0 [| c1 [| c2 [| c3 [| c4 [| c5 rest]]]]]];
    try (cbn; split; discriminate).
  - (* four characters *)
    cbn [String.length Z.of_nat Z.ltb Z.gtb Z.compare Pos.compare orb
         Pos.of_succ_nat Pos.succ Pos.compare_cont].
    change (substring 0 2 (String c0 (String c1 (String c2 (String c3 EmptyString))))) 
      with (String c0 (String c1 EmptyString)).
    change (substring 2 2 (String c0 (String c1 (String c2 (String c3 EmptyString))))) 
      with (String c2 (String c3 EmptyString)).
    destruct (AlgebraicToIndex (String c0 (String c1 EmptyString))) as [from errf] eqn:Ef.
    destruct (AlgebraicToIndex (String c2 (String c3 EmptyString))) as [to errto] eqn:Et.
    pose proof (AlgebraicToIndex_error c0 c1 EmptyString) as Hf. rewrite Ef in Hf.
    pose proof (AlgebraicToIndex_error c2 c3 EmptyString) as Ht. rewrite Et in Ht.
    cbn [snd] in Hf, Ht. unfold moveShape.
    change (byteAt (String c0 (String c1 (String c2 (String c3 EmptyString)))) 0)
      with (byteOf c0).
    change (byteAt (String c0 (String c1 (String c2 (String c3 EmptyString)))) 1)
      with (byteOf c1).
    change (byteAt (String c0 (String c1 (String c2 (String c3 EmptyString)))) 2)
      with (byteOf c2).
    change (byteAt (String c0 (String c1 (String c2 (String c3 EmptyString)))) 3)
      with (byteOf c3).
    cbn [String.length Nat.eqb orb andb Z.of_nat Z.eqb].
    destruct (isFileAnyCase (byteOf c0)), (isRank (byteOf c1)),
             (isFileAnyCase (byteOf c2)), (isRank (byteOf c3));
      cbn [andb] in *; subst errf errto; cbn; split; congruence.
  - (* five characters *)
    cbn [String.length Z.of_nat Z.ltb Z.gtb Z.compare Pos.compare orb
         Pos.of_succ_nat Pos.succ Pos.compare_cont].
    change (substring 0 2
              (String c0 (String c1 (String c2 (String c3 (String c4 EmptyString))))))
      with (String c0 (String c1 EmptyString)).
    change (substring 2 2
              (String c0 (String c1 (String c2 (String c3 (String c4 EmptyString))))))
      with (String c2 (String c3 EmptyString)).
    destruct (AlgebraicToIndex (String c0 (String c1 EmptyString))) as [from errf] eqn:Ef.
    destruct (AlgebraicToIndex (String c2 (String c3 EmptyString))) as [to errto] eqn:Et.
    pose proof (AlgebraicToIndex_error c0 c1 EmptyString) as Hf. rewrite Ef in Hf.
    pose proof (AlgebraicToIndex_error c2 c3 EmptyString) as Ht. rewrite Et in Ht.
    cbn [snd] in Hf, Ht. unfold moveShape.
    change (byteAt (String c0 (String c1 (String c2 (String c3 (String c4 EmptyString))))) 0)
      with (byteOf c0).
    change (byteAt (String c0 (String c1 (String c2 (String c3 (String c4 EmptyString))))) 1)
      with (byteOf c1).
    change (byteAt (String c0 (String c1 (String c2 (String c3 (String c4 EmptyString))))) 2)
      with (byteOf c2).
    change (byteAt (String c0 (String c1 (String c2 (String c3 (String c4 EmptyString))))) 3)
      with (byteOf c3).
    change (byteAt (String c0 (String c1 (String c2 (String c3 (String c4 EmptyString))))) 4)
      with (byteOf c4).
    cbn [String.length Nat.eqb orb andb Z.of_nat Z.eqb Pos.eqb
         Pos.of_succ_nat Pos.succ].
    rewrite promo_letter_cases.
    destruct (isFileAnyCase (byteOf c0)), (isRank (byteOf c1)),
             (isFileAnyCase (byteOf c2)), (isRank (byteOf c3));
      cbn [andb] in *; subst errf errto; cbn [snd];
      try (split; congruence).
    destruct (byteOf c4 =? 110); [cbn; tauto |].
    destruct (byteOf c4 =? 98); [cbn; tauto |].
    destruct (byteOf c4 =? 113); [cbn; tauto |].
    destruct (byteOf c4 =? 114); [cbn; tauto |].
    cbn. split; discriminate.
  - (* six characters or more *)
    split.
    + cbn [String.length]. 
      replace (Z.of_nat (S (S (S (S (S (S (String.length rest))))))) <? 4)
        with false by (symmetry; apply Z.ltb_ge; lia).
      replace (Z.of_nat (S (S (S (S (S (S (String.length rest))))))) >? 5)
        with true by (symmetry; rewrite Z.gtb_ltb; apply Z.ltb_lt; lia).
      cbn. discriminate.
    + unfold moveShape. cbn [String.length Nat.eqb orb andb]. discriminate.
Qed.

(** C8, as amended. [ParseMove] returns the null move, without error,
    on "0000"; on every string it succeeds exactly when the string is
    "0000" or has four or five characters of which the first two and
    the next two each denote a square - a file letter a-h in either
    case, since the letter is lower-cased before it is checked, and a
    rank digit 1-8 - and the fifth, if present, is one of n, b, r, q. *)
Theorem ParseMove_accepts :
  ParseMove "0000" = (0, None)
  /\ forall s : string,
       snd (ParseMove s) = None
       <-> s = "0000"%string \/ moveShape isFileAnyCase s = true.
Proof.
  split; [reflexivity |]. intros s.
  destruct (String.eqb_spec s "0000") as [-> | Hne].
  - split; [intros _; left; reflexivity | intros _; reflexivity].
  - rewrite (ParseMove_error s Hne). split; [auto |].
    intros [H | H]; [congruence | exact H].
Qed.

(** C8, the claim as stated fails: "A2A4" is not "0000", its files are
    not among a-h, and [ParseMove] accepts it. *)
Lemma ParseMove_accepts_upper_case_files :
  "A2A4"%string <> "0000"%string
  /\ moveShape isFileLower "A2A4" = false
  /\ ParseMove "A2A4" = (fst (ParseMove "a2a4"), None).
Proof. split; [discriminate | split; reflexivity]. Qed.

(** ** Encoded moves *)

(** A check over all pairs of squares, run once, holds of each pair. *)
Lemma forall_squares2 (P : Z -> Z -> bool) :
  forallb (fun x => forallb (P x) allSquares) allSquares = true ->
  forall x y, 0 <= x < 64 -> 0 <= y < 64 -> P x y = true.
Proof.
  intros H x y Hx Hy.
  apply (forall_squares (P x)); [| exact Hy].
  apply (forall_squares (fun x => forallb (P x) allSquares)); assumption.
Qed.

Lemma encodings_checked :
  forallb (fun f => forallb (fun t => forallb (decodes f t) (encodings f t))
                            allSquares)
          allSquares = true.
Proof. vm_compute. reflexivity. Qed.

Lemma encodings_decode f t m :
  0 <= f < 64 -> 0 <= t < 64 -> In m (encodings f t) ->
  From m = f /\ To m = t /\ IsSimple m = false.
Proof.
  intros Hf Ht Hm.
  pose proof (forall_squares2 _ encodings_checked f t Hf Ht) as H2.
  rewrite forallb_forall in H2. specialize (H2 m Hm). unfold decodes in H2.
  apply andb_true_iff in H2. destruct H2 as [H2 H3].
  apply andb_true_iff in H2. destruct H2 as [H4 H5].
  apply Z.eqb_eq in H4, H5. apply negb_true_iff in H3. auto.
Qed.

Lemma encodings_same :
  forallb (fun f => forallb (fun t => Setfrom (Setto 0 t) f =? mkMove f t)
                            allSquares)
          allSquares = true.
Proof. vm_compute. reflexivity. Qed.


Lemma Square_small x : 0 <= x < 64 -> Square x = x.
Proof. intros. unfold Square, wrap8. apply Z.mod_small. lia. Qed.

Lemma land_63_range x : 0 <= Z.land x 63 < 64.
Proof.
  change 63 with (Z.ones 6). rewrite Z.land_ones by lia.
  change (2 ^ 6) with 64. apply Z.mod_pos_bound. lia.
Qed.

Lemma From_range m : 0 <= From m < 64.
Proof.
  unfold From, wrap8. rewrite Z.shiftr_land.
  change (Z.shiftr 4032 6) with 63.
  pose proof (land_63_range (Z.shiftr m 6)). rewrite Z.mod_small; lia.
Qed.

Lemma To_range m : 0 <= To m < 64.
Proof.
  unfold To, wrap8. pose proof (land_63_range m). rewrite Z.mod_small; lia.
Qed.

(** ** What a consistent position provides *)

Lemma u8b_iff x : u8b x = true <-> 0 <= x < 256.
Proof. unfold u8b. rewrite andb_true_iff, Z.leb_le, Z.ltb_lt. tauto. Qed.

Lemma u16b_iff x : u16b x = true <-> 0 <= x < 65536.
Proof. unfold u16b. rewrite andb_true_iff, Z.leb_le, Z.ltb_lt. tauto. Qed.

Lemma in_kinds k : In k kinds <-> k <> Nothing.
Proof.
  unfold kinds. cbn [In]. destruct k; split; intros H; try congruence;
    try tauto; try (repeat destruct H as [H | H]; congruence).
Qed.

Lemma bitboardsInRange_kind bb k :
  bitboardsInRange bb = true -> 0 <= pieceBitboard bb k < 2 ^ 64.
Proof.
  unfold bitboardsInRange. rewrite !andb_true_iff, forallb_forall.
  intros [[H0 Hk] _]. destruct (Piece_eqb_spec k Nothing) as [-> | Hne].
  - apply u64b_iff. exact H0.
  - apply u64b_iff, Hk, in_kinds. assumption.
Qed.

Lemma bitboardsInRange_all bb :
  bitboardsInRange bb = true -> 0 <= All bb < 2 ^ 64.
Proof.
  unfold bitboardsInRange. rewrite !andb_true_iff.
  intros [_ H]. apply u64b_iff. exact H.
Qed.

Lemma testbit_unionOfKinds bb i :
  Z.testbit (unionOfKinds bb) i
  = existsb (fun k => Z.testbit (pieceBitboard bb k) i) kinds.
Proof.
  unfold unionOfKinds, kinds. cbn [fold_right existsb].
  rewrite !Z.lor_spec, Z.bits_0. reflexivity.
Qed.

Lemma kindsDisjoint_bits bb k1 k2 i :
  kindsDisjoint bb = true -> k1 <> Nothing -> k2 <> Nothing -> k1 <> k2 ->
  Z.testbit (pieceBitboard bb k1) i = true ->
  Z.testbit (pieceBitboard bb k2) i = false.
Proof.
  unfold kindsDisjoint. rewrite forallb_forall. intros H H1 H2 Hne Hb.
  specialize (H k1 (proj2 (in_kinds k1) H1)). rewrite forallb_forall in H.
  specialize (H k2 (proj2 (in_kinds k2) H2)).
  apply orb_true_iff in H. destruct H as [H | H].
  - apply Piece_eqb_eq in H. congruence.
  - apply Z.eqb_eq in H.
    assert (Ht : Z.testbit (Z.land (pieceBitboard bb k1) (pieceBitboard bb k2)) i
                 = false) by (rewrite H; apply Z.bits_0).
    rewrite Z.land_spec, Hb in Ht. exact Ht.
Qed.

Lemma pos_popcount_pos p : 1 <= pos_popcount p.
Proof. induction p; cbn [pos_popcount]; lia. Qed.

Lemma pos_popcount_one p : pos_popcount p = 1 -> Zpos p = 2 ^ pos_ctz p.
Proof.
  induction p as [p IH | p IH |]; cbn [pos_popcount pos_ctz]; intros H.
  - pose proof (pos_popcount_pos p). lia.
  - pose proof (pos_ctz_nonneg p).
    rewrite Z.pow_add_r, <- IH by lia. reflexivity.
  - reflexivity.
Qed.

Lemma oneKing_bit bb :
  bitboardsInRange bb = true -> oneKing bb = true ->
  0 <= TrailingZeros64 (Kings bb) < 64
  /\ Kings bb = bit (TrailingZeros64 (Kings bb)).
Proof.
  intros Hr H1. unfold oneKing in H1. apply Z.eqb_eq in H1.
  pose proof (bitboardsInRange_kind bb King Hr) as Hk. cbn [pieceBitboard] in Hk.
  destruct (Kings bb) as [| p | p] eqn:E; cbn [OnesCount64] in H1; try lia.
  assert (Hne : Zpos p <> 0) by lia.
  pose proof (tz_range (Zpos p) Hk Hne) as Ht. split; [exact Ht |].
  cbn [TrailingZeros64] in *. unfold bit, shl64.
  rewrite Z.shiftl_1_l, wrap64_id.
  - apply pos_popcount_one. exact H1.
  - rewrite <- (pos_popcount_one p H1). exact Hk.
Qed.

Section Consistent.
Variable b : Board.
Hypothesis Hc : consistent b.

Lemma cons_parts :
  fieldsInRange b = true
  /\ allIsUnion (bbsOf b White) = true /\ allIsUnion (bbsOf b Black) = true
  /\ Z.land (All (bbsOf b White)) (All (bbsOf b Black)) = 0
  /\ forallb (squareAgrees b) allSquares = true
  /\ oneKing (bbsOf b White) = true /\ oneKing (bbsOf b Black) = true
  /\ epConsistent b = true /\ castleConsistent b = true.
Proof.
  unfold consistent, consistentb in Hc. rewrite !andb_true_iff in Hc.
  rewrite Z.eqb_eq in Hc. tauto.
Qed.

Lemma cons_fields :
  0 <= enpassant b < 256 /\ 0 <= Halfmoveclock b < 256
  /\ 0 <= Fullmoveno b < 65536 /\ 0 <= hash b < 2 ^ 64
  /\ List.length (pieces b) = 64%nat.
Proof.
  destruct cons_parts as (H & _). unfold fieldsInRange in H.
  rewrite !andb_true_iff, !u8b_iff, u16b_iff, u64b_iff, Z.eqb_eq in H.
  repeat split; try tauto; lia.
Qed.

Lemma cons_bbs_range c : bitboardsInRange (bbsOf b c) = true.
Proof.
  destruct cons_parts as (H & _). unfold fieldsInRange in H.
  rewrite !andb_true_iff in H. destruct c; tauto.
Qed.

Lemma cons_kind_range c k : 0 <= pieceBitboard (bbsOf b c) k < 2 ^ 64.
Proof. apply bitboardsInRange_kind, cons_bbs_range. Qed.

Lemma cons_all_range c : 0 <= All (bbsOf b c) < 2 ^ 64.
Proof. apply bitboardsInRange_all, cons_bbs_range. Qed.

Lemma cons_union c :
  All (bbsOf b c) = unionOfKinds (bbsOf b c)
  /\ kindsDisjoint (bbsOf b c) = true.
Proof.
  destruct cons_parts as (_ & HW & HB & _).
  unfold allIsUnion in HW, HB. rewrite andb_true_iff, Z.eqb_eq in HW, HB.
  destruct c; assumption.
Qed.

(** A piece bitboard lies inside [All]. *)
Lemma cons_kind_in_all c k s :
  k <> Nothing -> Z.testbit (pieceBitboard (bbsOf b c) k) s = true ->
  Z.testbit (All (bbsOf b c)) s = true.
Proof.
  intros Hk Hb. destruct (cons_union c) as [-> _].
  rewrite testbit_unionOfKinds. apply existsb_exists. exists k.
  split; [apply in_kinds; assumption | exact Hb].
Qed.

Lemma cons_colors_disjoint c s :
  Z.testbit (All (bbsOf b c)) s = true ->
  Z.testbit (All (bbsOf b (oppColor c))) s = false.
Proof.
  destruct cons_parts as (_ & _ & _ & Hd & _). intros Hb.
  assert (Ht : Z.testbit (Z.land (All (bbsOf b White)) (All (bbsOf b Black))) s
               = false) by (rewrite Hd; apply Z.bits_0).
  rewrite Z.land_spec in Ht. destruct c; cbn [oppColor] in *;
    rewrite Hb in Ht; cbn in Ht; [exact Ht |].
  rewrite andb_true_r in Ht. exact Ht.
Qed.

Lemma cons_square s k :
  0 <= s < 64 -> k <> Nothing ->
  Z.testbit (Z.lor (pieceBitboard (bbsOf b White) k)
                   (pieceBitboard (bbsOf b Black) k)) s
  = Piece_eqb (PieceAt b s) k.
Proof.
  intros Hs Hk. destruct cons_parts as (_ & _ & _ & _ & H & _).
  pose proof (forall_squares _ H s Hs) as Hsq. unfold squareAgrees in Hsq.
  rewrite forallb_forall in Hsq. specialize (Hsq k (proj2 (in_kinds k) Hk)).
  apply eqb_prop in Hsq. exact Hsq.
Qed.

(** The piece kind of a set bit. *)
Lemma cons_kind_piece c k s :
  0 <= s < 64 -> k <> Nothing ->
  Z.testbit (pieceBitboard (bbsOf b c) k) s = true -> PieceAt b s = k.
Proof.
  intros Hs Hk Hb. apply Piece_eqb_eq. rewrite <- (cons_square s k Hs Hk).
  rewrite Z.lor_spec. destruct c; rewrite Hb; [reflexivity | apply orb_true_r].
Qed.

(** An occupied square holds the piece the array says, of that color. *)
Lemma cons_all_piece c s :
  0 <= s < 64 -> Z.testbit (All (bbsOf b c)) s = true ->
  PieceAt b s <> Nothing
  /\ Z.testbit (pieceBitboard (bbsOf b c) (PieceAt b s)) s = true.
Proof.
  intros Hs Hb. destruct (cons_union c) as [Hu _]. rewrite Hu in Hb.
  rewrite testbit_unionOfKinds in Hb. apply existsb_exists in Hb.
  destruct Hb as (k & Hk & Hbk). apply in_kinds in Hk.
  rewrite (cons_kind_piece c k s Hs Hk Hbk). auto.
Qed.

Lemma cons_empty s :
  0 <= s < 64 ->
  (PieceAt b s = Nothing
   <-> Z.testbit (All (bbsOf b White)) s = false
       /\ Z.testbit (All (bbsOf b Black)) s = false).
Proof.
  intros Hs. split.
  - intros Hn. split; apply not_true_is_false; intros Hb;
      apply (cons_all_piece _ s Hs) in Hb; tauto.
  - intros [HW HB]. destruct (Piece_eqb_spec (PieceAt b s) Nothing) as [| Hne];
      [assumption | exfalso].
    pose proof (cons_square s (PieceAt b s) Hs Hne) as Hsq.
    rewrite Piece_eqb_refl, Z.lor_spec in Hsq. apply orb_true_iff in Hsq.
    destruct Hsq as [Hq | Hq].
    + apply (cons_kind_in_all White) in Hq; congruence.
    + apply (cons_kind_in_all Black) in Hq; congruence.
Qed.

(** The king. *)
Lemma cons_king c :
  0 <= TrailingZeros64 (Kings (bbsOf b c)) < 64
  /\ Kings (bbsOf b c) = bit (TrailingZeros64 (Kings (bbsOf b c))).
Proof.
  apply oneKing_bit; [apply cons_bbs_range |].
  destruct cons_parts as (_ & _ & _ & _ & _ & HW & HB & _).
  destruct c; assumption.
Qed.

Lemma cons_king_square c s :
  Z.testbit (Kings (bbsOf b c)) s = true ->
  s = TrailingZeros64 (Kings (bbsOf b c)).
Proof.
  destruct (cons_king c) as [Hr He]. intros Hb.
  remember (TrailingZeros64 (Kings (bbsOf b c))) as k eqn:Ek.
  rewrite He, testbit_bit in Hb by lia. apply andb_true_iff in Hb.
  destruct Hb as [Hb _]. apply Z.eqb_eq in Hb. exact Hb.
Qed.

Lemma cons_king_set c :
  Z.testbit (Kings (bbsOf b c)) (TrailingZeros64 (Kings (bbsOf b c))) = true.
Proof.
  destruct (cons_king c) as [Hr He].
  remember (TrailingZeros64 (Kings (bbsOf b c))) as k eqn:Ek.
  rewrite He, testbit_bit, Z.eqb_refl by lia.
  destruct (Z.ltb_spec k 64); [reflexivity | lia].
Qed.

(** The en-passant square. *)
Lemma cons_ep :
  enpassant b <> 0 ->
  match Colortomove b with
  | White => 40 <= enpassant b <= 47
  | Black => 16 <= enpassant b <= 23
  end
  /\ PieceAt b (enpassant b) = Nothing
  /\ Z.testbit (Pawns (oppBitboards b))
               (enpassant b + epDeltas (Colortomove b)) = true.
Proof.
  intros Hne. destruct cons_parts as (_ & _ & _ & _ & _ & _ & _ & H & _).
  unfold epConsistent in H. apply orb_true_iff in H.
  destruct H as [H | H]; [apply Z.eqb_eq in H; congruence |].
  rewrite !andb_true_iff in H. destruct H as [[Hr Hp] Ht].
  apply Piece_eqb_eq in Hp. repeat split; try assumption.
  destruct (Colortomove b); rewrite andb_true_iff, !Z.leb_le in Hr; lia.
Qed.

End Consistent.


(** ** The halfmove clock *)

Section Clock.
Context {zk : ZobristKeys}.

Lemma stripKingRights_clock b :
  Halfmoveclock (stripKingRights b) = Halfmoveclock b.
Proof.
  unfold stripKingRights. destruct (weCanCastle b Kingside);
    match goal with |- context [if ?c then _ else _] => destruct c end;
    reflexivity.
Qed.

Lemma stripRookRights_clock b c fb :
  Halfmoveclock (stripRookRights b c fb) = Halfmoveclock b.
Proof.
  unfold stripRookRights.
  repeat match goal with |- context [if ?c then _ else _] => destruct c end;
    reflexivity.
Qed.

Lemma stripCapturedRookRights_clock b c l tb :
  Halfmoveclock (stripCapturedRookRights b c l tb) = Halfmoveclock b.
Proof.
  unfold stripCapturedRookRights.
  repeat match goal with |- context [if ?c then _ else _] => destruct c end;
    reflexivity.
Qed.

Lemma simpleFlip_clock b : Halfmoveclock (simpleFlip b) = Halfmoveclock b.
Proof. reflexivity. Qed.

Lemma simpleMove_clock b c p f t :
  Halfmoveclock (simpleMove b c p f t) = Halfmoveclock b.
Proof. reflexivity. Qed.

Lemma simpleCapture_clock b c p t :
  Halfmoveclock (simpleCapture b c p t)
  = if Piece_eqb p Nothing then Halfmoveclock b else 0.
Proof.
  unfold simpleCapture. destruct p; cbn [Piece_eqb pieceCode Z.eqb];
    rewrite ?stripCapturedRookRights_clock; reflexivity.
Qed.

Lemma simpleEpIn_clock b : Halfmoveclock (simpleEpIn b) = Halfmoveclock b.
Proof. reflexivity. Qed.

Lemma simpleByPiece_clock b c p f t :
  Halfmoveclock (simpleByPiece b c p f t)
  = if Piece_eqb p Pawn then 0 else Halfmoveclock b.
Proof.
  unfold simpleByPiece. destruct p; cbn [Piece_eqb pieceCode Z.eqb Pos.eqb];
    rewrite ?stripKingRights_clock, ?stripRookRights_clock; try reflexivity.
  destruct (_ =? _); reflexivity.
Qed.

Lemma simpleEpOut_clock b : Halfmoveclock (simpleEpOut b) = Halfmoveclock b.
Proof. reflexivity. Qed.

Lemma simpleClocks_clock b c :
  Halfmoveclock (simpleClocks b c) = wrap8 (Halfmoveclock b + 1).
Proof. reflexivity. Qed.

Lemma MakeSimpleMove_clock b m :
  Halfmoveclock (fst (MakeSimpleMove b m)) = wrappingClock b m.
Proof.
  unfold MakeSimpleMove, wrappingClock, resetsClock. cbv zeta. cbn [fst].
  rewrite simpleFlip_clock, simpleMove_clock, simpleCapture_clock,
    simpleEpIn_clock, simpleByPiece_clock, simpleEpOut_clock,
    simpleClocks_clock.
  destruct (Piece_eqb (PieceAt b (To m)) Nothing),
           (Piece_eqb (PieceAt b (From m)) Pawn); reflexivity.
Qed.

Lemma specialRights_clock b m p :
  Halfmoveclock (specialRights b m p) = Halfmoveclock b.
Proof.
  unfold specialRights. destruct (Piece_eqb p King), (Piece_eqb p Rook);
    rewrite ?stripRookRights_clock, ?stripKingRights_clock; reflexivity.
Qed.

Lemma specialCastleRook_clock b castle :
  Halfmoveclock (specialCastleRook b castle) = Halfmoveclock b.
Proof.
  unfold specialCastleRook. destruct castle as [[cs o] n].
  destruct (cs =? 0); reflexivity.
Qed.

Lemma specialEpCapture_clock b m p :
  Halfmoveclock (specialEpCapture b m p) = Halfmoveclock b.
Proof. unfold specialEpCapture. destruct (isEpCapture _ _ _); reflexivity. Qed.

Lemma specialEpSquare_clock b m p :
  Halfmoveclock (specialEpSquare b m p) = Halfmoveclock b.
Proof. unfold specialEpSquare. destruct (_ && _); reflexivity. Qed.

Lemma specialCapture_clock b m p :
  Halfmoveclock (specialCapture b m p) = Halfmoveclock b.
Proof. unfold specialCapture. destruct (negb _); reflexivity. Qed.

Lemma specialCapturedRook_clock b m p :
  Halfmoveclock (specialCapturedRook b m p) = Halfmoveclock b.
Proof.
  unfold specialCapturedRook. destruct (Piece_eqb p Rook);
    rewrite ?stripCapturedRookRights_clock; reflexivity.
Qed.

Lemma specialFlip_clock b e : Halfmoveclock (specialFlip b e) = Halfmoveclock b.
Proof. reflexivity. Qed.

Lemma specialMovePiece_clock b m p q :
  Halfmoveclock (specialMovePiece b m p q) = Halfmoveclock b.
Proof. reflexivity. Qed.

Lemma specialClocks_clock b m p :
  Halfmoveclock (specialClocks b m p)
  = if IsCapture m b || Piece_eqb p Pawn
    then 0 else wrap8 (Halfmoveclock b + 1).
Proof.
  unfold specialClocks.
  replace (IsCapture m (setFullmoveno b
                          (wrap16 (Fullmoveno b + colorCode (Colortomove b)))))
    with (IsCapture m b) by reflexivity.
  destruct (IsCapture m b || Piece_eqb p Pawn); reflexivity.
Qed.

Lemma MakeSpecialMove_clock_code b m :
  Halfmoveclock (fst (MakeSpecialMove b m))
  = if IsCapture m b || Piece_eqb (PieceAt b (From m)) Pawn
    then 0 else wrap8 (Halfmoveclock b + 1).
Proof.
  unfold MakeSpecialMove. cbv zeta. cbn [fst].
  rewrite specialFlip_clock, specialCapturedRook_clock, specialMovePiece_clock,
    specialCapture_clock, specialEpSquare_clock, specialEpCapture_clock,
    specialCastleRook_clock, specialRights_clock, specialClocks_clock.
  reflexivity.
Qed.

Lemma land_bit_comm x pos :
  0 <= pos < 64 -> negb (Z.land (bit pos) x =? 0) = Z.testbit x pos.
Proof.
  intros. rewrite Z.land_comm, land_bit_zero by assumption.
  apply negb_involutive.
Qed.

(** On a consistent board [IsCapture] or a pawn move is: the destination
    is occupied, or a pawn moves. *)
Lemma IsCapture_or_pawn b m :
  consistent b ->
  IsCapture m b || Piece_eqb (PieceAt b (From m)) Pawn = resetsClock b m.
Proof.
  intros Hc. pose proof (To_range m) as Ht. pose proof (From_range m) as Hf.
  unfold IsCapture, resetsClock. rewrite !land_bit_comm by assumption.
  pose proof (cons_empty b Hc (To m) Ht) as He.
  destruct (Piece_eqb_spec (PieceAt b (To m)) Nothing) as [Hn | Hn].
  - apply He in Hn. destruct Hn as [-> ->]. cbn [orb negb].
    destruct (Piece_eqb_spec (PieceAt b (From m)) Pawn) as [Hp | Hp].
    + apply orb_true_r.
    + rewrite orb_false_r.
      assert (Hw : Z.testbit (Pawns (bbsOf b White)) (From m) = false).
      { apply not_true_is_false. intros Hb.
        apply (cons_kind_piece b Hc White Pawn) in Hb;
          [congruence | assumption | discriminate]. }
      assert (Hk : Z.testbit (Pawns (bbsOf b Black)) (From m) = false).
      { apply not_true_is_false. intros Hb.
        apply (cons_kind_piece b Hc Black Pawn) in Hb;
          [congruence | assumption | discriminate]. }
      rewrite Hw, Hk. reflexivity.
  - cbn [negb orb].
    destruct (Z.testbit (All (bbsOf b White)) (To m)) eqn:Hw;
      [reflexivity |].
    destruct (Z.testbit (All (bbsOf b Black)) (To m)) eqn:Hk;
      [reflexivity |].
    exfalso. apply Hn, He. auto.
Qed.

(** C7, as amended. On a consistent position [MakeMove] sets the
    halfmove clock to 0 if the destination square is occupied (a
    capture) or a pawn moves (en-passant captures included), and
    otherwise to the old value plus one modulo 256: the clock is an
    8-bit counter that wraps. *)
Theorem MakeMove_halfmove_clock (b : Board) (m : Move) :
  consistent b ->
  Halfmoveclock (fst (MakeMove b m)) = wrappingClock b m.
Proof.
  intros Hc. unfold MakeMove. destruct (IsSimple m).
  - apply MakeSimpleMove_clock.
  - rewrite MakeSpecialMove_clock_code, (IsCapture_or_pawn b m Hc).
    reflexivity.
Qed.

End Clock.

(** ** The initial position *)

Section Initial.
Context {zk : ZobristKeys}.

(** C3. On the initial position [GenerateLegalMoves2(false)] returns,
    without duplicates, the 20 moves a2a3 .. h2h3, a2a4 .. h2h4, b1a3,
    b1c3, g1f3, g1h3 - sixteen pawn pushes and four knight moves - and
    reports that the side to move is not in check. *)
Theorem initial_position_moves :
  generated startPosition false = Some (initialMoves, false)
  /\ List.length initialMoves = 20%nat
  /\ NoDup initialMoves.
Proof.
  split; [vm_compute; reflexivity |]. split; [reflexivity |].
  unfold initialMoves.
  repeat (constructor; [cbn [In]; intuition discriminate |]).
  constructor.
Qed.

End Initial.

(** ** Instances on the sample positions *)

Section Samples.
#[local] Existing Instance sampleKeys.

Lemma MakeMove_never_sets_a_right_witness :
  canCastle (fst (MakeMove startPosition
                           (fst (ParseMove "e1e2"))))
            Black Kingside = true
  /\ canCastle (startPosition) Black Kingside = true.
Proof.
  split; [vm_compute; reflexivity |].
  apply (MakeMove_never_sets_a_right startPosition
           (fst (ParseMove "e1e2")) Black Kingside).
  vm_compute. reflexivity.
Defined.

Lemma MakeMove_halfmove_clock_witness :
  consistent (kiwipete)
  /\ Halfmoveclock (fst (MakeMove kiwipete
                                  (fst (ParseMove "e1g1"))))
     = wrappingClock (kiwipete) (fst (ParseMove "e1g1")).
Proof.
  split; [vm_compute; reflexivity |].
  apply (MakeMove_halfmove_clock).
  vm_compute. reflexivity.
Defined.

(** C7, the claim as stated fails: with the clock at 255 the knight move
    g1f3, which [GenerateLegalMoves] returns, neither captures nor moves
    a pawn; a saturating clock would stay at 255, [MakeMove] leaves 0. *)
Lemma halfmove_clock_wraps_at_255 :
  consistent (clockAt255)
  /\ (exists moves,
         GenerateLegalMoves (clockAt255) = Some moves
         /\ In (fst (ParseMove "g1f3")) moves)
  /\ Halfmoveclock (clockAt255) = 255
  /\ saturatingClock (clockAt255) (fst (ParseMove "g1f3"))
     = 255
  /\ Halfmoveclock (fst (MakeMove clockAt255
                                  (fst (ParseMove "g1f3")))) = 0.
Proof.
  split; [vm_compute; reflexivity |].
  split.
  - exists initialMoves. split; [vm_compute; reflexivity |].
    vm_compute. tauto.
  - repeat split; vm_compute; reflexivity.
Qed.

End Samples.

(** ** The generator hands the board back *)

(** Reading the bitboards after an assignment. *)
Lemma bbsOf_setBb_same b c p v :
  bbsOf (setBb b c p v) c = setPieceBitboard (bbsOf b c) p v.
Proof. destruct c; reflexivity. Qed.

Lemma bbsOf_setBb_other b c p v :
  bbsOf (setBb b c p v) (oppColor c) = bbsOf b (oppColor c).
Proof. destruct c; reflexivity. Qed.

Lemma bbsOf_setAllBb_same b c v :
  bbsOf (setAllBb b c v) c = setAll (bbsOf b c) v.
Proof. destruct c; reflexivity. Qed.

Lemma bbsOf_setAllBb_other b c v :
  bbsOf (setAllBb b c v) (oppColor c) = bbsOf b (oppColor c).
Proof. destruct c; reflexivity. Qed.

Lemma All_setPieceBitboard bb p v : All (setPieceBitboard bb p v) = All bb.
Proof. destruct p; reflexivity. Qed.

Lemma pieceBitboard_set_same bb p v :
  pieceBitboard (setPieceBitboard bb p v) p = v.
Proof. destruct p; reflexivity. Qed.

Lemma pieceBitboard_set_other bb p q v :
  p <> q -> pieceBitboard (setPieceBitboard bb p v) q = pieceBitboard bb q.
Proof. destruct p, q; intros H; try reflexivity; congruence. Qed.

Lemma pieceBitboard_setAll bb p v : pieceBitboard (setAll bb v) p = pieceBitboard bb p.
Proof. destruct p; reflexivity. Qed.

(** Writing back what is there changes nothing. *)
Lemma king_off_and_on b c al :
  setAllBb (setBb (setAllBb (setBb b c King 0) c al) c King (Kings (bbsOf b c)))
           c (All (bbsOf b c)) = b.
Proof.
  destruct b as [ctm ep hm cr fm [w k] ps h]. destruct c, w, k; reflexivity.
Qed.

Lemma kingPushes_board_slots b moveList allowDest :
  fst (kingPushes b moveList allowDest)
  = let c := Colortomove b in
    let k := TrailingZeros64 (Kings (bbsOf b c)) in
    let al := Z.land (All (bbsOf b c)) (not64 (bit k)) in
    setAllBb (setBb (setAllBb (setBb b c King 0) c al) c King
                    (Kings (bbsOf b c)))
             c (Z.lor al (bit k)).
Proof.
  destruct b as [ctm ep hm cr fm [w k] ps h]. destruct ctm, w, k; reflexivity.
Qed.

Lemma kingPushes_board b moveList allowDest :
  0 <= All (ourBitboards b) < 2 ^ 64 ->
  Z.testbit (All (ourBitboards b))
            (TrailingZeros64 (Kings (ourBitboards b))) = true ->
  fst (kingPushes b moveList allowDest) = b.
Proof.
  unfold ourBitboards. intros Hr Hk. rewrite kingPushes_board_slots. cbv zeta.
  set (c := Colortomove b) in *.
  set (k := TrailingZeros64 (Kings (bbsOf b c))) in *.
  assert (Hk0 : 0 <= k) by (apply (testbit_true_range _ k Hr Hk)).
  rewrite (clear_then_set _ k Hr Hk0 Hk).
  apply king_off_and_on.
Qed.

(** The provisional en-passant capture and its reversal. *)
Lemma probe_roundtrip P f t :
  0 <= P < 2 ^ 64 -> 0 <= f -> 0 <= t ->
  Z.testbit P f = true -> Z.testbit P t = false ->
  Z.land (Z.lor (Z.lor (Z.land P (not64 (bit f))) (bit t)) (bit f))
         (not64 (bit t)) = P.
Proof.
  intros HP Hf Ht Hbf Hbt. apply Z.bits_inj'. intros i Hi.
  rewrite !Z.land_spec, !Z.lor_spec, !Z.land_spec, !testbit_not64,
    !testbit_bit by assumption.
  pose proof (testbit_true_range P f HP Hbf).
  assert (Hft : f <> t) by (intros ->; congruence).
  destruct (Z.eq_dec i f) as [-> | Hnf].
  - rewrite Hbf. zcases; reflexivity.
  - destruct (Z.eq_dec i t) as [-> | Hnt].
    + rewrite Hbt. zcases; cbn; btauto.
    + zcases; cbn; try btauto.
      all: rewrite (u64_high P) by lia; reflexivity.
Qed.

Lemma ep_off_and_on b c :
  setAllBb
    (setBb
       (setAllBb
          (setBb b c Pawn (Pawns (bbsOf b c)))
          c (All (bbsOf b c)))
       (oppColor c) Pawn (Pawns (bbsOf b (oppColor c))))
    (oppColor c) (All (bbsOf b (oppColor c))) = b.
Proof.
  destruct b as [ctm ep hm cr fm [w k] ps h]. destruct c, w, k; reflexivity.
Qed.

(** The bitboards [epUnapply (epApply b move) move] assigns, slot by
    slot. *)
Lemma epProbe_board_slots b move :
  fst (epProbe b move)
  = let c := Colortomove b in
    let o := oppColor c in
    let e := wrap8 (To move + oneRankBacks c) in
    let back P := Z.land (Z.lor (Z.lor (Z.land P (not64 (bit (From move))))
                                       (bit (To move)))
                                (bit (From move)))
                         (not64 (bit (To move))) in
    let again Q := Z.lor (Z.land Q (not64 (bit e))) (bit e) in
    setAllBb
      (setBb
         (setAllBb (setBb b c Pawn (back (Pawns (bbsOf b c))))
                   c (back (All (bbsOf b c))))
         o Pawn (again (Pawns (bbsOf b o))))
      o (again (All (bbsOf b o))).
Proof.
  destruct b as [ctm ep hm cr fm [w k] ps h]. destruct ctm, w, k; reflexivity.
Qed.

Lemma epProbe_board b move :
  let c := Colortomove b in
  let e := wrap8 (To move + oneRankBacks c) in
  0 <= Pawns (bbsOf b c) < 2 ^ 64 -> 0 <= All (bbsOf b c) < 2 ^ 64 ->
  0 <= Pawns (bbsOf b (oppColor c)) < 2 ^ 64 ->
  0 <= All (bbsOf b (oppColor c)) < 2 ^ 64 ->
  Z.testbit (Pawns (bbsOf b c)) (From move) = true ->
  Z.testbit (All (bbsOf b c)) (From move) = true ->
  Z.testbit (Pawns (bbsOf b c)) (To move) = false ->
  Z.testbit (All (bbsOf b c)) (To move) = false ->
  Z.testbit (Pawns (bbsOf b (oppColor c))) e = true ->
  Z.testbit (All (bbsOf b (oppColor c))) e = true ->
  fst (epProbe b move) = b.
Proof.
  intros c e HP HA HQ HB Hpf Haf Hpt Hat Hqe Hbe.
  pose proof (From_range move). pose proof (To_range move).
  assert (He0 : 0 <= e) by (apply (testbit_true_range _ e HQ Hqe)).
  rewrite epProbe_board_slots. cbv beta zeta. fold c. fold e.
  rewrite !probe_roundtrip, !clear_then_set by (assumption || lia).
  apply ep_off_and_on.
Qed.

(** The capture bitboards, bit by bit. *)
Lemma file_masks_checked :
  forallb (fun t =>
             Bool.eqb (Z.testbit 0xFEFEFEFEFEFEFEFE t) (negb (fileOf t =? 0))
             && Bool.eqb (Z.testbit 0x7F7F7F7F7F7F7F7F t)
                         (negb (fileOf t =? 7)))
          allSquares = true.
Proof. vm_compute. reflexivity. Qed.

Lemma notAFile_bit t :
  0 <= t < 64 -> Z.testbit 0xFEFEFEFEFEFEFEFE t = negb (fileOf t =? 0).
Proof.
  intros Ht. pose proof (forall_squares _ file_masks_checked t Ht) as H.
  cbv beta in H. apply andb_true_iff in H. destruct H as [H _].
  apply eqb_prop in H. exact H.
Qed.

Lemma notHFile_bit t :
  0 <= t < 64 -> Z.testbit 0x7F7F7F7F7F7F7F7F t = negb (fileOf t =? 7).
Proof.
  intros Ht. pose proof (forall_squares _ file_masks_checked t Ht) as H.
  cbv beta in H. apply andb_true_iff in H. destruct H as [_ H].
  apply eqb_prop in H. exact H.
Qed.

Lemma dirBoard_bits b nonpinned dir t :
  dir = 0 \/ dir = 1 -> 0 <= t < 64 ->
  Z.testbit (dirBoard b nonpinned dir) t
  = Z.testbit (Z.land (Pawns (ourBitboards b)) nonpinned)
              (captureOrigin (Colortomove b) dir t)
    && negb (fileOf t =? wrapFile (Colortomove b) dir)
    && Z.testbit (captureTargets b) t.
Proof.
  intros Hd Ht. unfold dirBoard, pawnCaptureBitboards, captureTargets,
    captureOrigin, wrapFile, ourBitboards, oppBitboards. cbv zeta.
  destruct (Colortomove b); destruct Hd as [-> | ->]; cbn [Z.eqb Z.mul Z.sub];
    rewrite !Z.land_spec;
    rewrite ?testbit_shl64, ?testbit_shr64 by lia;
    rewrite ?notAFile_bit, ?notHFile_bit by assumption;
    destruct (Z.ltb_spec t 64); try lia; cbn [andb];
    rewrite ?Z.land_spec;
    change (1 * 2)%positive with 2%positive; change (9 - 0) with 9;
    change (9 - 2) with 7; reflexivity.
Qed.

Lemma dirBoard_range b nonpinned dir :
  0 <= dirBoard b nonpinned dir < 2 ^ 64.
Proof.
  unfold dirBoard, pawnCaptureBitboards. cbv zeta.
  destruct (Colortomove b), (dir =? 0);
    apply land_range; first [ apply land_range; apply wrap64_range
                            | apply land_range_r; lia ].
Qed.

Lemma pawnCaptures_unfold b moveList nonpinned allowDest :
  pawnCaptures b moveList nonpinned allowDest
  = let allowDest := if enpassant b >? 0
                     then Z.lor allowDest (bit (enpassant b))
                     else allowDest in
    fold_left (pawnCaptureStep 1)
      (squaresOf (Z.land (dirBoard b nonpinned 1) allowDest))
      (fold_left (pawnCaptureStep 0)
         (squaresOf (Z.land (dirBoard b nonpinned 0) allowDest))
         (b, moveList)).
Proof.
  unfold pawnCaptures, dirBoard.
  destruct (pawnCaptureBitboards b nonpinned) as [east west].
  destruct (Colortomove b); reflexivity.
Qed.

Lemma pawnCaptureStep_unfold dir b moveList target :
  pawnCaptureStep dir (b, moveList) target
  = let move := captureMove (Colortomove b) dir target in
    let probing := (wrap8 target =? enpassant b) && negb (enpassant b =? 0) in
    (if probing then fst (epProbe b move) else b,
     if probing && snd (epProbe b move) then moveList
     else if canPromoteAt (Colortomove b) target
          then moveList ++ promoMoves move
          else moveList ++ [move]).
Proof.
  unfold pawnCaptureStep. cbv zeta.
  destruct ((wrap8 target =? enpassant b) && negb (enpassant b =? 0)).
  - destruct (epProbe b (captureMove (Colortomove b) dir target)) as [b1 r].
    cbn [fst snd andb]. destruct r; [reflexivity |].
    destruct (canPromoteAt (Colortomove b) target); reflexivity.
  - cbn [andb]. destruct (canPromoteAt (Colortomove b) target); reflexivity.
Qed.

Lemma fold_left_keeps_board {A B C} (step : A * B -> C -> A * B)
  (l : list C) (a : A) :
  (forall y x, In x l -> fst (step (a, y) x) = a) ->
  forall y, fst (fold_left step l (a, y)) = a.
Proof.
  induction l as [| x l IH]; intros H y; cbn [fold_left]; [reflexivity |].
  assert (Hx : fst (step (a, y) x) = a) by (apply H; left; reflexivity).
  destruct (step (a, y) x) as [a' y'] eqn:E. cbn [fst] in Hx. subst a'.
  apply IH. intros y0 x0 Hin. apply H. right. exact Hin.
Qed.

(** The move of the capture loop decodes to its origin and target. *)
Lemma captureMove_decode c dir t :
  0 <= t < 64 -> 0 <= captureOrigin c dir t < 64 ->
  let move := captureMove c dir t in
  From move = captureOrigin c dir t /\ To move = t /\ IsSimple move = false
  /\ move = mkMove (captureOrigin c dir t) t.
Proof.
  intros Ht Hf. cbv zeta.
  assert (Hm : captureMove c dir t
               = Setfrom (Setto 0 t) (captureOrigin c dir t)).
  { unfold captureMove, captureOrigin in *.
    destruct c; rewrite !Square_small by lia; reflexivity. }
  rewrite Hm.
  destruct (encodings_decode (captureOrigin c dir t) t
              (Setfrom (Setto 0 t) (captureOrigin c dir t)) Hf Ht)
    as (H1 & H2 & H3); [right; left; reflexivity |].
  repeat split; try assumption.
  pose proof (forall_squares2 _ encodings_same
                (captureOrigin c dir t) t Hf Ht) as He.
  apply Z.eqb_eq in He. exact He.
Qed.

Section Frame.
Variable b : Board.
Hypothesis Hc : consistent b.

(** What the provisional capture needs of an origin that holds one of
    our pawns, when the target is the en-passant square. *)
Lemma epProbe_keeps_board move :
  Z.testbit (Pawns (ourBitboards b)) (From move) = true ->
  To move = enpassant b -> enpassant b <> 0 ->
  fst (epProbe b move) = b.
Proof.
  intros Hp Ht Hne. unfold ourBitboards in Hp.
  destruct (cons_ep b Hc Hne) as (Hr & He & Hq). unfold oppBitboards in Hq.
  assert (Hep : 0 <= enpassant b < 64) by (destruct (Colortomove b); lia).
  destruct (proj1 (cons_empty b Hc (enpassant b) Hep) He) as [HW HB].
  assert (Hat : Z.testbit (All (bbsOf b (Colortomove b))) (enpassant b) = false)
    by (destruct (Colortomove b); assumption).
  assert (Hpt : Z.testbit (Pawns (bbsOf b (Colortomove b))) (enpassant b)
                = false).
  { apply not_true_is_false. intros Hx.
    apply (cons_kind_in_all b Hc _ Pawn) in Hx; [congruence | discriminate]. }
  assert (Hee : wrap8 (To move + oneRankBacks (Colortomove b))
                = enpassant b + epDeltas (Colortomove b)).
  { rewrite Ht. unfold wrap8. rewrite Z.mod_small.
    - destruct (Colortomove b); reflexivity.
    - destruct (Colortomove b); cbn; lia. }
  apply epProbe_board; rewrite ?Hee, ?Ht;
    try apply (cons_kind_range b Hc _ Pawn); try apply (cons_all_range b Hc);
    try assumption.
  - apply (cons_kind_in_all b Hc _ Pawn); [discriminate | assumption].
  - apply (cons_kind_in_all b Hc _ Pawn); [discriminate | assumption].
Qed.

Lemma pawnCaptureStep_board nonpinned allowDest dir moveList t :
  dir = 0 \/ dir = 1 ->
  In t (squaresOf (Z.land (dirBoard b nonpinned dir) allowDest)) ->
  fst (pawnCaptureStep dir (b, moveList) t) = b.
Proof.
  intros Hd Hin.
  apply squaresOf_spec in Hin; [| apply land_range, dirBoard_range].
  destruct Hin as [Ht Hb]. rewrite Z.land_spec in Hb.
  apply andb_true_iff in Hb. destruct Hb as [Hb _].
  rewrite (dirBoard_bits b nonpinned dir t Hd Ht) in Hb.
  rewrite !andb_true_iff, Z.land_spec, andb_true_iff in Hb.
  destruct Hb as [[[Hp _] _] _].
  assert (Hf : 0 <= captureOrigin (Colortomove b) dir t < 64).
  { apply (testbit_true_range (Pawns (ourBitboards b))); [| exact Hp].
    apply (cons_kind_range b Hc _ Pawn). }
  destruct (captureMove_decode (Colortomove b) dir t Ht Hf)
    as (HF & HT & _).
  rewrite pawnCaptureStep_unfold. cbv zeta. cbn [fst].
  destruct ((wrap8 t =? enpassant b) && negb (enpassant b =? 0)) eqn:E;
    [| reflexivity].
  apply andb_true_iff in E. destruct E as [E1 E2].
  apply Z.eqb_eq in E1. apply negb_true_iff, Z.eqb_neq in E2.
  unfold wrap8 in E1. rewrite Z.mod_small in E1 by lia.
  apply epProbe_keeps_board; [rewrite HF; exact Hp | congruence | exact E2].
Qed.

Lemma pawnCaptures_board moveList nonpinned allowDest :
  fst (pawnCaptures b moveList nonpinned allowDest) = b.
Proof.
  rewrite pawnCaptures_unfold. cbv zeta.
  set (ad := if enpassant b >? 0 then _ else _).
  destruct (fold_left (pawnCaptureStep 0)
              (squaresOf (Z.land (dirBoard b nonpinned 0) ad)) (b, moveList))
    as [b1 ml1] eqn:E0.
  assert (H0 : b1 = b).
  { change b1 with (fst (b1, ml1)). rewrite <- E0.
    apply fold_left_keeps_board. intros y x Hx.
    apply (pawnCaptureStep_board nonpinned ad 0); [left; reflexivity | exact Hx]. }
  subst b1. apply fold_left_keeps_board. intros y x Hx.
  apply (pawnCaptureStep_board nonpinned ad 1); [right; reflexivity | exact Hx].
Qed.

Lemma kingPushes_keeps_board moveList allowDest :
  fst (kingPushes b moveList allowDest) = b.
Proof.
  apply kingPushes_board.
  - apply (cons_all_range b Hc).
  - apply (cons_kind_in_all b Hc _ King); [discriminate |].
    apply (cons_king_set b Hc).
Qed.

Lemma kingMoves_keeps_board moveList allowDest includeCastling :
  fst (kingMoves b moveList allowDest includeCastling) = b.
Proof. unfold kingMoves. cbv zeta. apply kingPushes_keeps_board. Qed.

(** C10, as amended. On every board that satisfies the position
    invariants [GenerateLegalMoves2] returns, and the board it leaves is
    the board it was given - bitboards, pieces, side to move,
    en-passant square, castle rights, clocks and hash - although the
    king is taken off the bitboards while the king moves are computed
    and the pawn bitboards are edited while an en-passant capture is
    tried; a second call therefore returns the same moves. *)
Theorem GenerateLegalMoves2_leaves_board (only : bool) :
  exists moves inCheck,
    GenerateLegalMoves2 b only = Some (b, moves, inCheck)
    /\ generated b only = Some (moves, inCheck).
Proof.
  assert (Hgen : exists moves inCheck,
             GenerateLegalMoves2 b only = Some (b, moves, inCheck)).
  { unfold GenerateLegalMoves2. cbv zeta.
    destruct (cons_king b Hc (Colortomove b)) as [Hk _].
    destruct (Z.geb_spec (TrailingZeros64 (Kings (bbsOf b (Colortomove b)))) 64);
      [lia |].
    destruct (countAttacks b (isWhite (Colortomove b)) _ 2) as [ka bd].
    destruct (ka >=? 2).
    - pose proof (kingPushes_keeps_board [] everything) as Hb.
      destruct (kingPushes b [] everything) as [b1 ms]. cbn [fst] in Hb.
      subst b1. eauto.
    - destruct (ka =? 1).
      + destruct (generatePinnedMoves b [] bd) as [ms0 pinned].
        match goal with
        | |- context [pawnCaptures b ?ml ?np ?ad] =>
            pose proof (pawnCaptures_board ml np ad) as Hb;
            destruct (pawnCaptures b ml np ad) as [b1 ms1]
        end.
        cbn [fst] in Hb. subst b1.
        match goal with
        | |- context [kingPushes b ?ml ?ad] =>
            pose proof (kingPushes_keeps_board ml ad) as Hb;
            destruct (kingPushes b ml ad) as [b1 ms2]
        end.
        cbn [fst] in Hb. subst b1. eauto.
      + match goal with
        | |- context [generatePinnedMoves b ?ml ?ad] =>
            destruct (generatePinnedMoves b ml ad) as [ms0 pinned]
        end.
        match goal with
        | |- context [pawnCaptures b ?ml ?np ?ad] =>
            pose proof (pawnCaptures_board ml np ad) as Hb;
            destruct (pawnCaptures b ml np ad) as [b1 ms1]
        end.
        cbn [fst] in Hb. subst b1.
        match goal with
        | |- context [kingMoves b ?ml ?ad ?ic] =>
            pose proof (kingMoves_keeps_board ml ad ic) as Hb;
            destruct (kingMoves b ml ad ic) as [b1 ms2]
        end.
        cbn [fst] in Hb. subst b1. eauto. }
  destruct Hgen as (moves & inCheck & H). exists moves, inCheck.
  split; [exact H |]. unfold generated. rewrite H. reflexivity.
Qed.

End Frame.

Section FrameSamples.
#[local] Existing Instance sampleKeys.

Lemma GenerateLegalMoves2_leaves_board_witness :
  consistent kiwipete
  /\ exists moves inCheck,
       GenerateLegalMoves2 kiwipete false = Some (kiwipete, moves, inCheck)
       /\ generated kiwipete false = Some (moves, inCheck).
Proof.
  split; [vm_compute; reflexivity |].
  apply (GenerateLegalMoves2_leaves_board kiwipete).
  vm_compute. reflexivity.
Defined.

(** C10, the claim as stated fails: on the board of the FEN
    8/8/8/4P3/8/8/8/K6k w - d6 0 1, whose en-passant square has no pawn
    behind it, the reversal of the provisional capture sets the bit of
    d5 in the black pawn and [All] bitboards, which were empty there. *)
Lemma GenerateLegalMoves2_changes_stray_ep_board :
  Pawns (bbsOf strayEpSquare Black) = 0
  /\ Z.testbit (All (bbsOf strayEpSquare Black)) 35 = false
  /\ match GenerateLegalMoves2 strayEpSquare false with
     | Some (b', _, _) =>
         Pawns (bbsOf b' Black) = bit 35
         /\ Z.testbit (All (bbsOf b' Black)) 35 = true
         /\ b' <> strayEpSquare
     | None => False
     end.
Proof.
  split; [reflexivity |]. split; [reflexivity |].
  vm_compute. split; [reflexivity |]. split; [reflexivity |]. discriminate.
Qed.

End FrameSamples.

(** ** Counting attackers *)

Lemma OnesCount64_nonneg x : 0 <= OnesCount64 x.
Proof.
  destruct x as [| p | p]; cbn [OnesCount64]; try lia.
  pose proof (pos_popcount_pos p). lia.
Qed.

Lemma OnesCount64_zero x : 0 <= x -> OnesCount64 x = 0 -> x = 0.
Proof.
  destruct x as [| p | p]; cbn [OnesCount64]; intros H0 H; try lia.
  pose proof (pos_popcount_pos p). lia.
Qed.

Lemma pos_popcount_lor p : forall q,
  pos_popcount (Pos.lor p q) <= pos_popcount p + pos_popcount q.
Proof.
  induction p as [p IH | p IH |]; intros [q | q |];
    cbn [Pos.lor pos_popcount]; try specialize (IH q);
    try pose proof (pos_popcount_pos p); try pose proof (pos_popcount_pos q);
    lia.
Qed.

Lemma OnesCount64_lor x y :
  0 <= x -> 0 <= y ->
  OnesCount64 (Z.lor x y) <= OnesCount64 x + OnesCount64 y.
Proof.
  intros Hx Hy. destruct x as [| p | p], y as [| q | q]; try lia;
    cbn [Z.lor OnesCount64]; try lia.
  apply pos_popcount_lor.
Qed.

Lemma pawn_masks_checked :
  forallb (fun o =>
             (pawnAttackersMask true o =? pawnAttackerSquares true o)
             && (pawnAttackersMask false o =? pawnAttackerSquares false o))
          allSquares = true.
Proof. vm_compute. reflexivity. Qed.

Lemma pawnAttackersMask_squares byBlack o :
  0 <= o < 64 -> pawnAttackersMask byBlack o = pawnAttackerSquares byBlack o.
Proof.
  intros Ho. pose proof (forall_squares _ pawn_masks_checked o Ho) as H.
  cbv beta in H. apply andb_true_iff in H. destruct H as [H1 H2].
  apply Z.eqb_eq in H1, H2. destruct byBlack; assumption.
Qed.

(** The five groups of attackers. *)
Lemma attackersOf_groups (b : Board) (byBlack : bool) (o : Z) :
  0 <= o < 64 ->
  let oppPieces := if byBlack then bbsOf b Black else bbsOf b White in
  let allPieces := Z.lor (All (bbsOf b White)) (All (bbsOf b Black)) in
  let g1 := Z.land (knightMasks o) (Knights oppPieces) in
  let g2 := Z.land (CalculateBishopMoveBitboard o allPieces)
                   (Z.lor (Bishops oppPieces) (Queens oppPieces)) in
  let g3 := Z.land (CalculateRookMoveBitboard o allPieces)
                   (Z.lor (Rooks oppPieces) (Queens oppPieces)) in
  let g4 := Z.land (kingMasks o) (Kings oppPieces) in
  let g5 := Z.land (pawnAttackersMask byBlack o) (Pawns oppPieces) in
  attackersOf b byBlack o = Z.lor g1 (Z.lor g2 (Z.lor g3 (Z.lor g4 g5)))
  /\ 0 <= g1 /\ 0 <= g2 /\ 0 <= g3 /\ 0 <= g4 /\ 0 <= g5.
Proof.
  intros Ho. cbv zeta. split.
  - unfold attackersOf. cbv zeta.
    rewrite (pawnAttackersMask_squares byBlack o Ho). reflexivity.
  - repeat split; apply Z.land_nonneg; left.
    + apply bbOf_range.
    + apply bbOf_range.
    + apply bbOf_range.
    + apply bbOf_range.
    + rewrite (pawnAttackersMask_squares byBlack o Ho). apply bbOf_range.
Qed.

Lemma countAttacks_cases (b : Board) (byBlack : bool) (o n : Z) :
  let oppPieces := if byBlack then bbsOf b Black else bbsOf b White in
  let allPieces := Z.lor (All (bbsOf b White)) (All (bbsOf b Black)) in
  let c1 := OnesCount64 (Z.land (knightMasks o) (Knights oppPieces)) in
  let c2 := OnesCount64
              (Z.land (CalculateBishopMoveBitboard o allPieces)
                      (Z.lor (Bishops oppPieces) (Queens oppPieces))) in
  let c3 := OnesCount64
              (Z.land (CalculateRookMoveBitboard o allPieces)
                      (Z.lor (Rooks oppPieces) (Queens oppPieces))) in
  let c4 := OnesCount64 (Z.land (kingMasks o) (Kings oppPieces)) in
  let c5 := OnesCount64 (Z.land (pawnAttackersMask byBlack o)
                                (Pawns oppPieces)) in
  fst (countAttacks b byBlack o n)
  = if c1 >=? n then c1
    else if c1 + c2 >=? n then c1 + c2
    else if c1 + c2 + c3 >=? n then c1 + c2 + c3
    else if c1 + c2 + c3 + c4 >=? n then c1 + c2 + c3 + c4
    else c1 + c2 + c3 + c4 + c5.
Proof.
  cbv zeta. unfold countAttacks. cbv zeta.
  unfold CalculateBishopMoveBitboard, CalculateRookMoveBitboard. cbv zeta.
  rewrite !Z.add_0_l.
  repeat match goal with
         | |- context [if ?c >=? n then _ else _] =>
             destruct (c >=? n); cbn [fst]; try reflexivity
         end.
Qed.

Lemma countAttacks_reaches b byBlack o n :
  0 <= o < 64 ->
  n <= OnesCount64 (attackersOf b byBlack o) ->
  n <= fst (countAttacks b byBlack o n).
Proof.
  intros Ho Hn.
  destruct (attackersOf_groups b byBlack o Ho) as (Ha & H1 & H2 & H3 & H4 & H5).
  cbv zeta in *. rewrite Ha in Hn. rewrite countAttacks_cases. cbv zeta.
  repeat match goal with
         | |- context [if ?c >=? n then _ else _] =>
             destruct (Z.geb_spec c n); [lia |]
         end.
  match type of Hn with
  | _ <= OnesCount64 (Z.lor ?a (Z.lor ?b (Z.lor ?c (Z.lor ?d ?e)))) =>
      pose proof (OnesCount64_lor a (Z.lor b (Z.lor c (Z.lor d e))));
      pose proof (OnesCount64_lor b (Z.lor c (Z.lor d e)));
      pose proof (OnesCount64_lor c (Z.lor d e));
      pose proof (OnesCount64_lor d e);
      assert (0 <= Z.lor d e) by (apply Z.lor_nonneg; auto);
      assert (0 <= Z.lor c (Z.lor d e)) by (apply Z.lor_nonneg; auto);
      assert (0 <= Z.lor b (Z.lor c (Z.lor d e)))
        by (apply Z.lor_nonneg; auto)
  end.
  lia.
Qed.

Lemma UnderDirectAttack_unfold b byBlack o :
  UnderDirectAttack b byBlack o = (fst (countAttacks b byBlack o 1) >=? 1).
Proof. reflexivity. Qed.

Lemma not_attacked_no_attackers b byBlack o :
  0 <= o < 64 ->
  UnderDirectAttack b byBlack o = false -> attackersOf b byBlack o = 0.
Proof.
  intros Ho Hu.
  assert (Hlt : fst (countAttacks b byBlack o 1) < 1).
  { rewrite UnderDirectAttack_unfold in Hu. revert Hu.
    generalize (fst (countAttacks b byBlack o 1)). intros x Hu.
    destruct (Z.geb_spec x 1); [discriminate | assumption]. }
  clear Hu.
  destruct (attackersOf_groups b byBlack o Ho) as (Ha & H1 & H2 & H3 & H4 & H5).
  pose proof (countAttacks_cases b byBlack o 1) as Hcases.
  cbv zeta in Ha, H1, H2, H3, H4, H5, Hcases.
  rewrite Ha. rewrite Hcases in Hlt. clear Hcases Ha.
  repeat match type of Hlt with
         | context [if ?c >=? 1 then _ else _] =>
             destruct (Z.geb_spec c 1); [lia |]
         end.
  match goal with
  | |- Z.lor ?a (Z.lor ?b (Z.lor ?c (Z.lor ?d ?e))) = 0 =>
      pose proof (OnesCount64_nonneg a); pose proof (OnesCount64_nonneg b);
      pose proof (OnesCount64_nonneg c); pose proof (OnesCount64_nonneg d);
      pose proof (OnesCount64_nonneg e);
      assert (Ea : a = 0) by (apply OnesCount64_zero; [assumption | lia]);
      assert (Eb : b = 0) by (apply OnesCount64_zero; [assumption | lia]);
      assert (Ec : c = 0) by (apply OnesCount64_zero; [assumption | lia]);
      assert (Ed : d = 0) by (apply OnesCount64_zero; [assumption | lia]);
      assert (Ee : e = 0) by (apply OnesCount64_zero; [assumption | lia]);
      rewrite Ea, Eb, Ec, Ed, Ee
  end.
  reflexivity.
Qed.

(** ** Double check *)

Lemma kingPushes_moves b moveList allowDest :
  snd (kingPushes b moveList allowDest)
  = let k := TrailingZeros64 (Kings (ourBitboards b)) in
    moveList
    ++ map (fun target => mkMove (Square k) (Square target))
           (kingPushTargets (withoutOurKing b)
              (Z.land (Z.land (kingMasks k) (not64 (All (ourBitboards b))))
                      allowDest)).
Proof. reflexivity. Qed.

Lemma kingPushTargets_unfold (b : Board) (targets : Z) :
  kingPushTargets b targets
  = filter (fun target =>
              negb (UnderDirectAttack b (isWhite (Colortomove b)) target))
           (squaresOf targets).
Proof. reflexivity. Qed.

Lemma kingPushTargets_sound b1 km A allowDest t :
  0 <= km < 2 ^ 64 ->
  In t (kingPushTargets b1 (Z.land (Z.land km (not64 A)) allowDest)) ->
  0 <= t < 64 /\ Z.testbit km t = true /\ Z.testbit A t = false
  /\ Z.testbit allowDest t = true
  /\ UnderDirectAttack b1 (isWhite (Colortomove b1)) t = false.
Proof.
  intros Hkm Ht. rewrite kingPushTargets_unfold in Ht. apply filter_In in Ht.
  destruct Ht as [Ht Hu].
  apply squaresOf_spec in Ht; [| apply land_range, land_range, Hkm].
  destruct Ht as [Htr Hb]. rewrite !Z.land_spec, testbit_not64 in Hb.
  rewrite !andb_true_iff in Hb. destruct Hb as [[Hm [_ Hf]] Ha].
  apply negb_true_iff in Hf. apply negb_true_iff in Hu. auto.
Qed.

Lemma withoutOurKing_color b : Colortomove (withoutOurKing b) = Colortomove b.
Proof. reflexivity. Qed.

Lemma kingPushes_sound b moveList allowDest m :
  let k := TrailingZeros64 (Kings (ourBitboards b)) in
  0 <= k < 64 ->
  In m (snd (kingPushes b moveList allowDest)) ->
  In m moveList
  \/ (From m = k /\ IsSimple m = false
      /\ Z.testbit (kingMasks k) (To m) = true
      /\ Z.testbit (All (ourBitboards b)) (To m) = false
      /\ Z.testbit allowDest (To m) = true
      /\ UnderDirectAttack (withoutOurKing b) (isWhite (Colortomove b))
                           (To m) = false).
Proof.
  intros k Hk Hin. rewrite kingPushes_moves in Hin. cbv zeta in Hin.
  fold k in Hin.
  apply in_app_or in Hin. destruct Hin as [Hin | Hin]; [left; exact Hin | right].
  apply in_map_iff in Hin. destruct Hin as (t & <- & Ht).
  apply kingPushTargets_sound in Ht; [| apply bbOf_range].
  destruct Ht as (Htr & Hm & Hf & Ha & Hu).
  rewrite withoutOurKing_color in Hu.
  rewrite !Square_small by assumption.
  destruct (encodings_decode k t (mkMove k t) Hk Htr) as (H1 & H2 & H3);
    [left; reflexivity |].
  rewrite H1, H2. repeat split; assumption.
Qed.

(** C4. When at least two pieces of the other side attack the king of
    the side to move, [GenerateLegalMoves2] reports check and returns
    only moves that leave the king's square for an adjacent square (no
    castle move) which holds no piece of the same side and which no
    piece of the other side attacks once the king is off the board. *)
Theorem double_check_only_king_moves (b : Board) (only : bool) :
  let c := Colortomove b in
  let k := TrailingZeros64 (Kings (ourBitboards b)) in
  0 <= Kings (ourBitboards b) < 2 ^ 64 ->
  Kings (ourBitboards b) <> 0 ->
  2 <= OnesCount64 (attackersOf b (isWhite c) k) ->
  exists b' moves,
    GenerateLegalMoves2 b only = Some (b', moves, true)
    /\ forall m, In m moves ->
         From m = k
         /\ Z.testbit (kingMasks k) (To m) = true
         /\ Z.testbit (All (ourBitboards b)) (To m) = false
         /\ attackersOf (withoutOurKing b) (isWhite c) (To m) = 0.
Proof.
  intros c k Hr Hne Hatt. subst c k.
  pose proof (tz_range _ Hr Hne) as Hk.
  pose proof (countAttacks_reaches b _ _ 2 Hk Hatt) as Hcnt.
  pose proof (fun m => kingPushes_sound b [] everything m Hk) as Hs.
  unfold ourBitboards in *.
  unfold GenerateLegalMoves2. cbv zeta.
  destruct (Z.geb_spec (TrailingZeros64 (Kings (bbsOf b (Colortomove b)))) 64);
    [lia |].
  destruct (countAttacks b (isWhite (Colortomove b))
              (TrailingZeros64 (Kings (bbsOf b (Colortomove b)))) 2)
    as [ka bd].
  cbn [fst] in Hcnt.
  destruct (Z.geb_spec ka 2); [| lia].
  destruct (kingPushes b [] everything) as [b1 ms]. cbn [snd] in Hs.
  exists b1, ms. split; [reflexivity |].
  intros m Hm. destruct (Hs m Hm) as [[] | (H1 & _ & H3 & H4 & _ & H6)].
  repeat split; try assumption.
  apply not_attacked_no_attackers; [apply To_range | exact H6].
Qed.

Section CheckSamples.
#[local] Existing Instance sampleKeys.

Lemma double_check_only_king_moves_witness :
  (0 <= Kings (ourBitboards doubleCheck) < 2 ^ 64
   /\ Kings (ourBitboards doubleCheck) <> 0
   /\ 2 <= OnesCount64 (attackersOf doubleCheck true 4))
  /\ exists b' moves,
       GenerateLegalMoves2 doubleCheck false = Some (b', moves, true)
       /\ forall m, In m moves ->
            From m = 4
            /\ Z.testbit (kingMasks 4) (To m) = true
            /\ Z.testbit (All (ourBitboards doubleCheck)) (To m) = false
            /\ attackersOf (withoutOurKing doubleCheck) true (To m) = 0.
Proof.
  split.
  - split; [vm_compute; split; [discriminate | reflexivity] |].
    split; [vm_compute; discriminate | vm_compute; discriminate].
  - apply (double_check_only_king_moves doubleCheck false).
    + vm_compute. split; [discriminate | reflexivity].
    + vm_compute. discriminate.
    + vm_compute. discriminate.
Defined.

End CheckSamples.

(** ** The move word *)

Lemma small_bits n s i :
  0 <= n -> 0 <= s < 2 ^ n -> n <= i -> Z.testbit s i = false.
Proof.
  intros Hn Hs Hi. rewrite <- (Z.mod_small s (2 ^ n)) by assumption.
  rewrite Z.testbit_mod_pow2 by assumption.
  destruct (Z.ltb_spec i n); [lia | reflexivity].
Qed.

Lemma testbit_wrap8 x i : Z.testbit (wrap8 x) i = (i <? 8) && Z.testbit x i.
Proof.
  unfold wrap8. change 256 with (2 ^ 8). apply Z.testbit_mod_pow2. lia.
Qed.

Lemma testbit_wrap16 x i : Z.testbit (wrap16 x) i = (i <? 16) && Z.testbit x i.
Proof.
  unfold wrap16. change 65536 with (2 ^ 16). apply Z.testbit_mod_pow2. lia.
Qed.

Lemma testbit_not16 x i :
  0 <= i -> Z.testbit (not16 x) i = (i <? 16) && negb (Z.testbit x i).
Proof.
  intros Hi. unfold not16. rewrite testbit_wrap16, Z.lnot_spec by assumption.
  reflexivity.
Qed.

Lemma testbit_field w k i :
  0 <= w -> 0 <= k -> 0 <= i ->
  Z.testbit (Z.shiftl (Z.ones w) k) i = (k <=? i) && (i <? k + w).
Proof.
  intros Hw Hk Hi. rewrite Z.shiftl_spec by assumption.
  destruct (Z.leb_spec k i).
  - rewrite Z.testbit_ones_nonneg by lia.
    destruct (Z.ltb_spec (i - k) w), (Z.ltb_spec i (k + w)); try lia; reflexivity.
  - rewrite Z.testbit_neg_r by lia. reflexivity.
Qed.

Lemma To_bits m i :
  0 <= i -> Z.testbit (To m) i = (i <? 6) && Z.testbit m i.
Proof.
  intros Hi. unfold To. rewrite testbit_wrap8, Z.land_spec.
  change 63 with (Z.shiftl (Z.ones 6) 0). rewrite testbit_field by lia.
  zcases; btauto.
Qed.

Lemma From_bits m i :
  0 <= i -> Z.testbit (From m) i = (i <? 6) && Z.testbit m (i + 6).
Proof.
  intros Hi. unfold From.
  rewrite testbit_wrap8, Z.shiftr_spec, Z.land_spec by assumption.
  change 4032 with (Z.shiftl (Z.ones 6) 6). rewrite testbit_field by lia.
  zcases; btauto.
Qed.

Lemma Promote_bits m i :
  0 <= i -> Z.testbit (Promote m) i = (i <? 3) && Z.testbit m (i + 12).
Proof.
  intros Hi. unfold Promote.
  rewrite testbit_wrap8, Z.shiftr_spec, Z.land_spec by assumption.
  change 28672 with (Z.shiftl (Z.ones 3) 12). rewrite testbit_field by lia.
  zcases; btauto.
Qed.

Lemma IsSimple_bit m : IsSimple m = Z.testbit m 15.
Proof.
  unfold IsSimple.
  assert (E : Z.land m 32768 = if Z.testbit m 15 then 32768 else 0).
  { apply Z.bits_inj'. intros i Hi. rewrite Z.land_spec.
    change 32768 with (Z.shiftl (Z.ones 1) 15) at 1.
    rewrite testbit_field by lia.
    destruct (Z.eq_dec i 15) as [-> | Hne].
    - destruct (Z.testbit m 15); reflexivity.
    - replace ((15 <=? i) && (i <? 15 + 1)) with false by (zcases; reflexivity).
      rewrite andb_false_r. destruct (Z.testbit m 15).
      + change 32768 with (Z.shiftl (Z.ones 1) 15).
        rewrite testbit_field by lia. zcases; reflexivity.
      + rewrite Z.bits_0. reflexivity. }
  rewrite E. destruct (Z.testbit m 15); reflexivity.
Qed.

Lemma Setto_bits m s i :
  0 <= i ->
  Z.testbit (Setto m s) i
  = ((i <? 16) && negb (i <? 6) && Z.testbit m i) || Z.testbit s i.
Proof.
  intros Hi. unfold Setto.
  rewrite Z.lor_spec, Z.land_spec, testbit_not16 by assumption.
  change 63 with (Z.shiftl (Z.ones 6) 0). rewrite testbit_field by lia.
  zcases; btauto.
Qed.

Lemma Setfrom_bits m s i :
  0 <= i ->
  Z.testbit (Setfrom m s) i
  = ((i <? 16) && negb ((6 <=? i) && (i <? 12)) && Z.testbit m i)
    || ((i <? 16) && Z.testbit s (i - 6)).
Proof.
  intros Hi. unfold Setfrom.
  rewrite Z.lor_spec, Z.land_spec, testbit_not16, testbit_wrap16 by assumption.
  rewrite Z.shiftl_spec by assumption.
  change 4032 with (Z.shiftl (Z.ones 6) 6). rewrite testbit_field by lia.
  zcases; btauto.
Qed.

Lemma Setpromote_bits m p i :
  0 <= i ->
  Z.testbit (Setpromote m p) i
  = ((i <? 16) && negb ((12 <=? i) && (i <? 15)) && Z.testbit m i)
    || ((i <? 16) && Z.testbit p (i - 12)).
Proof.
  intros Hi. unfold Setpromote.
  rewrite Z.lor_spec, Z.land_spec, testbit_not16, testbit_wrap16 by assumption.
  rewrite Z.shiftl_spec by assumption.
  change 28672 with (Z.shiftl (Z.ones 3) 12). rewrite testbit_field by lia.
  zcases; btauto.
Qed.

Lemma Setsimple_bits m i :
  0 <= i -> Z.testbit (Setsimple m) i = Z.testbit m i || (i =? 15).
Proof.
  intros Hi. unfold Setsimple. rewrite Z.lor_spec.
  change 32768 with (Z.shiftl (Z.ones 1) 15). rewrite testbit_field by lia.
  zcases; btauto.
Qed.

Ltac field_bits :=
  apply Z.bits_inj'; intros i Hi;
  rewrite ?To_bits, ?From_bits, ?Promote_bits by assumption;
  rewrite ?Setto_bits, ?Setfrom_bits, ?Setpromote_bits, ?Setsimple_bits by lia.

(** X1. A field written with its setter reads back as written: [To]
    after [Setto] and [From] after [Setfrom] for a square below 64,
    [Promote] after [Setpromote] for a piece code below 8, [IsSimple]
    after [Setsimple]; whatever the move word held before. *)
Theorem move_setters_read_back (m : Move) (s p : Z) :
  0 <= s < 64 -> 0 <= p < 8 ->
  To (Setto m s) = s
  /\ From (Setfrom m s) = s
  /\ Promote (Setpromote m p) = p
  /\ IsSimple (Setsimple m) = true.
Proof.
  intros Hs Hp. change 64 with (2 ^ 6) in Hs. change 8 with (2 ^ 3) in Hp.
  repeat split.
  - field_bits. destruct (Z.ltb_spec i 6).
    + zcases; btauto.
    + rewrite (small_bits 6 s i) by lia. reflexivity.
  - field_bits. replace (i + 6 - 6) with i by lia. destruct (Z.ltb_spec i 6).
    + zcases; btauto.
    + rewrite (small_bits 6 s i) by lia. reflexivity.
  - field_bits. replace (i + 12 - 12) with i by lia. destruct (Z.ltb_spec i 3).
    + zcases; btauto.
    + rewrite (small_bits 3 p i) by lia. reflexivity.
  - rewrite IsSimple_bit, Setsimple_bits by lia. apply orb_true_r.
Qed.

Lemma move_setters_read_back_witness :
  To (Setto 4660 9) = 9
  /\ From (Setfrom 4660 9) = 9
  /\ Promote (Setpromote 4660 5) = 5
  /\ IsSimple (Setsimple 4660) = true.
Proof. apply (move_setters_read_back 4660 9 5); lia. Defined.

(** X2. A setter leaves the other fields of the move word alone: for a
    square below 64 and a piece code below 8, [Setto] keeps [From],
    [Promote] and [IsSimple]; [Setfrom] keeps [To], [Promote] and
    [IsSimple]; [Setpromote] keeps [To], [From] and [IsSimple];
    [Setsimple] keeps [To], [From] and [Promote]. *)
Theorem move_setters_keep_other_fields (m : Move) (s p : Z) :
  0 <= s < 64 -> 0 <= p < 8 ->
  (From (Setto m s) = From m /\ Promote (Setto m s) = Promote m
   /\ IsSimple (Setto m s) = IsSimple m)
  /\ (To (Setfrom m s) = To m /\ Promote (Setfrom m s) = Promote m
      /\ IsSimple (Setfrom m s) = IsSimple m)
  /\ (To (Setpromote m p) = To m /\ From (Setpromote m p) = From m
      /\ IsSimple (Setpromote m p) = IsSimple m)
  /\ (To (Setsimple m) = To m /\ From (Setsimple m) = From m
      /\ Promote (Setsimple m) = Promote m).
Proof.
  intros Hs Hp. change 64 with (2 ^ 6) in Hs. change 8 with (2 ^ 3) in Hp.
  repeat split.
  - field_bits. rewrite (small_bits 6 s (i + 6)) by lia. zcases; btauto.
  - field_bits. rewrite (small_bits 6 s (i + 12)) by lia. zcases; btauto.
  - rewrite !IsSimple_bit, Setto_bits by lia.
    rewrite (small_bits 6 s 15) by lia. cbn. btauto.
  - field_bits. destruct (Z.ltb_spec i 6).
    + rewrite (Z.testbit_neg_r s (i - 6)) by lia. zcases; btauto.
    + reflexivity.
  - field_bits. destruct (Z.ltb_spec i 3).
    + rewrite (small_bits 6 s (i + 12 - 6)) by lia. zcases; btauto.
    + reflexivity.
  - rewrite !IsSimple_bit, Setfrom_bits by lia.
    rewrite (small_bits 6 s (15 - 6)) by lia. cbn. btauto.
  - field_bits. destruct (Z.ltb_spec i 6).
    + rewrite (Z.testbit_neg_r p (i - 12)) by lia. zcases; btauto.
    + reflexivity.
  - field_bits. destruct (Z.ltb_spec i 6).
    + rewrite (Z.testbit_neg_r p (i + 6 - 12)) by lia. zcases; btauto.
    + reflexivity.
  - rewrite !IsSimple_bit, Setpromote_bits by lia.
    rewrite (small_bits 3 p (15 - 12)) by lia. cbn. btauto.
  - field_bits. zcases; btauto.
  - field_bits. zcases; btauto.
  - field_bits. zcases; btauto.
Qed.

Lemma move_setters_keep_other_fields_witness :
  (From (Setto 4660 9) = From 4660 /\ Promote (Setto 4660 9) = Promote 4660
   /\ IsSimple (Setto 4660 9) = IsSimple 4660)
  /\ (To (Setfrom 4660 9) = To 4660 /\ Promote (Setfrom 4660 9) = Promote 4660
      /\ IsSimple (Setfrom 4660 9) = IsSimple 4660)
  /\ (To (Setpromote 4660 5) = To 4660 /\ From (Setpromote 4660 5) = From 4660
      /\ IsSimple (Setpromote 4660 5) = IsSimple 4660)
  /\ (To (Setsimple 4660) = To 4660 /\ From (Setsimple 4660) = From 4660
      /\ Promote (Setsimple 4660) = Promote 4660).
Proof. apply (move_setters_keep_other_fields 4660 9 5); lia. Defined.

(** ** Printing and parsing squares and moves *)

Lemma algebraic_round_trip_checked :
  forallb (fun s =>
     match IndexToAlgebraic s with
     | Some a =>
         (fst (AlgebraicToIndex a) =? s)
         && match snd (AlgebraicToIndex a) with None => true | Some _ => false end
         && Nat.eqb (String.length a) 2
     | None => false
     end) allSquares = true.
Proof. vm_compute. reflexivity. Qed.

Lemma IndexToAlgebraic_square s :
  0 <= s < 64 ->
  exists a, IndexToAlgebraic s = Some a
            /\ String.length a = 2%nat
            /\ AlgebraicToIndex a = (s, None).
Proof.
  intros Hs. pose proof (forall_squares _ algebraic_round_trip_checked s Hs) as H.
  cbv beta in H. destruct (IndexToAlgebraic s) as [a |]; [| discriminate].
  exists a. split; [reflexivity |].
  apply andb_true_iff in H. destruct H as [H Hl].
  apply andb_true_iff in H. destruct H as [Hf He].
  apply Nat.eqb_eq in Hl. apply Z.eqb_eq in Hf.
  split; [exact Hl |].
  destruct (AlgebraicToIndex a) as [x e]. cbn [fst snd] in Hf, He.
  destruct e; [discriminate |]. subst x. reflexivity.
Qed.

(** X3. For every square index from 0 to 63, [IndexToAlgebraic] returns
    a two-character name, and [AlgebraicToIndex] maps that name back to
    the index without an error. *)
Theorem IndexToAlgebraic_then_AlgebraicToIndex (s : Z) :
  0 <= s < 64 ->
  exists a, IndexToAlgebraic s = Some a
            /\ String.length a = 2%nat
            /\ AlgebraicToIndex a = (s, None).
Proof. apply IndexToAlgebraic_square. Qed.

Lemma IndexToAlgebraic_then_AlgebraicToIndex_witness :
  exists a, IndexToAlgebraic 28 = Some a
            /\ String.length a = 2%nat
            /\ AlgebraicToIndex a = (28, None).
Proof. apply (IndexToAlgebraic_then_AlgebraicToIndex 28). lia. Defined.

Lemma moveWord_fields m :
  0 <= m < 2 ^ 16 -> IsSimple m = false ->
  m = moveWord (From m) (To m) (Promote m).
Proof.
  intros Hm Hs. rewrite IsSimple_bit in Hs.
  apply Z.bits_inj'. intros i Hi. unfold moveWord.
  rewrite Setpromote_bits, Setfrom_bits, Setto_bits, Z.bits_0 by lia.
  destruct (Z.lt_ge_cases i 6) as [H6 | H6].
  { rewrite To_bits by lia.
    rewrite (Z.testbit_neg_r (From m)), (Z.testbit_neg_r (Promote m)) by lia.
    zcases; btauto. }
  destruct (Z.lt_ge_cases i 12) as [H12 | H12].
  { rewrite To_bits, From_bits by lia. replace (i - 6 + 6) with i by lia.
    rewrite (Z.testbit_neg_r (Promote m)) by lia.
    zcases; btauto. }
  destruct (Z.lt_ge_cases i 15) as [H15 | H15].
  { rewrite To_bits, From_bits, Promote_bits by lia.
    replace (i - 12 + 12) with i by lia.
    zcases; btauto. }
  rewrite To_bits, From_bits, Promote_bits by lia.
  destruct (Z.eq_dec i 15) as [-> | Hne].
  - rewrite Hs. cbn. reflexivity.
  - rewrite (small_bits 16 m i) by lia. zcases; btauto.
Qed.

Lemma string_round_trip_checked :
  forallb (fun f =>
     forallb (fun t =>
        forallb (fun p =>
           match Move_String (moveWord f t p) with
           | Some s =>
               (fst (ParseMove s) =? moveWord f t p)
               && match snd (ParseMove s) with
                  | None => true
                  | Some _ => false
                  end
           | None => false
           end)
          [pieceCode Nothing; pieceCode Knight; pieceCode Bishop;
           pieceCode Rook; pieceCode Queen])
       allSquares)
    allSquares = true.
Proof. vm_compute. reflexivity. Qed.

(** X4. A move word without the simple hint whose promotion field is 0
    or the code of a knight, bishop, rook or queen prints ([Move.String])
    to a string that [ParseMove] reads back as the same move word,
    without an error. *)
Theorem Move_String_then_ParseMove (m : Move) :
  0 <= m < 2 ^ 16 -> IsSimple m = false ->
  In (Promote m) [pieceCode Nothing; pieceCode Knight; pieceCode Bishop;
                  pieceCode Rook; pieceCode Queen] ->
  exists s, Move_String m = Some s /\ ParseMove s = (m, None).
Proof.
  intros Hm Hs Hp.
  pose proof (forall_squares2 _ string_round_trip_checked
                (From m) (To m) (From_range m) (To_range m)) as H.
  rewrite forallb_forall in H. specialize (H (Promote m) Hp). cbv beta in H.
  rewrite <- (moveWord_fields m Hm Hs) in H.
  destruct (Move_String m) as [s |]; [| discriminate].
  exists s. split; [reflexivity |].
  apply andb_true_iff in H. destruct H as [Hf He]. apply Z.eqb_eq in Hf.
  destruct (ParseMove s) as [x e]. cbn [fst snd] in Hf, He.
  destruct e; [discriminate |]. subst x. reflexivity.
Qed.

Lemma Move_String_then_ParseMove_witness :
  exists s, Move_String 21300 = Some s /\ ParseMove s = (21300, None).
Proof.
  apply (Move_String_then_ParseMove 21300).
  - lia.
  - reflexivity.
  - vm_compute. auto 6.
Defined.

Lemma length_append (s1 s2 : string) :
  String.length (s1 ++ s2) = (String.length s1 + String.length s2)%nat.
Proof.
  induction s1 as [| c s1 IH]; cbn; [reflexivity | rewrite IH; reflexivity].
Qed.

(** X5. [Move.String] never reaches the fatal branch of
    [IndexToAlgebraic]: every move word prints, to four or five
    characters. *)
Theorem Move_String_total (m : Move) :
  exists s, Move_String m = Some s
            /\ (String.length s = 4%nat \/ String.length s = 5%nat).
Proof.
  unfold Move_String. destruct (m =? 0).
  - eexists. split; [reflexivity | left; reflexivity].
  - rewrite !Square_small by (apply From_range || apply To_range).
    destruct (IndexToAlgebraic_square _ (From_range m)) as (f & -> & Lf & _).
    destruct (IndexToAlgebraic_square _ (To_range m)) as (t & -> & Lt & _).
    cbv zeta.
    assert (L : String.length (f ++ t) = 4%nat)
      by (rewrite length_append, Lf, Lt; reflexivity).
    eexists. split; [reflexivity |].
    repeat match goal with
           | |- context [if ?c then _ else _] => destruct c
           end;
      try (right; rewrite length_append, L; reflexivity).
    left. exact L.
Qed.

(** ** Castle rights, the null move and the hash *)

Ltac xor_bits :=
  apply Z.bits_inj'; intros ? ?; rewrite ?Z.lxor_spec, ?Z.bits_0; btauto.

Lemma lxor_twice x k : Z.lxor (Z.lxor x k) k = x.
Proof. xor_bits. Qed.

Lemma fold_left_pointwise {A B} (f g : A -> B -> A) (l : list B) :
  (forall a x, f a x = g a x) ->
  forall a, fold_left f l a = fold_left g l a.
Proof.
  intros H. induction l as [| x l IH]; intros a; cbn; [reflexivity |].
  rewrite H. apply IH.
Qed.

Lemma fold_lxor_start (k : Z -> Z) (l : list Z) : forall h,
  fold_left (fun hash i => Z.lxor hash (k i)) l h
  = Z.lxor h (fold_left (fun hash i => Z.lxor hash (k i)) l 0).
Proof.
  induction l as [| x l IH]; intros h; cbn [fold_left].
  - rewrite Z.lxor_0_r. reflexivity.
  - rewrite IH, (IH (Z.lxor 0 (k x))). xor_bits.
Qed.

Section Hash.
Context {zk : ZobristKeys}.

Lemma recompute_split b :
  recomputeBoardHash b = Z.lxor (headHash b) (piecesHash b).
Proof.
  unfold recomputeBoardHash, piecesHash. cbv zeta. fold (headHash b).
  rewrite <- fold_lxor_start. apply fold_left_pointwise.
  intros a x. unfold squareKey.
  destruct (isWhitePieceAt b x); [reflexivity |].
  destruct (isBlackPieceAt b x); [reflexivity |].
  rewrite Z.lxor_0_r. reflexivity.
Qed.

Lemma piecesHash_same b' b :
  Bbs b' = Bbs b -> pieces b' = pieces b -> piecesHash b' = piecesHash b.
Proof.
  intros HB HP. unfold piecesHash. apply fold_left_pointwise. intros a x.
  unfold squareKey, isWhitePieceAt, isBlackPieceAt, bbsOf, PieceAt.
  rewrite HB, HP. reflexivity.
Qed.


Lemma canCastle_flip b c s c' s' :
  canCastle (flipCastleRights b c s) c' s'
  = xorb (canCastle b c' s')
         (ColorT_eqb c c' && (sideCode s =? sideCode s')).
Proof.
  rewrite !canCastle_testbit.
  unfold flipCastleRights. cbn [castlerights setHash setCastlerights].
  assert (Hflag : toFlag s = 2 ^ sideCode s)
    by (unfold toFlag; rewrite Z.shiftl_1_l; reflexivity).
  destruct c, c'; cbn [pcGet pcSet atWhite atBlack ColorT_eqb andb];
    rewrite ?xorb_false_r; try reflexivity;
    rewrite Hflag, Z.lxor_spec, Z.pow2_bits_eqb by (destruct s; cbn; lia);
    reflexivity.
Qed.

Lemma headHash_flip b c s :
  headHash (flipCastleRights b c s)
  = Z.lxor (headHash b) (castleRightsZobristC c s).
Proof.
  unfold headHash. cbv zeta. rewrite !canCastle_flip.
  change (Colortomove (flipCastleRights b c s)) with (Colortomove b).
  change (enpassant (flipCastleRights b c s)) with (enpassant b).
  destruct c, s; cbn [ColorT_eqb sideCode andb];
    change (0 =? 1) with false; change (1 =? 0) with false;
    change (0 =? 0) with true; change (1 =? 1) with true;
    rewrite ?xorb_false_r, ?xorb_true_r;
    destruct (Colortomove b), (canCastle b White Kingside),
      (canCastle b White Queenside), (canCastle b Black Kingside),
      (canCastle b Black Queenside); cbn [negb]; xor_bits.
Qed.

(** X6. [flipCastleRights] toggles the right it names and no other, and
    flipping the same right twice gives the board back, hash included. *)
Theorem flipCastleRights_toggles (b : Board) (c : ColorT) (s : CastleRightsT) :
  canCastle (flipCastleRights b c s) c s = negb (canCastle b c s)
  /\ (forall c' s', (c', s') <> (c, s) ->
        canCastle (flipCastleRights b c s) c' s' = canCastle b c' s')
  /\ flipCastleRights (flipCastleRights b c s) c s = b.
Proof.
  split; [| split].
  - rewrite canCastle_flip. destruct c, s; cbn; apply xorb_true_r.
  - intros c' s' Hne. rewrite canCastle_flip.
    destruct c, c', s, s'; cbn; rewrite ?xorb_false_r; try reflexivity;
      exfalso; apply Hne; reflexivity.
  - destruct b as [ctm ep hm [rw rb] fm bbs ps h].
    unfold flipCastleRights.
    destruct c; cbn; rewrite !lxor_twice; reflexivity.
Qed.

(** X7. [flipCastleRights] keeps the incremental hash in step with
    [recomputeBoardHash]: if the two agree before the flip they agree
    after it. *)
Theorem flipCastleRights_keeps_hash (b : Board) (c : ColorT)
  (s : CastleRightsT) :
  hash b = recomputeBoardHash b ->
  hash (flipCastleRights b c s)
  = recomputeBoardHash (flipCastleRights b c s).
Proof.
  intros H. rewrite recompute_split, headHash_flip.
  rewrite (piecesHash_same (flipCastleRights b c s) b) by reflexivity.
  change (hash (flipCastleRights b c s))
    with (Z.lxor (hash b) (castleRightsZobristC c s)).
  rewrite H, recompute_split. xor_bits.
Qed.

Lemma headHash_null b :
  headHash (fst (ApplyNullMove2 b))
  = Z.lxor (Z.lxor (headHash b) (enpassant b)) whiteToMoveZobristC.
Proof.
  unfold headHash, ApplyNullMove2. cbv zeta. cbn [fst].
  unfold canCastle.
  cbn [Colortomove enpassant castlerights setColortomove setHash setEnpassant].
  destruct (Colortomove b); cbn [oppColor];
    repeat match goal with
           | |- context [if ?c then _ else _] => destruct c
           end; xor_bits.
Qed.

(** X8. The closure returned by [ApplyNullMove2] undoes it: running it
    on the board the null move produced gives back the board the null
    move was applied to, whatever that board was. *)
Theorem ApplyNullMove2_then_Unapply (b : Board) :
  UnapplyNullMove (fst (ApplyNullMove2 b)) (snd (ApplyNullMove2 b)) = b.
Proof.
  destruct b as [ctm ep hm cr fm bbs ps h].
  cbv [UnapplyNullMove ApplyNullMove2 fst snd setEnpassant setHash
       setColortomove Colortomove enpassant Halfmoveclock castlerights
       Fullmoveno Bbs pieces hash].
  rewrite oppColor_involutive. f_equal. xor_bits.
Qed.

(** X9. [ApplyNullMove2] keeps the incremental hash in step with
    [recomputeBoardHash]: it gives the side to move to the other color
    and clears the en-passant square, and if hash and recomputation
    agreed before they agree after. *)
Theorem ApplyNullMove2_keeps_hash (b : Board) :
  hash b = recomputeBoardHash b ->
  let b' := fst (ApplyNullMove2 b) in
  Colortomove b' = oppColor (Colortomove b)
  /\ enpassant b' = 0
  /\ hash b' = recomputeBoardHash b'.
Proof.
  intros H b'. split; [reflexivity |]. split; [reflexivity |].
  unfold b'. rewrite recompute_split, headHash_null.
  rewrite (piecesHash_same (fst (ApplyNullMove2 b)) b) by reflexivity.
  change (hash (fst (ApplyNullMove2 b)))
    with (Z.lxor (Z.lxor (hash b) (enpassant b)) whiteToMoveZobristC).
  rewrite H, recompute_split. xor_bits.
Qed.

End Hash.

Section HashSamples.
#[local] Existing Instance sampleKeys.

Lemma flipCastleRights_keeps_hash_witness :
  hash (flipCastleRights kiwipete White Kingside)
  = recomputeBoardHash (flipCastleRights kiwipete White Kingside).
Proof.
  apply (flipCastleRights_keeps_hash kiwipete White Kingside).
  vm_compute. reflexivity.
Defined.

Lemma ApplyNullMove2_keeps_hash_witness :
  let b' := fst (ApplyNullMove2 strayEpSquare) in
  Colortomove b' = oppColor (Colortomove strayEpSquare)
  /\ enpassant b' = 0
  /\ hash b' = recomputeBoardHash b'.
Proof.
  apply (ApplyNullMove2_keeps_hash strayEpSquare).
  vm_compute. reflexivity.
Defined.

End HashSamples.

(** ** Side to move, move number and en-passant square after a move *)

Ltac split_ifs :=
  repeat match goal with
         | |- context [if ?c then _ else _] => destruct c
         end.

Ltac use_fields L :=
  let H1 := fresh in
  let H2 := fresh in
  let H3 := fresh in
  destruct L as (H1 & H2 & H3); rewrite ?H1, ?H2, ?H3; clear H1 H2 H3.

Section Turn.
Context {zk : ZobristKeys}.

(** The fields the castle-right strippers leave alone. *)
Lemma stripKingRights_fields b :
  Colortomove (stripKingRights b) = Colortomove b
  /\ Fullmoveno (stripKingRights b) = Fullmoveno b
  /\ enpassant (stripKingRights b) = enpassant b.
Proof.
  unfold stripKingRights. destruct (weCanCastle b Kingside);
    split_ifs; repeat split; reflexivity.
Qed.

Lemma stripRookRights_fields b c fb :
  Colortomove (stripRookRights b c fb) = Colortomove b
  /\ Fullmoveno (stripRookRights b c fb) = Fullmoveno b
  /\ enpassant (stripRookRights b c fb) = enpassant b.
Proof. unfold stripRookRights. split_ifs; repeat split; reflexivity. Qed.

Lemma stripCapturedRookRights_fields b c l tb :
  Colortomove (stripCapturedRookRights b c l tb) = Colortomove b
  /\ Fullmoveno (stripCapturedRookRights b c l tb) = Fullmoveno b
  /\ enpassant (stripCapturedRookRights b c l tb) = enpassant b.
Proof. unfold stripCapturedRookRights. split_ifs; repeat split; reflexivity. Qed.

Lemma simpleCapture_fields b c p t :
  Colortomove (simpleCapture b c p t) = Colortomove b
  /\ Fullmoveno (simpleCapture b c p t) = Fullmoveno b
  /\ enpassant (simpleCapture b c p t) = enpassant b.
Proof.
  unfold simpleCapture. destruct p; try (repeat split; reflexivity).
  cbv zeta.
  match goal with
  | |- context [stripCapturedRookRights ?x ?c ?l ?tb] =>
      destruct (stripCapturedRookRights_fields x c l tb) as (-> & -> & ->)
  end.
  repeat split; reflexivity.
Qed.

Lemma simpleByPiece_fields b c p f t :
  Colortomove (simpleByPiece b c p f t) = Colortomove b
  /\ Fullmoveno (simpleByPiece b c p f t) = Fullmoveno b
  /\ enpassant (simpleByPiece b c p f t)
     = if Piece_eqb p Pawn && (t + 2 * epDeltas c =? f)
       then wrap8 (t + epDeltas c) else enpassant b.
Proof.
  unfold simpleByPiece.
  destruct p; cbn [Piece_eqb pieceCode Z.eqb Pos.eqb andb];
    try (repeat split; reflexivity).
  - cbv zeta. destruct (t + 2 * epDeltas c =? f); repeat split; reflexivity.
  - destruct (stripRookRights_fields b c (bit f)) as (-> & -> & ->).
    repeat split; reflexivity.
  - destruct (stripKingRights_fields b) as (-> & -> & ->).
    repeat split; reflexivity.
Qed.

Lemma MakeSimpleMove_fields b m :
  let b' := fst (MakeSimpleMove b m) in
  let c := Colortomove b in
  Colortomove b' = oppColor c
  /\ Fullmoveno b' = wrap16 (Fullmoveno b + colorCode c)
  /\ enpassant b'
     = if Piece_eqb (PieceAt b (From m)) Pawn
          && (To m + 2 * epDeltas c =? From m)
       then wrap8 (To m + epDeltas c) else 0.
Proof.
  intros b' c. unfold b', MakeSimpleMove. cbv zeta. cbn [fst].
  set (b3 := simpleByPiece _ _ _ _ _).
  set (b5 := simpleCapture _ _ _ _).
  change (Colortomove (simpleFlip (simpleMove b5 (Colortomove b)
            (PieceAt b (From m)) (From m) (To m))))
    with (oppColor (Colortomove b5)).
  change (Fullmoveno (simpleFlip (simpleMove b5 (Colortomove b)
            (PieceAt b (From m)) (From m) (To m))))
    with (Fullmoveno b5).
  change (enpassant (simpleFlip (simpleMove b5 (Colortomove b)
            (PieceAt b (From m)) (From m) (To m))))
    with (enpassant b5).
  unfold b5.
  match goal with
  | |- context [simpleCapture ?x ?c ?p ?t] =>
      destruct (simpleCapture_fields x c p t) as (-> & -> & ->)
  end.
  change (Colortomove (simpleEpIn b3)) with (Colortomove b3).
  change (Fullmoveno (simpleEpIn b3)) with (Fullmoveno b3).
  change (enpassant (simpleEpIn b3)) with (enpassant b3).
  unfold b3.
  match goal with
  | |- context [simpleByPiece ?x ?c ?p ?f ?t] =>
      destruct (simpleByPiece_fields x c p f t) as (-> & -> & ->)
  end.
  repeat split; reflexivity.
Qed.


Lemma specialClocks_fields b m p :
  Colortomove (specialClocks b m p) = Colortomove b
  /\ Fullmoveno (specialClocks b m p)
     = wrap16 (Fullmoveno b + colorCode (Colortomove b))
  /\ enpassant (specialClocks b m p) = enpassant b.
Proof. unfold specialClocks. cbv zeta. split_ifs; repeat split; reflexivity. Qed.

Lemma specialRights_fields b m p :
  Colortomove (specialRights b m p) = Colortomove b
  /\ Fullmoveno (specialRights b m p) = Fullmoveno b
  /\ enpassant (specialRights b m p) = enpassant b.
Proof.
  unfold specialRights. cbv zeta.
  destruct (Piece_eqb p King), (Piece_eqb p Rook);
    repeat match goal with
           | |- context [stripRookRights ?x ?c ?fb] =>
               destruct (stripRookRights_fields x c fb) as (-> & -> & ->)
           | |- context [stripKingRights ?x] =>
               destruct (stripKingRights_fields x) as (-> & -> & ->)
           end;
    repeat split; reflexivity.
Qed.

Lemma specialCastleRook_fields b castle :
  Colortomove (specialCastleRook b castle) = Colortomove b
  /\ Fullmoveno (specialCastleRook b castle) = Fullmoveno b
  /\ enpassant (specialCastleRook b castle) = enpassant b.
Proof.
  unfold specialCastleRook. destruct castle as [[cs o] n].
  destruct (cs =? 0); repeat split; reflexivity.
Qed.

Lemma specialEpCapture_fields b m p :
  Colortomove (specialEpCapture b m p) = Colortomove b
  /\ Fullmoveno (specialEpCapture b m p) = Fullmoveno b
  /\ enpassant (specialEpCapture b m p) = enpassant b.
Proof.
  unfold specialEpCapture. destruct (isEpCapture _ _ _);
    repeat split; reflexivity.
Qed.

Lemma specialEpSquare_fields b m p :
  Colortomove (specialEpSquare b m p) = Colortomove b
  /\ Fullmoveno (specialEpSquare b m p) = Fullmoveno b
  /\ enpassant (specialEpSquare b m p)
     = if Piece_eqb p Pawn && (To m + 2 * epDeltas (Colortomove b) =? From m)
       then wrap8 (To m + epDeltas (Colortomove b)) else 0.
Proof.
  unfold specialEpSquare. cbv zeta. destruct (_ && _);
    repeat split; reflexivity.
Qed.

Lemma specialCapture_fields b m p :
  Colortomove (specialCapture b m p) = Colortomove b
  /\ Fullmoveno (specialCapture b m p) = Fullmoveno b
  /\ enpassant (specialCapture b m p) = enpassant b.
Proof.
  unfold specialCapture. destruct (negb _); repeat split; reflexivity.
Qed.

Lemma specialMovePiece_fields b m p q :
  Colortomove (specialMovePiece b m p q) = Colortomove b
  /\ Fullmoveno (specialMovePiece b m p q) = Fullmoveno b
  /\ enpassant (specialMovePiece b m p q) = enpassant b.
Proof. repeat split; reflexivity. Qed.

Lemma specialCapturedRook_fields b m p :
  Colortomove (specialCapturedRook b m p) = Colortomove b
  /\ Fullmoveno (specialCapturedRook b m p) = Fullmoveno b
  /\ enpassant (specialCapturedRook b m p) = enpassant b.
Proof.
  unfold specialCapturedRook. destruct (Piece_eqb p Rook);
    [apply stripCapturedRookRights_fields | repeat split; reflexivity].
Qed.

Lemma specialFlip_fields b e :
  Colortomove (specialFlip b e) = oppColor (Colortomove b)
  /\ Fullmoveno (specialFlip b e) = Fullmoveno b
  /\ enpassant (specialFlip b e) = enpassant b.
Proof. repeat split; reflexivity. Qed.

Lemma MakeSpecialMove_fields b m :
  let b' := fst (MakeSpecialMove b m) in
  let c := Colortomove b in
  Colortomove b' = oppColor c
  /\ Fullmoveno b' = wrap16 (Fullmoveno b + colorCode c)
  /\ enpassant b'
     = if Piece_eqb (PieceAt b (From m)) Pawn
          && (To m + 2 * epDeltas c =? From m)
       then wrap8 (To m + epDeltas c) else 0.
Proof.
  intros b' c. unfold b', MakeSpecialMove. cbv zeta. cbn [fst].
  repeat match goal with
  | |- context [specialFlip ?x ?e] =>
      use_fields (specialFlip_fields x e)
  | |- context [specialCapturedRook ?x ?m ?p] =>
      use_fields (specialCapturedRook_fields x m p)
  | |- context [specialMovePiece ?x ?m ?p ?q] =>
      use_fields (specialMovePiece_fields x m p q)
  | |- context [specialCapture ?x ?m ?p] =>
      use_fields (specialCapture_fields x m p)
  | |- context [specialEpSquare ?x ?m ?p] =>
      use_fields (specialEpSquare_fields x m p)
  | |- context [specialEpCapture ?x ?m ?p] =>
      use_fields (specialEpCapture_fields x m p)
  | |- context [specialCastleRook ?x ?cs] =>
      use_fields (specialCastleRook_fields x cs)
  | |- context [specialRights ?x ?m ?p] =>
      use_fields (specialRights_fields x m p)
  | |- context [specialClocks ?x ?m ?p] =>
      use_fields (specialClocks_fields x m p)
  end.
  repeat split; reflexivity.
Qed.

Lemma double_push_square c f t :
  0 <= f < 64 -> 0 <= t < 64 -> t + 2 * epDeltas c = f ->
  wrap8 (t + epDeltas c) = t + epDeltas c
  /\ 2 * (t + epDeltas c) = f + t.
Proof.
  intros Hf Ht H. unfold wrap8.
  destruct c; cbn [epDeltas] in *; rewrite Z.mod_small; lia.
Qed.

(** X10. Whatever the board and the move word, [MakeMove] gives the
    move to the other color and adds one to the fullmove number after a
    move of Black, modulo 2^16, on the fast and on the slow path. *)
Theorem MakeMove_passes_the_turn (b : Board) (m : Move) :
  Colortomove (fst (MakeMove b m)) = oppColor (Colortomove b)
  /\ Fullmoveno (fst (MakeMove b m))
     = wrap16 (Fullmoveno b + colorCode (Colortomove b)).
Proof.
  unfold MakeMove. destruct (IsSimple m).
  - destruct (MakeSimpleMove_fields b m) as (H1 & H2 & _). auto.
  - destruct (MakeSpecialMove_fields b m) as (H1 & H2 & _). auto.
Qed.

(** X11. After [MakeMove] the en-passant square is the square a pawn
    passed over when the moved piece is a pawn that went two ranks
    forward (the square halfway between origin and destination), and 0
    after every other move; the fast and the slow path agree. *)
Theorem MakeMove_en_passant_square (b : Board) (m : Move) :
  let doublePush :=
    Piece_eqb (PieceAt b (From m)) Pawn
    && (To m + 2 * epDeltas (Colortomove b) =? From m) in
  (doublePush = true ->
   2 * enpassant (fst (MakeMove b m)) = From m + To m)
  /\ (doublePush = false -> enpassant (fst (MakeMove b m)) = 0).
Proof.
  intros dp.
  assert (He : enpassant (fst (MakeMove b m))
               = if dp then wrap8 (To m + epDeltas (Colortomove b)) else 0).
  { unfold MakeMove. destruct (IsSimple m).
    - destruct (MakeSimpleMove_fields b m) as (_ & _ & H). exact H.
    - destruct (MakeSpecialMove_fields b m) as (_ & _ & H). exact H. }
  rewrite He. split; intros Hd; rewrite Hd; [| reflexivity].
  unfold dp in Hd. apply andb_true_iff in Hd. destruct Hd as [_ Hd].
  apply Z.eqb_eq in Hd.
  destruct (double_push_square _ _ _ (From_range m) (To_range m) Hd)
    as [-> H2].
  exact H2.
Qed.

End Turn.

(** ** The pieces array against the bitboards *)

Lemma find_upto (f : Z -> bool) (n : nat) : forall a : nat,
  match find f (map Z.of_nat (seq a n)) with
  | Some i =>
      Z.of_nat a <= i < Z.of_nat (a + n) /\ f i = true
      /\ forall s, Z.of_nat a <= s < i -> f s = false
  | None => forall s, Z.of_nat a <= s < Z.of_nat (a + n) -> f s = false
  end.
Proof.
  induction n as [| n IH]; intros a; cbn [seq map find].
  - intros s Hs. lia.
  - destruct (f (Z.of_nat a)) eqn:Ha.
    + split; [lia |]. split; [exact Ha |]. intros s Hs. lia.
    + specialize (IH (S a)).
      destruct (find f (map Z.of_nat (seq (S a) n))) as [i |].
      * destruct IH as (Hr & Hi & Hb). split; [lia |]. split; [exact Hi |].
        intros s Hs. destruct (Z.eq_dec s (Z.of_nat a)) as [-> | Hne];
          [exact Ha | apply Hb; lia].
      * intros s Hs. destruct (Z.eq_dec s (Z.of_nat a)) as [-> | Hne];
          [exact Ha | apply IH; lia].
Qed.

Lemma isConsistent_cases (b : Board) :
  match isConsistent b with
  | (true, i) => i = 0 /\ forall s, 0 <= s < 64 -> pieceOk b s = true
  | (false, i) =>
      0 <= i < 64 /\ pieceOk b i = false
      /\ forall s, 0 <= s < i -> pieceOk b s = true
  end.
Proof.
  unfold isConsistent, allSquares.
  pose proof (find_upto (fun i => negb (pieceOk b i)) 64 0) as H.
  destruct (find _ _) as [i |].
  - destruct H as (Hr & Hi & Hb). apply negb_true_iff in Hi.
    split; [cbn in Hr; lia |]. split; [exact Hi |].
    intros s Hs. apply negb_false_iff, Hb. cbn. lia.
  - split; [reflexivity |]. intros s Hs. apply negb_false_iff, H. cbn. lia.
Qed.

(** X12. [isConsistent] returns true (with square 0) exactly when every
    one of the 64 squares passes its check, and otherwise false with
    the first square that fails: every square below it passes. *)
Theorem isConsistent_first_bad_square (b : Board) :
  match isConsistent b with
  | (true, i) => i = 0 /\ forall s, 0 <= s < 64 -> pieceOk b s = true
  | (false, i) =>
      0 <= i < 64 /\ pieceOk b i = false
      /\ forall s, 0 <= s < i -> pieceOk b s = true
  end.
Proof. apply isConsistent_cases. Qed.

Lemma pieceOk_nothing b s :
  0 <= s < 64 -> PieceAt b s = Nothing ->
  pieceOk b s
  = negb (Z.testbit (All (bbsOf b White)) s)
    && negb (Z.testbit (All (bbsOf b Black)) s).
Proof.
  intros Hs Hp. unfold pieceOk. rewrite Hp. cbv zeta.
  rewrite bitSet_testbit, testbit_not64, Z.lor_spec by assumption.
  zcases; btauto.
Qed.

Lemma pieceOk_piece b s :
  0 <= s < 64 -> PieceAt b s <> Nothing ->
  pieceOk b s
  = Z.testbit (pieceBitboard (bbsOf b White) (PieceAt b s)) s
    || Z.testbit (pieceBitboard (bbsOf b Black) (PieceAt b s)) s.
Proof.
  intros Hs Hp. unfold pieceOk. cbv zeta.
  destruct (PieceAt b s); try congruence;
    rewrite bitSet_testbit, Z.lor_spec by assumption; reflexivity.
Qed.


(** *** Adding, removing and moving a piece *)

Lemma nth_updNth_same {A} (l : list A) : forall n v d,
  (n < List.length l)%nat -> nth n (updNth n v l) d = v.
Proof.
  induction l as [| h t IH]; intros n v d Hn; cbn in Hn; [lia |].
  destruct n; cbn; [reflexivity | apply IH; lia].
Qed.

Lemma nth_updNth_other {A} (l : list A) : forall n k v d,
  n <> k -> nth k (updNth n v l) d = nth k l d.
Proof.
  induction l as [| h t IH]; intros n k v d Hne; [destruct n; reflexivity |].
  destruct n, k; cbn; try reflexivity; [congruence | apply IH; congruence].
Qed.

Lemma updNth_back {A} (l : list A) : forall n v d,
  updNth n (nth n l d) (updNth n v l) = l.
Proof.
  induction l as [| h t IH]; intros n v d; [destruct n; reflexivity |].
  destruct n; cbn; [reflexivity | rewrite IH; reflexivity].
Qed.

Lemma length_updNth {A} (l : list A) : forall n v,
  List.length (updNth n v l) = List.length l.
Proof.
  induction l as [| h t IH]; intros n v; [destruct n; reflexivity |].
  destruct n; cbn; [reflexivity | rewrite IH; reflexivity].
Qed.

Lemma PieceAt_setPieceAt b pos p s :
  0 <= pos -> 0 <= s -> (Z.to_nat pos < List.length (pieces b))%nat ->
  PieceAt (setPieceAt b pos p) s = if s =? pos then p else PieceAt b s.
Proof.
  intros Hp Hs Hl. unfold PieceAt, setPieceAt. cbn [pieces setPieces].
  destruct (Z.eqb_spec s pos) as [-> | Hne].
  - apply nth_updNth_same. exact Hl.
  - apply nth_updNth_other. lia.
Qed.

(** X14. [removePiece] undoes [addPiece]: after a piece is added on a
    square that held nothing (no bit of the square in the two bitboards
    written, [Nothing] in the pieces array), removing it from the same
    bitboards and square gives back the board as it was. *)
Theorem addPiece_then_removePiece (b : Board) (col : ColorT) (piece : Piece)
  (pos : Z) :
  0 <= pos < 64 ->
  0 <= pieceBitboard (bbsOf b col) piece < 2 ^ 64 ->
  0 <= All (bbsOf b col) < 2 ^ 64 ->
  Z.testbit (pieceBitboard (bbsOf b col) piece) pos = false ->
  Z.testbit (All (bbsOf b col)) pos = false ->
  PieceAt b pos = Nothing ->
  removePiece (addPiece b col piece pos) col piece pos = b.
Proof.
  intros Hp Hr Ha Hb Hab Hn.
  destruct b as [ctm ep hm cr fm [w k] ps h].
  unfold PieceAt in Hn. cbn [pieces] in Hn.
  assert (Hps : updNth (Z.to_nat pos) Nothing
                  (updNth (Z.to_nat pos) piece ps) = ps).
  { rewrite <- Hn at 1. apply updNth_back. }
  destruct col; [destruct w as [b0 b1 b2 b3 b4 b5 b6 b7]
                | destruct k as [b0 b1 b2 b3 b4 b5 b6 b7]];
    destruct piece;
    cbv [bbsOf pcGet Bbs atWhite atBlack pieceBitboard
         NoPieces Pawns Knights Bishops Rooks Queens Kings All] in Hr, Ha, Hb, Hab;
    cbv [removePiece addPiece setBb setAllBb setPieceAt setBbs setPieces
         bbsOf pcGet pcSet setPieceBitboard setAll pieceBitboard
         Colortomove enpassant Halfmoveclock castlerights Fullmoveno Bbs
         pieces hash atWhite atBlack
         NoPieces Pawns Knights Bishops Rooks Queens Kings All];
    rewrite Hps, ?set_then_clear by (assumption || lia); reflexivity.
Qed.

Lemma movePiece_opp b col p q f t :
  bbsOf (movePiece b col p q f t) (oppColor col) = bbsOf b (oppColor col).
Proof. destruct col; reflexivity. Qed.

Lemma movePiece_all b col p q f t :
  All (bbsOf (movePiece b col p q f t) col)
  = Z.lor (Z.land (All (bbsOf b col)) (not64 (bit f))) (bit t).
Proof. destruct col, p, q; reflexivity. Qed.

Lemma movePiece_kind b col p q f t k :
  pieceBitboard (bbsOf (movePiece b col p q f t) col) k
  = let x := if Piece_eqb k p
             then Z.land (pieceBitboard (bbsOf b col) k) (not64 (bit f))
             else pieceBitboard (bbsOf b col) k in
    if Piece_eqb k q then Z.lor x (bit t) else x.
Proof. destruct col, p, q, k; reflexivity. Qed.

Lemma movePiece_pieces b col p q f t :
  pieces (movePiece b col p q f t)
  = updNth (Z.to_nat t) q (updNth (Z.to_nat f) Nothing (pieces b)).
Proof. reflexivity. Qed.

Lemma PieceAt_movePiece b col p q f t s :
  0 <= f < 64 -> 0 <= t < 64 -> 0 <= s ->
  List.length (pieces b) = 64%nat ->
  PieceAt (movePiece b col p q f t) s
  = if s =? t then q else if s =? f then Nothing else PieceAt b s.
Proof.
  intros Hf Ht Hs Hl. unfold PieceAt. rewrite movePiece_pieces.
  destruct (Z.eqb_spec s t) as [-> | Hne].
  - apply nth_updNth_same. rewrite length_updNth, Hl. lia.
  - rewrite nth_updNth_other by lia.
    destruct (Z.eqb_spec s f) as [-> | Hnf].
    + apply nth_updNth_same. rewrite Hl. lia.
    + apply nth_updNth_other. lia.
Qed.

Lemma pieceOk_by_color b col s :
  0 <= s < 64 ->
  pieceOk b s
  = match PieceAt b s with
    | Nothing =>
        negb (Z.testbit (All (bbsOf b col)) s)
        && negb (Z.testbit (All (bbsOf b (oppColor col))) s)
    | p =>
        Z.testbit (pieceBitboard (bbsOf b col) p) s
        || Z.testbit (pieceBitboard (bbsOf b (oppColor col)) p) s
    end.
Proof.
  intros Hs. destruct (Piece_eqb_spec (PieceAt b s) Nothing) as [Hn | Hn].
  - rewrite pieceOk_nothing, Hn by assumption.
    destruct col; cbn [oppColor]; btauto.
  - rewrite pieceOk_piece by assumption.
    destruct col, (PieceAt b s); cbn [oppColor]; try congruence; btauto.
Qed.

(** X15. [movePiece] keeps the pieces array in agreement with the
    bitboards as [isConsistent] checks it: on a board that passes the
    check, moving a piece of one color from a square where the other
    color has nothing, to become a piece that is not [Nothing], gives a
    board that passes the check. *)
Theorem movePiece_keeps_isConsistent (b : Board) (col : ColorT)
  (piece destPiece : Piece) (from to : Z) :
  0 <= from < 64 -> 0 <= to < 64 ->
  List.length (pieces b) = 64%nat ->
  isConsistent b = (true, 0) ->
  Z.testbit (All (bbsOf b (oppColor col))) from = false ->
  destPiece <> Nothing ->
  isConsistent (movePiece b col piece destPiece from to) = (true, 0).
Proof.
  intros Hf Ht Hl Hc Hopp Hd.
  pose proof (isConsistent_cases b) as Hb.
  rewrite Hc in Hb. destruct Hb as [_ Hok].
  set (b' := movePiece b col piece destPiece from to).
  pose proof (isConsistent_cases b') as Hb'.
  destruct (isConsistent b') as [[|] i].
  - destruct Hb' as [-> _]. reflexivity.
  - exfalso. destruct Hb' as (Hi & Hbad & _).
    rewrite (pieceOk_by_color b' col i) in Hbad by lia.
    unfold b' in Hbad.
    rewrite PieceAt_movePiece, movePiece_opp, movePiece_all in Hbad
      by (assumption || lia).
    specialize (Hok i Hi). rewrite (pieceOk_by_color b col i) in Hok by lia.
    destruct (Z.eqb_spec i to) as [-> | Hnt].
    + assert (Hset : Z.testbit (pieceBitboard
                       (bbsOf (movePiece b col piece destPiece from to) col)
                       destPiece) to = true).
      { rewrite movePiece_kind. cbv zeta. rewrite Piece_eqb_refl.
        rewrite Z.lor_spec, testbit_bit, Z.eqb_refl by lia.
        destruct (Z.ltb_spec to 64); [| lia]. apply orb_true_r. }
      destruct destPiece; try congruence; rewrite Hset in Hbad; discriminate.
    + destruct (Z.eqb_spec i from) as [-> | Hnf].
      * rewrite Z.lor_spec, Z.land_spec, testbit_not64, !testbit_bit,
          Z.eqb_refl, Hopp in Hbad by lia.
        destruct (Z.eqb_spec from to); [congruence |].
        destruct (Z.ltb_spec from 64); [| lia].
        destruct (Z.leb_spec 0 from); [| lia].
        cbn in Hbad. rewrite andb_false_r in Hbad. discriminate.
      * assert (Hall : Z.testbit (Z.lor (Z.land (All (bbsOf b col))
                                   (not64 (bit from))) (bit to)) i
                       = Z.testbit (All (bbsOf b col)) i).
        { rewrite Z.lor_spec, Z.land_spec, testbit_not64, !testbit_bit by lia.
          zcases; btauto. }
        assert (Hkind : forall k,
                   Z.testbit (pieceBitboard
                     (bbsOf (movePiece b col piece destPiece from to) col) k) i
                   = Z.testbit (pieceBitboard (bbsOf b col) k) i).
        { intros k. rewrite movePiece_kind. cbv zeta.
          destruct (Piece_eqb k piece), (Piece_eqb k destPiece);
            rewrite ?Z.lor_spec, ?Z.land_spec, ?testbit_not64, ?testbit_bit
              by lia;
            zcases; btauto. }
        rewrite Hall in Hbad.
        destruct (PieceAt b i); rewrite ?Hkind in Hbad; congruence.
Qed.

Section ArraySamples.
#[local] Existing Instance sampleKeys.


Lemma addPiece_then_removePiece_witness :
  removePiece (addPiece startPosition White Queen 28) White Queen 28
  = startPosition.
Proof.
  apply (addPiece_then_removePiece startPosition White Queen 28).
  - lia.
  - vm_compute. split; [discriminate | reflexivity].
  - vm_compute. split; [discriminate | reflexivity].
  - vm_compute. reflexivity.
  - vm_compute. reflexivity.
  - vm_compute. reflexivity.
Defined.

Lemma movePiece_keeps_isConsistent_witness :
  isConsistent (movePiece startPosition White Pawn Pawn 12 28) = (true, 0).
Proof.
  apply (movePiece_keeps_isConsistent startPosition White Pawn Pawn 12 28).
  - lia.
  - lia.
  - vm_compute. reflexivity.
  - vm_compute. reflexivity.
  - vm_compute. reflexivity.
  - discriminate.
Defined.

End ArraySamples.

(** ** Moves from a bitboard of targets *)

Lemma land_even_odd a b : Z.land (2 * a) (2 * b + 1) = 2 * Z.land a b.
Proof.
  apply Z.bits_inj'. intros i Hi.
  destruct (Z.eq_dec i 0) as [-> | Hne].
  - rewrite Z.land_spec, !Z.testbit_even_0. reflexivity.
  - replace i with (Z.succ (i - 1)) by lia.
    rewrite Z.land_spec, !Z.testbit_even_succ, Z.testbit_odd_succ by lia.
    rewrite Z.land_spec. reflexivity.
Qed.

Lemma land_odd_even a : Z.land (2 * a + 1) (2 * a) = 2 * a.
Proof.
  apply Z.bits_inj'. intros i Hi.
  destruct (Z.eq_dec i 0) as [-> | Hne].
  - rewrite Z.land_spec, Z.testbit_even_0. apply andb_false_r.
  - replace i with (Z.succ (i - 1)) by lia.
    rewrite Z.land_spec, Z.testbit_even_succ, Z.testbit_odd_succ by lia.
    apply andb_diag.
Qed.

Lemma OnesCount64_double x : 0 <= x -> OnesCount64 (2 * x) = OnesCount64 x.
Proof. intros Hx. destruct x as [| p | p]; try lia; reflexivity. Qed.

(** [x & (x - 1)] has one bit less than [x]. *)
Lemma pos_popcount_clear_lowest p :
  OnesCount64 (Z.land (Zpos p) (Zpos p - 1)) = pos_popcount p - 1.
Proof.
  induction p as [p IH | p IH |]; cbn [pos_popcount].
  - replace (Zpos p~1 - 1) with (2 * Zpos p) by lia.
    change (Zpos p~1) with (2 * Zpos p + 1).
    rewrite land_odd_even, OnesCount64_double by lia. cbn [OnesCount64]. lia.
  - replace (Zpos p~0 - 1) with (2 * (Zpos p - 1) + 1) by lia.
    change (Zpos p~0) with (2 * Zpos p).
    rewrite land_even_odd, OnesCount64_double; [exact IH |].
    apply Z.land_nonneg. left. lia.
  - reflexivity.
Qed.

Lemma popLoop_length fuel : forall bb,
  0 <= bb < 2 ^ 64 ->
  (forall i, 0 <= i < 64 - Z.of_nat fuel -> Z.testbit bb i = false) ->
  Z.of_nat (List.length (popLoop fuel bb)) = OnesCount64 bb.
Proof.
  induction fuel as [| f IH]; intros bb Hbb Hlow.
  - assert (bb = 0) as ->; [| reflexivity].
    apply bits_eq64; [assumption | lia |].
    intros i Hi. rewrite Z.bits_0. apply Hlow. cbn. lia.
  - cbn [popLoop]. destruct (Z.eqb_spec bb 0) as [-> | Hne]; [reflexivity |].
    assert (Hpos : 0 < bb < 2 ^ 64) by lia.
    destruct (tz_spec bb) as (Ht0 & Ht1 & Ht2); [lia |].
    pose proof (tz_range bb Hbb Hne) as Htr.
    set (bb' := Z.land bb (wrap64 (bb - 1))).
    assert (Hbb' : 0 <= bb' < 2 ^ 64) by (apply land_range; assumption).
    assert (Hlow' : forall i, 0 <= i < 64 - Z.of_nat f ->
                              Z.testbit bb' i = false).
    { intros i Hi. unfold bb'. rewrite clear_lowest_bits by lia.
      destruct (Z.eqb_spec i (TrailingZeros64 bb)) as [-> | Hd].
      - apply andb_false_r.
      - cbn [negb]. rewrite andb_true_r.
        destruct (Z.lt_ge_cases i (TrailingZeros64 bb)) as [Hl | Hg].
        + apply Ht2. lia.
        + apply Hlow. split; [lia |].
          destruct (Z.lt_ge_cases (TrailingZeros64 bb)
                                  (64 - Z.of_nat (S f))) as [Hc | Hc].
          * rewrite Hlow in Ht1 by lia. discriminate.
          * lia. }
    cbn [List.length]. rewrite Nat2Z.inj_succ, (IH bb' Hbb' Hlow').
    unfold bb'. rewrite wrap64_id by lia.
    destruct bb as [| p | p]; try lia.
    rewrite pos_popcount_clear_lowest. cbn [OnesCount64]. lia.
Qed.

Lemma squaresOf_length bb :
  0 <= bb < 2 ^ 64 -> Z.of_nat (List.length (squaresOf bb)) = OnesCount64 bb.
Proof.
  intros Hbb. unfold squaresOf. apply popLoop_length; [assumption |].
  intros i Hi. cbn in Hi. lia.
Qed.

Lemma mkMove_word f t :
  0 <= f < 64 -> 0 <= t < 64 ->
  From (mkMove f t) = f /\ To (mkMove f t) = t
  /\ Promote (mkMove f t) = 0 /\ IsSimple (mkMove f t) = false.
Proof.
  intros Hf Ht.
  destruct (encodings_decode f t (mkMove f t) Hf Ht) as (H1 & H2 & H3);
    [left; reflexivity |].
  repeat split; try assumption.
  unfold mkMove. apply Z.bits_inj'. intros i Hi.
  rewrite Promote_bits, Setto_bits, Setfrom_bits, !Z.bits_0 by lia.
  change 64 with (2 ^ 6) in Hf, Ht.
  destruct (Z.ltb_spec i 3); [| reflexivity].
  rewrite (small_bits 6 t (i + 12)), (small_bits 6 f (i + 12 - 6)) by lia.
  zcases; btauto.
Qed.

(** X16. [genMovesFromTargets] appends to the move list, for a 64-bit
    [targets] and an origin below 64, exactly one move per set bit of
    [targets]: as many moves as [targets] has bits, each from the origin
    to a set bit with no promotion and no simple hint, and every set bit
    is the destination of one of them. *)
Theorem genMovesFromTargets_one_move_per_bit (moveList : list Move)
  (origin targets : Z) :
  0 <= origin < 64 -> 0 <= targets < 2 ^ 64 ->
  exists added,
    genMovesFromTargets moveList origin targets = moveList ++ added
    /\ Z.of_nat (List.length added) = OnesCount64 targets
    /\ (forall m, In m added ->
          From m = origin /\ Z.testbit targets (To m) = true
          /\ Promote m = 0 /\ IsSimple m = false)
    /\ (forall t, Z.testbit targets t = true ->
          exists m, In m added /\ From m = origin /\ To m = t).
Proof.
  intros Ho Ht. unfold genMovesFromTargets. eexists. split; [reflexivity |].
  split; [rewrite length_map; apply squaresOf_length; exact Ht |]. split.
  - intros m Hm. apply in_map_iff in Hm. destruct Hm as (t & <- & Hin).
    apply squaresOf_spec in Hin; [| exact Ht]. destruct Hin as [Hr Hb].
    rewrite Square_small by assumption.
    destruct (mkMove_word origin t Ho Hr) as (-> & -> & -> & ->). auto.
  - intros t Hb. pose proof (testbit_true_range targets t Ht Hb) as Hr.
    exists (mkMove origin (Square t)). split.
    + apply in_map_iff. exists t. split; [reflexivity |].
      apply squaresOf_spec; auto.
    + rewrite Square_small by assumption.
      destruct (mkMove_word origin t Ho Hr) as (-> & -> & _). auto.
Qed.

Lemma genMovesFromTargets_one_move_per_bit_witness :
  exists added,
    genMovesFromTargets [] 12 268435456 = [] ++ added
    /\ Z.of_nat (List.length added) = OnesCount64 268435456
    /\ (forall m, In m added ->
          From m = 12 /\ Z.testbit 268435456 (To m) = true
          /\ Promote m = 0 /\ IsSimple m = false)
    /\ (forall t, Z.testbit 268435456 t = true ->
          exists m, In m added /\ From m = 12 /\ To m = t).
Proof.
  apply (genMovesFromTargets_one_move_per_bit [] 12 268435456); lia.
Defined.

(** ** Knights and sliders *)

Lemma targets_range X F A : 0 <= Z.land (Z.land X (not64 F)) A < 2 ^ 64.
Proof. apply land_range, land_range_r, not64_range. Qed.

Lemma genMoves_in ml o tg m :
  0 <= tg < 2 ^ 64 ->
  In m (genMovesFromTargets ml o tg)
  <-> In m ml \/ exists t, 0 <= t < 64 /\ Z.testbit tg t = true
                           /\ m = mkMove o t.
Proof.
  intros Ht. unfold genMovesFromTargets. rewrite in_app_iff, in_map_iff.
  split; (intros [H | H]; [left; exact H | right]).
  - destruct H as (t & <- & Hin). apply squaresOf_spec in Hin; [| exact Ht].
    destruct Hin as [Hr Hb]. exists t. rewrite Square_small by assumption. auto.
  - destruct H as (t & Hr & Hb & ->). exists t.
    rewrite Square_small by assumption. split; [reflexivity |].
    apply squaresOf_spec; auto.
Qed.

Lemma fold_genMoves_in (T : Z -> Z) (l : list Z) m :
  (forall s, 0 <= T s < 2 ^ 64) ->
  (forall s, In s l -> 0 <= s < 64) ->
  forall ml,
    In m (fold_left (fun ml s => genMovesFromTargets ml (Square s) (T s)) l ml)
    <-> In m ml
        \/ exists s t, In s l /\ 0 <= t < 64 /\ Z.testbit (T s) t = true
                       /\ m = mkMove s t.
Proof.
  intros HT. induction l as [| x l IH]; intros Hl ml; cbn [fold_left].
  - split; [auto | intros [H | (s & t & [] & _)]; exact H].
  - rewrite IH by (intros; apply Hl; right; assumption).
    rewrite genMoves_in by apply HT.
    rewrite Square_small by (apply Hl; left; reflexivity).
    split.
    + intros [[H | (t & Hr & Hb & ->)] | (s & t & Hs & Hr & Hb & ->)].
      * left. exact H.
      * right. exists x, t. cbn [In]. auto.
      * right. exists s, t. cbn [In]. auto.
    + intros [H | (s & t & [<- | Hs] & Hr & Hb & ->)].
      * left. left. exact H.
      * left. right. exists t. auto.
      * right. exists s, t. auto.
Qed.

Lemma movesBy_fold b pieces (attacks : Z -> Z) np ad ml m :
  0 <= pieces < 2 ^ 64 ->
  In m (fold_left
          (fun ml s =>
             genMovesFromTargets ml (Square s)
               (Z.land (Z.land (attacks s) (not64 (All (ourBitboards b)))) ad))
          (squaresOf (Z.land pieces np)) ml)
  <-> In m ml \/ movesBy b pieces attacks np ad m.
Proof.
  intros Hp.
  rewrite (fold_genMoves_in
             (fun s => Z.land (Z.land (attacks s)
                                      (not64 (All (ourBitboards b)))) ad)).
  - split; (intros [H | H]; [left; exact H | right]).
    + destruct H as (s & t & Hs & Hr & Hb & ->).
      apply squaresOf_spec in Hs; [| apply land_range; exact Hp].
      destruct Hs as [Hsr Hsb]. rewrite Z.land_spec in Hsb.
      apply andb_true_iff in Hsb. destruct Hsb as [H1 H2].
      rewrite !Z.land_spec, testbit_not64 in Hb.
      rewrite !andb_true_iff in Hb. destruct Hb as [[Ha [_ Hf]] Hd].
      apply negb_true_iff in Hf.
      exists s, t. repeat split; try assumption; lia.
    + destruct H as (f & t & -> & Hf & Ht & H1 & H2 & Ha & Hfr & Hd).
      exists f, t. split.
      * apply squaresOf_spec; [apply land_range; exact Hp |].
        split; [exact Hf |]. rewrite Z.land_spec, H1, H2. reflexivity.
      * split; [exact Ht |]. split; [| reflexivity].
        rewrite !Z.land_spec, testbit_not64, Ha, Hfr, Hd.
        destruct (Z.leb_spec 0 t), (Z.ltb_spec t 64); try lia; reflexivity.
  - intros s. apply targets_range.
  - intros s Hs. apply squaresOf_spec in Hs; [tauto |].
    apply land_range. exact Hp.
Qed.

(** X17. [knightMoves] appends exactly the knight moves: a move is in
    the list it returns iff it was in the list given or goes from a
    square with a knight of the side to move that is marked [nonpinned]
    to a square of [knightMasks] for that origin which holds no piece of
    the same side and lies in [allowDest]. *)
Theorem knightMoves_exactly (b : Board) (moveList : list Move)
  (nonpinned allowDest : Z) (m : Move) :
  0 <= Knights (ourBitboards b) < 2 ^ 64 ->
  In m (knightMoves b moveList nonpinned allowDest)
  <-> In m moveList
      \/ movesBy b (Knights (ourBitboards b)) knightMasks
                 nonpinned allowDest m.
Proof.
  intros Hr. unfold knightMoves. cbv zeta.
  apply (movesBy_fold b (Knights (ourBitboards b)) knightMasks). exact Hr.
Qed.

(** X18. [rookMoves], [bishopMoves] and [queenMoves] append exactly the
    slider moves: from a square with a rook (bishop, queen) of the side
    to move that is marked [nonpinned], to a square that
    [CalculateRookMoveBitboard] ([CalculateBishopMoveBitboard]; either
    of the two for a queen) gives for that origin and the occupancy of
    the board, which holds no piece of the same side and lies in
    [allowDest]. *)
Theorem slider_moves_exactly (b : Board) (moveList : list Move)
  (nonpinned allowDest : Z) (m : Move) :
  0 <= Rooks (ourBitboards b) < 2 ^ 64 ->
  0 <= Bishops (ourBitboards b) < 2 ^ 64 ->
  0 <= Queens (ourBitboards b) < 2 ^ 64 ->
  (In m (rookMoves b moveList nonpinned allowDest)
   <-> In m moveList
       \/ movesBy b (Rooks (ourBitboards b))
                  (fun f => CalculateRookMoveBitboard f (occupied b))
                  nonpinned allowDest m)
  /\ (In m (bishopMoves b moveList nonpinned allowDest)
      <-> In m moveList
          \/ movesBy b (Bishops (ourBitboards b))
                     (fun f => CalculateBishopMoveBitboard f (occupied b))
                     nonpinned allowDest m)
  /\ (In m (queenMoves b moveList nonpinned allowDest)
      <-> In m moveList
          \/ movesBy b (Queens (ourBitboards b))
                     (fun f => Z.lor (CalculateBishopMoveBitboard f (occupied b))
                                     (CalculateRookMoveBitboard f (occupied b)))
                     nonpinned allowDest m).
Proof.
  intros Hr Hb Hq. split; [| split].
  - unfold rookMoves. cbv zeta.
    apply (movesBy_fold b (Rooks (ourBitboards b))
             (fun f => CalculateRookMoveBitboard f (occupied b))).
    exact Hr.
  - unfold bishopMoves. cbv zeta.
    apply (movesBy_fold b (Bishops (ourBitboards b))
             (fun f => CalculateBishopMoveBitboard f (occupied b))).
    exact Hb.
  - unfold queenMoves. cbv zeta.
    rewrite <- (movesBy_fold b (Queens (ourBitboards b))
                  (fun f => Z.lor (CalculateBishopMoveBitboard f (occupied b))
                                  (CalculateRookMoveBitboard f (occupied b)))
                  nonpinned allowDest moveList m Hq).
    fold (ourBitboards b). fold (occupied b).
    generalize (squaresOf (Z.land (Queens (ourBitboards b)) nonpinned)).
    intros l. revert moveList. induction l as [| x l IH]; intros moveList;
      cbn [fold_left]; [tauto |].
    rewrite IH.
    set (D := Z.land (Z.land (CalculateBishopMoveBitboard x (occupied b))
                             (not64 (All (ourBitboards b)))) allowDest).
    set (O := Z.land (Z.land (CalculateRookMoveBitboard x (occupied b))
                             (not64 (All (ourBitboards b)))) allowDest).
    set (Q := Z.land (Z.land (Z.lor (CalculateBishopMoveBitboard x (occupied b))
                                    (CalculateRookMoveBitboard x (occupied b)))
                             (not64 (All (ourBitboards b)))) allowDest).
    assert (HD : 0 <= D < 2 ^ 64) by apply targets_range.
    assert (HO : 0 <= O < 2 ^ 64) by apply targets_range.
    assert (HQ : 0 <= Q < 2 ^ 64) by apply targets_range.
    assert (Hbits : forall t, Z.testbit Q t = Z.testbit D t || Z.testbit O t).
    { intros t. unfold Q, D, O. rewrite !Z.land_spec, Z.lor_spec. btauto. }
    clear IH.
    assert (Hstep : forall m',
              In m' (genMovesFromTargets
                       (genMovesFromTargets moveList (Square x) D)
                       (Square x) O)
              <-> In m' (genMovesFromTargets moveList (Square x) Q)).
    { intros m'. rewrite !genMoves_in by assumption. split.
      - intros [[H | (t & Hr' & Hb' & ->)] | (t & Hr' & Hb' & ->)];
          [left; exact H | right; exists t | right; exists t];
          rewrite Hbits, Hb', ?orb_true_r; auto.
      - intros [H | (t & Hr' & Hb' & ->)]; [left; left; exact H |].
        rewrite Hbits in Hb'. apply orb_true_iff in Hb'.
        destruct Hb' as [Hb' | Hb']; [left; right | right]; exists t; auto. }
    revert Hstep.
    generalize (genMovesFromTargets
                  (genMovesFromTargets moveList (Square x) D) (Square x) O).
    generalize (genMovesFromTargets moveList (Square x) Q).
    intros l1 l2 Hstep. clear - Hstep.
    revert l1 l2 Hstep. induction l as [| y l IH]; intros l1 l2 Hstep;
      cbn [fold_left]; [apply Hstep |].
    apply IH. intros m'.
    unfold genMovesFromTargets. rewrite !in_app_iff, Hstep. tauto.
Qed.

Section PieceSamples.
#[local] Existing Instance sampleKeys.

Lemma knightMoves_exactly_witness :
  In (mkMove 1 18) (knightMoves startPosition [] everything everything)
  <-> In (mkMove 1 18) []
      \/ movesBy startPosition (Knights (ourBitboards startPosition))
                 knightMasks everything everything (mkMove 1 18).
Proof.
  apply (knightMoves_exactly startPosition [] everything everything
           (mkMove 1 18)).
  vm_compute. split; [discriminate | reflexivity].
Defined.

Lemma slider_moves_exactly_witness :
  (In (mkMove 0 8) (rookMoves kiwipete [] everything everything)
   <-> In (mkMove 0 8) []
       \/ movesBy kiwipete (Rooks (ourBitboards kiwipete))
                  (fun f => CalculateRookMoveBitboard f (occupied kiwipete))
                  everything everything (mkMove 0 8))
  /\ (In (mkMove 0 8) (bishopMoves kiwipete [] everything everything)
      <-> In (mkMove 0 8) []
          \/ movesBy kiwipete (Bishops (ourBitboards kiwipete))
                     (fun f => CalculateBishopMoveBitboard f (occupied kiwipete))
                     everything everything (mkMove 0 8))
  /\ (In (mkMove 0 8) (queenMoves kiwipete [] everything everything)
      <-> In (mkMove 0 8) []
          \/ movesBy kiwipete (Queens (ourBitboards kiwipete))
                     (fun f =>
                        Z.lor (CalculateBishopMoveBitboard f (occupied kiwipete))
                              (CalculateRookMoveBitboard f (occupied kiwipete)))
                     everything everything (mkMove 0 8)).
Proof.
  apply (slider_moves_exactly kiwipete [] everything everything (mkMove 0 8));
    vm_compute; (split; [discriminate | reflexivity]).
Defined.

End PieceSamples.

(** ** Attacks, check and the missing king *)

Lemma OnesCount64_positive x : 0 <= x -> x <> 0 -> 1 <= OnesCount64 x.
Proof.
  intros Hx Hne. destruct x as [| p | p]; try lia.
  apply pos_popcount_pos.
Qed.

(** X19. A square below 64 is [UnderDirectAttack] exactly when a piece
    of the attacking side attacks it: a knight a knight's move away, a
    bishop or queen on an open diagonal, a rook or queen on an open rank
    or file, the king next to it, or a pawn on one of the two squares
    from which a pawn of that side captures onto it.  Stopping the count
    at the first group of attackers found, and the wrap-around of the
    8-bit square arithmetic in the pawn masks, lose and invent
    nothing. *)
Theorem UnderDirectAttack_iff_attacked (b : Board) (byBlack : bool) (o : Z) :
  0 <= o < 64 ->
  UnderDirectAttack b byBlack o = true <-> attackersOf b byBlack o <> 0.
Proof.
  intros Ho. split.
  - intros Hu Hz.
    destruct (attackersOf_groups b byBlack o Ho)
      as (Ha & H1 & H2 & H3 & H4 & H5).
    cbv zeta in Ha, H1, H2, H3, H4, H5. rewrite Ha in Hz.
    apply Z.lor_eq_0_iff in Hz. destruct Hz as [Z1 Hz].
    apply Z.lor_eq_0_iff in Hz. destruct Hz as [Z2 Hz].
    apply Z.lor_eq_0_iff in Hz. destruct Hz as [Z3 Hz].
    apply Z.lor_eq_0_iff in Hz. destruct Hz as [Z4 Z5].
    rewrite UnderDirectAttack_unfold, countAttacks_cases in Hu.
    cbv zeta in Hu. rewrite Z1, Z2, Z3, Z4, Z5 in Hu.
    change (OnesCount64 0) with 0 in Hu. vm_compute in Hu. discriminate Hu.
  - intros Hne.
    destruct (attackersOf_groups b byBlack o Ho)
      as (Ha & H1 & H2 & H3 & H4 & H5).
    cbv zeta in Ha, H1, H2, H3, H4, H5.
    assert (Hnn : 0 <= attackersOf b byBlack o).
    { rewrite Ha. repeat (apply Z.lor_nonneg; split); assumption. }
    pose proof (OnesCount64_positive _ Hnn Hne) as Hc.
    pose proof (countAttacks_reaches b byBlack o 1 Ho Hc) as Hr.
    rewrite UnderDirectAttack_unfold. revert Hr.
    generalize (fst (countAttacks b byBlack o 1)). intros x Hx.
    destruct (Z.geb_spec x 1); [reflexivity | lia].
Qed.

Lemma OurKingInCheck_unfold b :
  OurKingInCheck b
  = (fst (countAttacks b (isWhite (Colortomove b))
            (TrailingZeros64 (Kings (ourBitboards b))) 1) >=? 1).
Proof. reflexivity. Qed.

(** The verdict "at least one attacker" does not depend on where the
    count stops. *)
Lemma countAttacks_any b byBlack o n :
  1 <= n ->
  (fst (countAttacks b byBlack o n) >=? 1)
  = (fst (countAttacks b byBlack o 1) >=? 1).
Proof.
  intros Hn. rewrite !countAttacks_cases. cbv zeta.
  repeat match goal with
         | |- context [OnesCount64 ?x] =>
             let c := fresh "c" in
             let Hc := fresh "Hc" in
             pose proof (OnesCount64_nonneg x) as Hc;
             set (c := OnesCount64 x) in *; clearbody c
         end.
  repeat match goal with
         | |- context [if ?c >=? ?k then _ else _] =>
             destruct (Z.geb_spec c k)
         end;
    repeat match goal with
           | |- context [?c >=? 1] => destruct (Z.geb_spec c 1)
           end;
    try reflexivity; lia.
Qed.

Ltac split_pairs :=
  repeat match goal with
         | |- context [let '(_, _) := ?e in _] => destruct e
         end.

Lemma GenerateLegalMoves2_cases (b : Board) (only : bool) :
  match GenerateLegalMoves2 b only with
  | None => TrailingZeros64 (Kings (ourBitboards b)) >= 64
  | Some (_, _, chk) =>
      TrailingZeros64 (Kings (ourBitboards b)) < 64
      /\ chk = (fst (countAttacks b (isWhite (Colortomove b))
                       (TrailingZeros64 (Kings (ourBitboards b))) 2) >=? 1)
  end.
Proof.
  unfold GenerateLegalMoves2, ourBitboards. cbv zeta.
  destruct (Z.geb_spec (TrailingZeros64 (Kings (bbsOf b (Colortomove b)))) 64)
    as [Hk | Hk]; [lia |].
  pose proof (countAttacks_cases b (isWhite (Colortomove b))
                (TrailingZeros64 (Kings (bbsOf b (Colortomove b)))) 2) as Hc.
  cbv zeta in Hc.
  repeat match type of Hc with
         | context [OnesCount64 ?x] =>
             let c := fresh "c" in
             let Hn := fresh "Hn" in
             pose proof (OnesCount64_nonneg x) as Hn;
             set (c := OnesCount64 x) in *; clearbody c
         end.
  destruct (countAttacks b (isWhite (Colortomove b))
              (TrailingZeros64 (Kings (bbsOf b (Colortomove b)))) 2)
    as [ka bd].
  cbn [fst] in *.
  assert (Hka : 0 <= ka).
  { rewrite Hc.
    repeat match goal with
           | |- context [if ?c >=? 2 then _ else _] => destruct (c >=? 2)
           end; lia. }
  clear Hc.
  destruct (Z.geb_spec ka 2).
  - destruct (kingPushes b [] everything) as [b1 ms].
    split; [assumption |]. destruct (Z.geb_spec ka 1); [reflexivity | lia].
  - destruct (Z.eqb_spec ka 1) as [-> | Hne].
    + split_pairs. split; [assumption | reflexivity].
    + split_pairs. split; [assumption |].
      destruct (Z.geb_spec ka 1); [lia | reflexivity].
Qed.


(** X21. Whenever [GenerateLegalMoves2] returns, the check flag it
    returns is [OurKingInCheck] of the board it was given: true exactly
    when the king of the side to move is attacked. *)
Theorem GenerateLegalMoves2_reports_check (b : Board) (only : bool) :
  match GenerateLegalMoves2 b only with
  | Some (_, _, isInCheck) => isInCheck = OurKingInCheck b
  | None => True
  end.
Proof.
  pose proof (GenerateLegalMoves2_cases b only) as H.
  destruct (GenerateLegalMoves2 b only) as [[[b1 ms] chk] |]; [| exact I].
  destruct H as [_ ->]. rewrite OurKingInCheck_unfold.
  apply countAttacks_any. lia.
Qed.

Section AttackSamples.
#[local] Existing Instance sampleKeys.

Lemma UnderDirectAttack_iff_attacked_witness :
  UnderDirectAttack doubleCheck true 4 = true
  <-> attackersOf doubleCheck true 4 <> 0.
Proof. apply (UnderDirectAttack_iff_attacked doubleCheck true 4). lia. Defined.


End AttackSamples.

(** ** Castling moves *)

Lemma land_bits_zero2 x p q :
  0 <= p < 64 -> 0 <= q < 64 ->
  (Z.land x (Z.lor (bit p) (bit q)) =? 0)
  = negb (Z.testbit x p) && negb (Z.testbit x q).
Proof.
  intros Hp Hq.
  destruct (Z.eqb_spec (Z.land x (Z.lor (bit p) (bit q))) 0) as [H0 | Hn].
  - assert (Hb : forall i, Z.testbit (Z.land x (Z.lor (bit p) (bit q))) i
                           = false) by (intros; rewrite H0; apply Z.bits_0).
    pose proof (Hb p) as H1. pose proof (Hb q) as H2.
    rewrite Z.land_spec, Z.lor_spec, !testbit_bit in H1, H2 by lia.
    rewrite Z.eqb_refl in H1, H2.
    destruct (Z.ltb_spec p 64), (Z.ltb_spec q 64); try lia.
    cbn [andb orb] in H1, H2. rewrite orb_true_r in H2.
    rewrite andb_true_r in H1, H2. rewrite H1, H2. reflexivity.
  - symmetry. apply not_true_is_false. intros H. apply Hn.
    apply andb_true_iff in H. destruct H as [H1 H2].
    apply negb_true_iff in H1, H2.
    apply Z.bits_inj'. intros i Hi.
    rewrite Z.land_spec, Z.lor_spec, !testbit_bit, Z.bits_0 by lia.
    destruct (Z.eqb_spec i p) as [-> | ?]; [rewrite H1; reflexivity |].
    destruct (Z.eqb_spec i q) as [-> | ?]; [rewrite H2; reflexivity |].
    apply andb_false_r.
Qed.

Lemma land_bits_zero3 x p q r :
  0 <= p < 64 -> 0 <= q < 64 -> 0 <= r < 64 ->
  (Z.land x (Z.lor (Z.lor (bit p) (bit q)) (bit r)) =? 0)
  = negb (Z.testbit x p) && negb (Z.testbit x q) && negb (Z.testbit x r).
Proof.
  intros Hp Hq Hr.
  destruct (Z.eqb_spec (Z.land x (Z.lor (Z.lor (bit p) (bit q)) (bit r))) 0)
    as [H0 | Hn].
  - assert (Hb : forall i,
              Z.testbit (Z.land x (Z.lor (Z.lor (bit p) (bit q)) (bit r))) i
              = false) by (intros; rewrite H0; apply Z.bits_0).
    pose proof (Hb p) as H1. pose proof (Hb q) as H2. pose proof (Hb r) as H3.
    rewrite Z.land_spec, !Z.lor_spec, !testbit_bit in H1, H2, H3 by lia.
    rewrite Z.eqb_refl in H1, H2, H3.
    destruct (Z.ltb_spec p 64), (Z.ltb_spec q 64), (Z.ltb_spec r 64); try lia.
    cbn [andb orb] in H1, H2, H3.
    rewrite ?orb_true_r in H2, H3. cbn [orb] in H2, H3.
    rewrite andb_true_r in H1, H2, H3. rewrite H1, H2, H3. reflexivity.
  - symmetry. apply not_true_is_false. intros H. apply Hn.
    rewrite !andb_true_iff, !negb_true_iff in H. destruct H as [[H1 H2] H3].
    apply Z.bits_inj'. intros i Hi.
    rewrite Z.land_spec, !Z.lor_spec, !testbit_bit, Z.bits_0 by lia.
    destruct (Z.eqb_spec i p) as [-> | ?]; [rewrite H1; reflexivity |].
    destruct (Z.eqb_spec i q) as [-> | ?]; [rewrite H2; reflexivity |].
    destruct (Z.eqb_spec i r) as [-> | ?]; [rewrite H3; reflexivity |].
    apply andb_false_r.
Qed.

Lemma anyUnderDirectAttack_two b byBlack p q :
  anyUnderDirectAttack b byBlack [p; q]
  = UnderDirectAttack b byBlack p || UnderDirectAttack b byBlack q.
Proof. unfold anyUnderDirectAttack. cbn [existsb]. rewrite orb_false_r. reflexivity. Qed.

Lemma kingMoves_moves b moveList allowDest includeCastling :
  exists castles,
    snd (kingMoves b moveList allowDest includeCastling)
    = snd (kingPushes b (moveList ++ castles) allowDest)
    /\ castles
       = if includeCastling then
           let c := Colortomove b in
           let k := TrailingZeros64 (Kings (ourBitboards b)) in
           let h := homeSquare c in
           (if canCastle b c Kingside
               && (Z.land (occupied b) (Z.lor (bit (h + 1)) (bit (h + 2))) =? 0)
               && negb (anyUnderDirectAttack b (isWhite c) [h + 1; h + 2])
            then [mkMove (Square k) (Square (wrap8 (k + 2)))] else [])
           ++ (if canCastle b c Queenside
                  && (Z.land (occupied b)
                        (Z.lor (Z.lor (bit (h - 1)) (bit (h - 2))) (bit (h - 3)))
                      =? 0)
                  && negb (anyUnderDirectAttack b (isWhite c) [h - 2; h - 1])
               then [mkMove (Square k) (Square (wrap8 (k - 2)))] else [])
         else [].
Proof.
  eexists. split; [| reflexivity].
  unfold kingMoves, occupied, ourBitboards. cbv zeta.
  destruct includeCastling; [| rewrite app_nil_r; reflexivity].
  destruct (Colortomove b) eqn:Hc; cbn [homeSquare isWhite ColorT_eqb].
  - change (4 + 1) with 5. change (4 + 2) with 6. change (4 - 1) with 3.
    change (4 - 2) with 2. change (4 - 3) with 1.
    destruct (canCastle b White Kingside && _ && _),
             (canCastle b White Queenside && _ && _);
      rewrite <- ?app_assoc, ?app_nil_r; reflexivity.
  - change (60 + 1) with 61. change (60 + 2) with 62. change (60 - 1) with 59.
    change (60 - 2) with 58. change (60 - 3) with 57.
    rewrite (Z.lor_comm (bit 59) (bit 58)).
    rewrite <- (Z.lor_assoc (bit 58) (bit 59) (bit 57)).
    rewrite (Z.lor_comm (bit 59) (bit 57)).
    rewrite (Z.lor_assoc (bit 58) (bit 57) (bit 59)).
    rewrite (Z.lor_comm (bit 58) (bit 57)).
    destruct (canCastle b Black Kingside && _ && _),
             (canCastle b Black Queenside && _ && _);
      rewrite <- ?app_assoc, ?app_nil_r; reflexivity.
Qed.

Lemma king_step_not_two c :
  Z.testbit (kingMasks (homeSquare c)) (homeSquare c + 2) = false
  /\ Z.testbit (kingMasks (homeSquare c)) (homeSquare c - 2) = false
  /\ To (mkMove (homeSquare c) (homeSquare c + 2)) = homeSquare c + 2
  /\ To (mkMove (homeSquare c) (homeSquare c - 2)) = homeSquare c - 2.
Proof. destruct c; vm_compute; auto. Qed.

(** X22. With the king of the side to move on its home square (e1 or
    e8), [kingMoves] returns the king-side castle move (king two files
    toward the h-file) exactly when castling is asked for, the king-side
    right is held, the two squares between king and rook are empty and
    neither of them is under attack; and the queen-side castle move
    exactly when castling is asked for, the queen-side right is held,
    the three squares between king and rook are empty and the two the
    king crosses are not under attack.  Whether the king itself is in
    check is not looked at. *)
Theorem kingMoves_castles (b : Board) (allowDest : Z) (includeCastling : bool) :
  let c := Colortomove b in
  let k := homeSquare c in
  TrailingZeros64 (Kings (ourBitboards b)) = k ->
  (In (mkMove k (k + 2)) (snd (kingMoves b [] allowDest includeCastling))
   <-> includeCastling = true
       /\ canCastle b c Kingside = true
       /\ Z.testbit (occupied b) (k + 1) = false
       /\ Z.testbit (occupied b) (k + 2) = false
       /\ UnderDirectAttack b (isWhite c) (k + 1) = false
       /\ UnderDirectAttack b (isWhite c) (k + 2) = false)
  /\ (In (mkMove k (k - 2)) (snd (kingMoves b [] allowDest includeCastling))
      <-> includeCastling = true
          /\ canCastle b c Queenside = true
          /\ Z.testbit (occupied b) (k - 1) = false
          /\ Z.testbit (occupied b) (k - 2) = false
          /\ Z.testbit (occupied b) (k - 3) = false
          /\ UnderDirectAttack b (isWhite c) (k - 1) = false
          /\ UnderDirectAttack b (isWhite c) (k - 2) = false).
Proof.
  intros c k Hk.
  assert (Hkr : 0 <= TrailingZeros64 (Kings (ourBitboards b)) < 64)
    by (rewrite Hk; unfold k; destruct c; cbn; lia).
  destruct (kingMoves_moves b [] allowDest includeCastling) as (cs & -> & Hcs).
  cbn [app] in *.
  destruct (king_step_not_two c) as (N1 & N2 & T1 & T2). fold k in N1, N2, T1, T2.
  assert (Hpush : forall m,
            In m (snd (kingPushes b cs allowDest))
            <-> In m cs \/ In m (snd (kingPushes b [] allowDest))).
  { intros m. rewrite !kingPushes_moves. cbv zeta. cbn [app].
    apply in_app_iff. }
  assert (Hno : forall m,
            Z.testbit (kingMasks k) (To m) = false ->
            ~ In m (snd (kingPushes b [] allowDest))).
  { intros m Hm Hin.
    destruct (kingPushes_sound b [] allowDest m Hkr Hin)
      as [[] | (_ & _ & H3 & _)].
    rewrite Hk in H3. congruence. }
  assert (Hcs2 : forall m,
            In m (snd (kingPushes b cs allowDest)) ->
            Z.testbit (kingMasks k) (To m) = false -> In m cs).
  { intros m Hin Hm. apply Hpush in Hin. destruct Hin as [H | H];
      [exact H | exfalso; exact (Hno m Hm H)]. }
  assert (Hin1 : In (mkMove k (k + 2)) (snd (kingPushes b cs allowDest))
                 <-> In (mkMove k (k + 2)) cs).
  { split; [intros H; apply Hcs2; [exact H | rewrite T1; exact N1]
           | intros H; apply Hpush; left; exact H]. }
  assert (Hin2 : In (mkMove k (k - 2)) (snd (kingPushes b cs allowDest))
                 <-> In (mkMove k (k - 2)) cs).
  { split; [intros H; apply Hcs2; [exact H | rewrite T2; exact N2]
           | intros H; apply Hpush; left; exact H]. }
  rewrite Hin1, Hin2. clear Hin1 Hin2 Hcs2 Hno Hpush N1 N2 T1 T2.
  subst cs. cbv zeta. rewrite Hk. fold c. fold k.
  destruct includeCastling;
    [| cbn [In]; split; (split; [tauto | intros (H & _); discriminate])].
  rewrite !anyUnderDirectAttack_two.
  assert (Hks : 3 <= k <= 61) by (unfold k; destruct c; cbn; lia).
  rewrite land_bits_zero2, land_bits_zero3 by lia.
  assert (Hm1 : mkMove (Square k) (Square (wrap8 (k + 2))) = mkMove k (k + 2))
    by (unfold k; destruct c; reflexivity).
  assert (Hm2 : mkMove (Square k) (Square (wrap8 (k - 2))) = mkMove k (k - 2))
    by (unfold k; destruct c; reflexivity).
  assert (Hd : mkMove k (k + 2) <> mkMove k (k - 2))
    by (unfold k; destruct c; vm_compute; discriminate).
  rewrite Hm1, Hm2.
  generalize dependent (mkMove k (k + 2)).
  generalize dependent (mkMove k (k - 2)).
  intros mq _ mk _ Hd.
  destruct (canCastle b c Kingside), (canCastle b c Queenside),
    (Z.testbit (occupied b) (k + 1)), (Z.testbit (occupied b) (k + 2)),
    (Z.testbit (occupied b) (k - 1)), (Z.testbit (occupied b) (k - 2)),
    (Z.testbit (occupied b) (k - 3)),
    (UnderDirectAttack b (isWhite c) (k + 1)),
    (UnderDirectAttack b (isWhite c) (k + 2)),
    (UnderDirectAttack b (isWhite c) (k - 1)),
    (UnderDirectAttack b (isWhite c) (k - 2));
    cbn [andb negb orb app In];
    split; split; intros H; repeat split; try reflexivity;
      try (destruct H as (_ & H1 & H2 & H3 & H4 & H5 & H6); discriminate);
      try (destruct H as (_ & H1 & H2 & H3 & H4 & H5); discriminate);
      try (destruct H as [H | H]; [congruence | destruct H]);
      try (destruct H as [H | [H | H]]; try congruence; try destruct H);
      try (destruct H as []);
      auto.
Qed.

Section CastleSamples.
#[local] Existing Instance sampleKeys.

Lemma kingMoves_castles_witness :
  let b := kiwipete in
  let c := Colortomove b in
  let k := homeSquare c in
  (In (mkMove k (k + 2)) (snd (kingMoves b [] everything true))
   <-> true = true
       /\ canCastle b c Kingside = true
       /\ Z.testbit (occupied b) (k + 1) = false
       /\ Z.testbit (occupied b) (k + 2) = false
       /\ UnderDirectAttack b (isWhite c) (k + 1) = false
       /\ UnderDirectAttack b (isWhite c) (k + 2) = false)
  /\ (In (mkMove k (k - 2)) (snd (kingMoves b [] everything true))
      <-> true = true
          /\ canCastle b c Queenside = true
          /\ Z.testbit (occupied b) (k - 1) = false
          /\ Z.testbit (occupied b) (k - 2) = false
          /\ Z.testbit (occupied b) (k - 3) = false
          /\ UnderDirectAttack b (isWhite c) (k - 1) = false
          /\ UnderDirectAttack b (isWhite c) (k - 2) = false).
Proof.
  apply (kingMoves_castles kiwipete everything true). vm_compute. reflexivity.
Defined.

End CastleSamples.

(** ** Pawn pushes *)

Lemma onlyRank_bit r t :
  0 <= t < 64 -> Z.testbit (onlyRank r) t = (rankOf t =? r).
Proof.
  intros Ht. unfold onlyRank. rewrite testbit_bbOf.
  destruct (Z.leb_spec 0 t), (Z.ltb_spec t 64); try lia. reflexivity.
Qed.

Lemma free_bit b t :
  0 <= t < 64 ->
  Z.testbit (Z.land (not64 (All (bbsOf b White)))
                    (not64 (All (bbsOf b Black)))) t
  = negb (Z.testbit (occupied b) t).
Proof.
  intros Ht. unfold occupied.
  rewrite Z.land_spec, !testbit_not64, Z.lor_spec.
  destruct (Z.leb_spec 0 t), (Z.ltb_spec t 64); try lia.
  cbn [andb]. btauto.
Qed.

(** X23. The two bitboards of [pawnPushBitboards], bit by bit: a square
    is a single-push target iff it is empty and the square one rank
    back holds a pawn of the side to move that is marked [nonpinned]; it
    is a double-push target iff it is empty, lies on the fourth rank of
    the side to move and the square one rank back is a single-push
    target. *)
Theorem pawnPushBitboards_bits (b : Board) (nonpinned t : Z) :
  0 <= t < 64 ->
  let c := Colortomove b in
  let back := oneRankBacks c in
  Z.testbit (fst (pawnPushBitboards b nonpinned)) t
  = Z.testbit (Pawns (ourBitboards b)) (t + back)
    && Z.testbit nonpinned (t + back)
    && negb (Z.testbit (occupied b) t)
  /\ Z.testbit (snd (pawnPushBitboards b nonpinned)) t
     = Z.testbit (fst (pawnPushBitboards b nonpinned)) (t + back)
       && (rankOf t =? doublePushRank c)
       && negb (Z.testbit (occupied b) t).
Proof.
  intros Ht c back. pose proof (free_bit b t Ht) as Hfree.
  unfold back, c, pawnPushBitboards, ourBitboards. cbv zeta.
  set (free := Z.land (not64 (All (bbsOf b White)))
                      (not64 (All (bbsOf b Black)))) in *.
  destruct (Colortomove b); cbn [fst snd oneRankBacks doublePushRank];
    replace (t + -8) with (t - 8) by lia;
    repeat (rewrite ?Z.land_spec, ?onlyRank_bit by assumption;
            rewrite ?testbit_shl64, ?testbit_shr64 by lia);
    rewrite Hfree;
    destruct (Z.ltb_spec t 64); try lia;
    destruct (Z.ltb_spec (t - 8) 64); try lia; cbn [andb];
    split; reflexivity.
Qed.

Lemma pawnPushBitboards_range b nonpinned :
  0 <= fst (pawnPushBitboards b nonpinned) < 2 ^ 64
  /\ 0 <= snd (pawnPushBitboards b nonpinned) < 2 ^ 64.
Proof.
  unfold pawnPushBitboards. cbv zeta.
  destruct (Colortomove b); cbn [fst snd]; split;
    apply land_range_r, land_range, not64_range.
Qed.

Lemma fold_left_app_each {A B} (g : B -> list A) (l : list B) : forall ml,
  fold_left (fun ml x => ml ++ g x) l ml = ml ++ flat_map g l.
Proof.
  induction l as [| x l IH]; intros ml; cbn [fold_left flat_map].
  - rewrite app_nil_r. reflexivity.
  - rewrite IH, app_assoc. reflexivity.
Qed.

(** X24. [pawnPushes] appends exactly the pawn pushes: for every
    single-push target in [allowDest] the move from the square one rank
    back - on the last rank the four promotion moves instead, to knight,
    bishop, rook and queen - and for every double-push target in
    [allowDest] the move from the square two ranks back. *)
Theorem pawnPushes_exactly (b : Board) (moveList : list Move)
  (nonpinned allowDest : Z) (m : Move) :
  let c := Colortomove b in
  let back := oneRankBacks c in
  let single := fst (pawnPushBitboards b nonpinned) in
  let double := snd (pawnPushBitboards b nonpinned) in
  In m (pawnPushes b moveList nonpinned allowDest)
  <-> In m moveList
      \/ (exists t, 0 <= t < 64
                    /\ Z.testbit single t = true
                    /\ Z.testbit allowDest t = true
                    /\ In m (if canPromoteAt c t
                             then promoMoves (moveOfInts (t + back) t)
                             else [moveOfInts (t + back) t]))
      \/ (exists t, 0 <= t < 64
                    /\ Z.testbit double t = true
                    /\ Z.testbit allowDest t = true
                    /\ m = moveOfInts (t + 2 * back) t).
Proof.
  intros c back single double.
  destruct (pawnPushBitboards_range b nonpinned) as [Hs Hd].
  fold single in Hs. fold double in Hd.
  unfold pawnPushes.
  rewrite (surjective_pairing (pawnPushBitboards b nonpinned)).
  fold single double. cbv zeta. fold c. fold back.
  rewrite (fold_left_app_each
             (fun doubleTarget => [moveOfInts (doubleTarget + 2 * back)
                                              doubleTarget])).
  rewrite (fold_left_pointwise _
             (fun ml target =>
                ml ++ (if canPromoteAt c target
                       then promoMoves (moveOfInts (target + back) target)
                       else [moveOfInts (target + back) target])))
    by (intros a x; destruct (canPromoteAt c x); reflexivity).
  rewrite (fold_left_app_each
             (fun target =>
                if canPromoteAt c target
                then promoMoves (moveOfInts (target + back) target)
                else [moveOfInts (target + back) target])).
  rewrite !in_app_iff, !in_flat_map.
  assert (Hsq : forall x t, 0 <= x < 2 ^ 64 ->
            In t (squaresOf (Z.land x allowDest))
            <-> 0 <= t < 64 /\ Z.testbit x t = true
                /\ Z.testbit allowDest t = true).
  { intros x t Hx. rewrite squaresOf_spec by (apply land_range; exact Hx).
    rewrite Z.land_spec, andb_true_iff. tauto. }
  split.
  - intros [[H | (t & Ht & Hm)] | (t & Ht & Hm)].
    + left. exact H.
    + right. left. exists t. apply Hsq in Ht; [| exact Hs]. tauto.
    + right. right. exists t. apply Hsq in Ht; [| exact Hd].
      destruct Hm as [<- | []]. tauto.
  - intros [H | [(t & Hr & H1 & H2 & Hm) | (t & Hr & H1 & H2 & ->)]].
    + left. left. exact H.
    + left. right. exists t. split; [apply Hsq; auto | exact Hm].
    + right. exists t. split; [apply Hsq; auto | left; reflexivity].
Qed.

Section PawnSamples.
#[local] Existing Instance sampleKeys.

Lemma pawnPushBitboards_bits_witness :
  let b := startPosition in
  let c := Colortomove b in
  let back := oneRankBacks c in
  Z.testbit (fst (pawnPushBitboards b everything)) 20
  = Z.testbit (Pawns (ourBitboards b)) (20 + back)
    && Z.testbit everything (20 + back)
    && negb (Z.testbit (occupied b) 20)
  /\ Z.testbit (snd (pawnPushBitboards b everything)) 20
     = Z.testbit (fst (pawnPushBitboards b everything)) (20 + back)
       && (rankOf 20 =? doublePushRank c)
       && negb (Z.testbit (occupied b) 20).
Proof. apply (pawnPushBitboards_bits startPosition everything 20). lia. Defined.

End PawnSamples.

(** ** Pawn captures onto the en-passant square *)

Lemma snd_epProbe b move :
  snd (epProbe b move) = OurKingInCheck (epApply b move).
Proof. reflexivity. Qed.

Lemma captureStepMoves_unfold b dir t :
  captureStepMoves b dir t
  = if (wrap8 t =? enpassant b) && negb (enpassant b =? 0)
       && OurKingInCheck (epApply b (captureMove (Colortomove b) dir t))
    then []
    else if canPromoteAt (Colortomove b) t
    then promoMoves (captureMove (Colortomove b) dir t)
    else [captureMove (Colortomove b) dir t].
Proof. reflexivity. Qed.

Lemma pawnCaptureStep_moves dir b moveList t :
  snd (pawnCaptureStep dir (b, moveList) t)
  = moveList ++ captureStepMoves b dir t.
Proof.
  rewrite pawnCaptureStep_unfold. cbv zeta. cbn [snd].
  rewrite captureStepMoves_unfold, snd_epProbe.
  generalize (OurKingInCheck
                (epApply b (captureMove (Colortomove b) dir t))).
  intros kc.
  destruct ((wrap8 t =? enpassant b) && negb (enpassant b =? 0) && kc);
    [symmetry; apply app_nil_r |].
  destruct (canPromoteAt (Colortomove b) t); reflexivity.
Qed.

Lemma fold_captures_moves dir b (l : list Z) :
  (forall y x, In x l -> fst (pawnCaptureStep dir (b, y) x) = b) ->
  forall moveList,
    fold_left (pawnCaptureStep dir) l (b, moveList)
    = (b, moveList ++ flat_map (captureStepMoves b dir) l).
Proof.
  induction l as [| x l IH]; intros H moveList; cbn [fold_left flat_map].
  - rewrite app_nil_r. reflexivity.
  - assert (Hx : fst (pawnCaptureStep dir (b, moveList) x) = b)
      by (apply H; left; reflexivity).
    pose proof (pawnCaptureStep_moves dir b moveList x) as Hm.
    destruct (pawnCaptureStep dir (b, moveList) x) as [b1 ml1].
    cbn [fst snd] in Hx, Hm. subst b1 ml1.
    rewrite IH by (intros; apply H; right; assumption).
    rewrite app_assoc. reflexivity.
Qed.

Lemma pawn_geometry_checked :
  forallb (fun f =>
     forallb (fun t =>
        forallb (fun c =>
           Bool.eqb (pawnAttacks c f t)
             (((f =? captureOrigin c 0 t) && negb (fileOf t =? wrapFile c 0))
              || ((f =? captureOrigin c 1 t)
                  && negb (fileOf t =? wrapFile c 1))))
          [White; Black])
       allSquares)
    allSquares = true.
Proof. vm_compute. reflexivity. Qed.

Lemma pawnAttacks_directions c f t :
  0 <= f < 64 -> 0 <= t < 64 ->
  pawnAttacks c f t = true
  <-> exists dir, (dir = 0 \/ dir = 1)
                  /\ f = captureOrigin c dir t
                  /\ fileOf t <> wrapFile c dir.
Proof.
  intros Hf Ht.
  pose proof (forall_squares2 _ pawn_geometry_checked f t Hf Ht) as H.
  rewrite forallb_forall in H.
  assert (Hc : In c [White; Black]) by (destruct c; cbn; auto).
  specialize (H c Hc). apply eqb_prop in H. rewrite H.
  rewrite orb_true_iff, !andb_true_iff, !negb_true_iff, !Z.eqb_eq, !Z.eqb_neq.
  split.
  - intros [[H1 H2] | [H1 H2]]; [exists 0 | exists 1]; auto.
  - intros (dir & [-> | ->] & H1 & H2); auto.
Qed.

Section EnPassant.
Variable b : Board.
Hypothesis Hc : consistent b.
Hypothesis Hep : enpassant b <> 0.

Let c := Colortomove b.
Let ep := enpassant b.

Lemma ep_in_range :
  0 <= ep < 64 /\ canPromoteAt c ep = false /\ wrap8 ep = ep /\ (ep >? 0) = true.
Proof.
  destruct (cons_ep b Hc Hep) as (Hr & _). unfold ep, c, wrap8, canPromoteAt.
  destruct (Colortomove b); rewrite Z.mod_small by lia;
    repeat split; try lia;
    try (rewrite Z.geb_leb; apply Z.leb_gt; lia);
    try (apply Z.leb_gt; lia);
    apply Z.gtb_lt; lia.
Qed.

Lemma pawnCaptures_moves moveList nonpinned allowDest :
  let ad := if enpassant b >? 0 then Z.lor allowDest (bit (enpassant b))
            else allowDest in
  pawnCaptures b moveList nonpinned allowDest
  = (b, (moveList
         ++ flat_map (captureStepMoves b 0)
                     (squaresOf (Z.land (dirBoard b nonpinned 0) ad)))
        ++ flat_map (captureStepMoves b 1)
                    (squaresOf (Z.land (dirBoard b nonpinned 1) ad))).
Proof.
  intros ad. rewrite pawnCaptures_unfold. cbv zeta. fold ad.
  rewrite fold_captures_moves.
  - apply fold_captures_moves. intros y x Hx.
    apply (pawnCaptureStep_board b Hc nonpinned ad 1); [right; reflexivity | exact Hx].
  - intros y x Hx.
    apply (pawnCaptureStep_board b Hc nonpinned ad 0); [left; reflexivity | exact Hx].
Qed.

Lemma captureStepMoves_decode dir t m' :
  0 <= t < 64 -> 0 <= captureOrigin c dir t < 64 ->
  In m' (captureStepMoves b dir t) ->
  From m' = captureOrigin c dir t /\ To m' = t.
Proof.
  intros Ht Ho Hm'.
  destruct (captureMove_decode c dir t Ht Ho) as (HF & HT & HS & HM).
  rewrite captureStepMoves_unfold in Hm'. fold c in Hm'.
  revert Hm'.
  generalize (OurKingInCheck (epApply b (captureMove c dir t))).
  intros kc Hm'.
  assert (Hen : In m' (encodings (captureOrigin c dir t) t)).
  { destruct ((wrap8 t =? enpassant b) && negb (enpassant b =? 0) && kc);
      [destruct Hm' |].
    rewrite HM in Hm'. unfold encodings. cbn [app].
    destruct (canPromoteAt c t).
    - right. right. apply in_or_app. left. exact Hm'.
    - destruct Hm' as [<- | []]. left. reflexivity. }
  destruct (encodings_decode _ _ m' Ho Ht Hen) as (? & ? & _). auto.
Qed.

(** The iteration at [t] in direction [dir] appends the capture from
    [f] onto the en-passant square exactly when [t] is that square, the
    pawn comes from [f] and the provisional capture leaves the king
    safe. *)
Lemma captureStepMoves_ep nonpinned ad dir t f :
  dir = 0 \/ dir = 1 -> 0 <= f < 64 ->
  In t (squaresOf (Z.land (dirBoard b nonpinned dir) ad)) ->
  In (mkMove f ep) (captureStepMoves b dir t) ->
  t = ep /\ f = captureOrigin c dir ep
  /\ OurKingInCheck (epApply b (mkMove f ep)) = false.
Proof.
  intros Hd Hf Hin Hm. destruct ep_in_range as (Her & Hnp & Hw & _).
  apply squaresOf_spec in Hin; [| apply land_range, dirBoard_range].
  destruct Hin as [Ht Hb]. rewrite Z.land_spec in Hb.
  apply andb_true_iff in Hb. destruct Hb as [Hb _].
  rewrite (dirBoard_bits b nonpinned dir t Hd Ht) in Hb.
  rewrite !andb_true_iff, Z.land_spec, andb_true_iff in Hb.
  destruct Hb as [[[Hp _] _] _].
  assert (Ho : 0 <= captureOrigin c dir t < 64).
  { apply (testbit_true_range (Pawns (ourBitboards b))); [| exact Hp].
    apply (cons_kind_range b Hc _ Pawn). }
  destruct (captureMove_decode c dir t Ht Ho) as (HF & HT & HS & HM).
  destruct (mkMove_word f ep Hf Her) as (H1 & H2 & _).
  destruct (captureStepMoves_decode dir t _ Ht Ho Hm) as [Hfrom Hto].
  rewrite H1 in Hfrom. rewrite H2 in Hto.
  subst t. split; [reflexivity |]. split; [exact Hfrom |].
  rewrite captureStepMoves_unfold in Hm. fold c ep in Hm.
  rewrite Hw, Z.eqb_refl in Hm.
  destruct (Z.eqb_spec ep 0) as [E0 | _]; [unfold ep in E0; congruence |].
  change (negb false) with true in Hm. rewrite !andb_true_l in Hm.
  rewrite HM, <- Hfrom in Hm.
  revert Hm. generalize (OurKingInCheck (epApply b (mkMove f ep))).
  intros kc Hm. destruct kc; [destruct Hm | reflexivity].
Qed.

Lemma captureStepMoves_ep_safe dir f :
  0 <= f < 64 -> f = captureOrigin c dir ep ->
  OurKingInCheck (epApply b (mkMove f ep)) = false ->
  In (mkMove f ep) (captureStepMoves b dir ep).
Proof.
  intros Hf Ho Hsafe. destruct ep_in_range as (Her & Hnp & Hw & _).
  assert (Ho' : 0 <= captureOrigin c dir ep < 64) by (rewrite <- Ho; exact Hf).
  destruct (captureMove_decode c dir ep Her Ho') as (_ & _ & _ & HM).
  rewrite captureStepMoves_unfold. fold c ep.
  rewrite Hw, Z.eqb_refl, HM, <- Ho, Hsafe, Hnp.
  rewrite andb_false_r. left. reflexivity.
Qed.

(** X26. On a board that satisfies the position invariants and has an
    en-passant square, [pawnCaptures] hands the board back as it was
    given, and for a pawn that is not marked as pinned it appends the
    capture onto the en-passant square if and only if the capture,
    tried on the bitboards (capturing pawn off its origin and onto the
    en-passant square, captured pawn off the square behind it), leaves
    the king of the side to move out of check.  [allowDest] does not
    restrict this capture. *)
Theorem pawnCaptures_en_passant (nonpinned allowDest f : Z) :
  0 <= f < 64 ->
  fst (pawnCaptures b [] nonpinned allowDest) = b
  /\ (In (mkMove f ep) (snd (pawnCaptures b [] nonpinned allowDest))
      <-> Z.testbit (Pawns (ourBitboards b)) f = true
          /\ Z.testbit nonpinned f = true
          /\ pawnAttacks c f ep = true
          /\ OurKingInCheck (epApply b (mkMove f ep)) = false).
Proof.
  intros Hf. destruct ep_in_range as (Her & Hnp & Hw & Hpos).
  split; [apply (pawnCaptures_board b Hc) |].
  - rewrite pawnCaptures_moves. cbv zeta. cbn [snd app].
    fold ep. rewrite Hpos. set (ad := Z.lor allowDest (bit ep)).
    rewrite in_app_iff, !in_flat_map. split.
    + intros [(t & Ht & Hm) | (t & Ht & Hm)].
      * destruct (captureStepMoves_ep nonpinned ad 0 t f
                    (or_introl eq_refl) Hf Ht Hm) as (-> & Ho & Hs).
        apply squaresOf_spec in Ht; [| apply land_range, dirBoard_range].
        destruct Ht as [_ Hb]. rewrite Z.land_spec in Hb.
        apply andb_true_iff in Hb. destruct Hb as [Hb _].
        rewrite (dirBoard_bits b nonpinned 0 ep (or_introl eq_refl) Her) in Hb.
        rewrite !andb_true_iff, Z.land_spec, andb_true_iff in Hb.
        destruct Hb as [[[Hp Hn] Hfile] _]. fold c in Hp, Hn, Hfile.
        rewrite <- Ho in Hp, Hn. repeat split; try assumption.
        apply (pawnAttacks_directions c f ep Hf Her). exists 0.
        apply negb_true_iff, Z.eqb_neq in Hfile. auto.
      * destruct (captureStepMoves_ep nonpinned ad 1 t f
                    (or_intror eq_refl) Hf Ht Hm) as (-> & Ho & Hs).
        apply squaresOf_spec in Ht; [| apply land_range, dirBoard_range].
        destruct Ht as [_ Hb]. rewrite Z.land_spec in Hb.
        apply andb_true_iff in Hb. destruct Hb as [Hb _].
        rewrite (dirBoard_bits b nonpinned 1 ep (or_intror eq_refl) Her) in Hb.
        rewrite !andb_true_iff, Z.land_spec, andb_true_iff in Hb.
        destruct Hb as [[[Hp Hn] Hfile] _]. fold c in Hp, Hn, Hfile.
        rewrite <- Ho in Hp, Hn. repeat split; try assumption.
        apply (pawnAttacks_directions c f ep Hf Her). exists 1.
        apply negb_true_iff, Z.eqb_neq in Hfile. auto.
    + intros (Hp & Hn & Hat & Hs).
      apply (pawnAttacks_directions c f ep Hf Her) in Hat.
      destruct Hat as (dir & Hd & Ho & Hfile).
      assert (Hin : In ep (squaresOf (Z.land (dirBoard b nonpinned dir) ad))).
      { apply squaresOf_spec; [apply land_range, dirBoard_range |].
        split; [exact Her |]. rewrite Z.land_spec.
        rewrite (dirBoard_bits b nonpinned dir ep Hd Her). fold c.
        rewrite <- Ho, Z.land_spec, Hp, Hn.
        apply Z.eqb_neq in Hfile. rewrite Hfile. cbn [negb andb].
        unfold captureTargets, ad. cbv zeta. fold ep. rewrite Hpos.
        rewrite !Z.lor_spec, testbit_bit, Z.eqb_refl by lia.
        destruct (Z.ltb_spec ep 64); [| lia]. cbn [andb].
        rewrite !orb_true_r. reflexivity. }
      pose proof (captureStepMoves_ep_safe dir f Hf Ho Hs) as Hm.
      destruct Hd as [-> | ->]; [left | right]; exists ep; auto.
Qed.

End EnPassant.

Section EnPassantSamples.
#[local] Existing Instance sampleKeys.

Lemma pawnCaptures_en_passant_witness :
  let b := epOnPinLine in
  fst (pawnCaptures b [] everything everything) = b
  /\ (In (mkMove 36 (enpassant b))
         (snd (pawnCaptures b [] everything everything))
      <-> Z.testbit (Pawns (ourBitboards b)) 36 = true
          /\ Z.testbit everything 36 = true
          /\ pawnAttacks (Colortomove b) 36 (enpassant b) = true
          /\ OurKingInCheck (epApply b (mkMove 36 (enpassant b))) = false).
Proof.
  apply (pawnCaptures_en_passant epOnPinLine).
  - vm_compute. reflexivity.
  - vm_compute. discriminate.
  - lia.
Defined.

End EnPassantSamples.

(** ** What counts as a capture *)

(** X25. [IsCapture] is true exactly when the destination of the move
    holds a piece of either color, or the origin holds a pawn and the
    destination is the en-passant square of the board.  An en-passant
    square of 0 stands for "none" but is compared like any other: a
    pawn that moves to a1 (square 0) on a board without an en-passant
    square counts as a capture. *)
Theorem IsCapture_exactly (m : Move) (b : Board) :
  0 <= enpassant b ->
  IsCapture m b
  = Z.testbit (occupied b) (To m)
    || ((Z.testbit (Pawns (bbsOf b White)) (From m)
         || Z.testbit (Pawns (bbsOf b Black)) (From m))
        && (To m =? enpassant b)).
Proof.
  intros He. pose proof (To_range m) as Ht. pose proof (From_range m) as Hf.
  unfold IsCapture, occupied. cbv zeta.
  rewrite !land_bit_comm by assumption.
  rewrite testbit_bit, Z.lor_spec by assumption.
  destruct (Z.testbit (All (bbsOf b White)) (To m)),
           (Z.testbit (All (bbsOf b Black)) (To m)); cbn [orb]; try reflexivity.
  destruct (Z.eqb_spec (To m) (enpassant b)) as [E | E]; [| reflexivity].
  destruct (Z.ltb_spec (enpassant b) 64); [reflexivity | lia].
Qed.

Section CaptureSamples.
#[local] Existing Instance sampleKeys.

Lemma IsCapture_exactly_witness :
  IsCapture (mkMove 36 45) epOnPinLine
  = Z.testbit (occupied epOnPinLine) (To (mkMove 36 45))
    || ((Z.testbit (Pawns (bbsOf epOnPinLine White)) (From (mkMove 36 45))
         || Z.testbit (Pawns (bbsOf epOnPinLine Black)) (From (mkMove 36 45)))
        && (To (mkMove 36 45) =? enpassant epOnPinLine)).
Proof.
  apply (IsCapture_exactly (mkMove 36 45) epOnPinLine).
  vm_compute. discriminate.
Defined.

End CaptureSamples.

(** ** King steps *)

Lemma kingPushTargets_in b km A allowDest t :
  0 <= km < 2 ^ 64 ->
  In t (kingPushTargets b (Z.land (Z.land km (not64 A)) allowDest))
  <-> 0 <= t < 64 /\ Z.testbit km t = true /\ Z.testbit A t = false
      /\ Z.testbit allowDest t = true
      /\ UnderDirectAttack b (isWhite (Colortomove b)) t = false.
Proof.
  intros Hkm. split.
  - apply kingPushTargets_sound. exact Hkm.
  - intros (Ht & H1 & H2 & H3 & H4).
    rewrite kingPushTargets_unfold. apply filter_In. split.
    + apply squaresOf_spec; [apply land_range, land_range, Hkm |].
      split; [exact Ht |].
      rewrite !Z.land_spec, testbit_not64, H1, H2, H3.
      destruct (Z.leb_spec 0 t), (Z.ltb_spec t 64); try lia; reflexivity.
    + rewrite H4. reflexivity.
Qed.

(** X27. [kingPushes] appends exactly the king steps: from the king's
    square to an adjacent square ([kingMasks]) that holds no piece of
    the side to move, lies in [allowDest], and is not under attack on
    the board from which the king has been taken off (so that a square
    behind the king on the line of a checking slider counts as
    attacked). *)
Theorem kingPushes_exactly (b : Board) (moveList : list Move)
  (allowDest : Z) (m : Move) :
  let c := Colortomove b in
  let k := TrailingZeros64 (Kings (ourBitboards b)) in
  0 <= k < 64 ->
  In m (snd (kingPushes b moveList allowDest))
  <-> In m moveList
      \/ exists t,
           m = mkMove k t /\ 0 <= t < 64
           /\ Z.testbit (kingMasks k) t = true
           /\ Z.testbit (All (ourBitboards b)) t = false
           /\ Z.testbit allowDest t = true
           /\ UnderDirectAttack (withoutOurKing b) (isWhite c) t = false.
Proof.
  intros c k Hk. rewrite kingPushes_moves. cbv zeta. fold k.
  rewrite in_app_iff, in_map_iff, (Square_small k) by exact Hk.
  split; (intros [H | H]; [left; exact H | right]).
  - destruct H as (t & <- & Ht).
    apply kingPushTargets_in in Ht; [| apply bbOf_range].
    rewrite withoutOurKing_color in Ht. fold c in Ht.
    destruct Ht as (Hr & H1 & H2 & H3 & H4).
    exists t. rewrite Square_small by exact Hr. auto 7.
  - destruct H as (t & -> & Hr & H1 & H2 & H3 & H4).
    exists t. rewrite Square_small by exact Hr. split; [reflexivity |].
    apply kingPushTargets_in; [apply bbOf_range |].
    rewrite withoutOurKing_color. fold c. auto 7.
Qed.

Section KingSamples.
#[local] Existing Instance sampleKeys.

Lemma kingPushes_exactly_witness :
  let b := doubleCheck in
  let c := Colortomove b in
  let k := TrailingZeros64 (Kings (ourBitboards b)) in
  In (mkMove 4 12) (snd (kingPushes b [] everything))
  <-> In (mkMove 4 12) []
      \/ exists t,
           mkMove 4 12 = mkMove k t /\ 0 <= t < 64
           /\ Z.testbit (kingMasks k) t = true
           /\ Z.testbit (All (ourBitboards b)) t = false
           /\ Z.testbit everything t = true
           /\ UnderDirectAttack (withoutOurKing b) (isWhite c) t = false.
Proof.
  apply (kingPushes_exactly doubleCheck [] everything (mkMove 4 12)).
  vm_compute. split; [discriminate | reflexivity].
Defined.

End KingSamples.

(** ** Taking a move back *)

Lemma pieceOn_upd l pos v s :
  0 <= pos < Z.of_nat (List.length l) -> 0 <= s ->
  pieceOn (updNth (Z.to_nat pos) v l) s = if s =? pos then v else pieceOn l s.
Proof.
  intros Hp Hs. unfold pieceOn. destruct (Z.eqb_spec s pos) as [-> | Hne].
  - apply nth_updNth_same. lia.
  - apply nth_updNth_other. lia.
Qed.

Lemma pieces_ext (l1 l2 : list Piece) :
  List.length l1 = 64%nat -> List.length l2 = 64%nat ->
  (forall s, 0 <= s < 64 -> pieceOn l1 s = pieceOn l2 s) -> l1 = l2.
Proof.
  intros H1 H2 H. apply (nth_ext l1 l2 Nothing Nothing); [congruence |].
  intros n Hn. specialize (H (Z.of_nat n)). unfold pieceOn in H.
  rewrite Nat2Z.id in H. apply H. lia.
Qed.

Lemma PieceAt_pieceOn b s : PieceAt b s = pieceOn (pieces b) s.
Proof. reflexivity. Qed.

(** What [Restore] leaves in each field. *)
Lemma Restore_scalars b bs :
  Colortomove (Restore b bs) = oppColor (Colortomove b)
  /\ enpassant (Restore b bs) = sEnpassant bs
  /\ Halfmoveclock (Restore b bs) = sHalfmoveclock bs
  /\ castlerights (Restore b bs) = sCastlerights bs
  /\ Fullmoveno (Restore b bs)
     = wrap16 (Fullmoveno b - colorCode (oppColor (Colortomove b)))
  /\ hash (Restore b bs) = sHash bs.
Proof. repeat split; reflexivity. Qed.

Lemma Restore_our b bs :
  bbsOf (Restore b bs) (oppColor (Colortomove b))
  = setAll
      (setPieceBitboard
         (setPieceBitboard
            (setPieceBitboard (bbsOf b (oppColor (Colortomove b)))
                              (ToPiece bs) (ToBb bs))
            (FromPiece bs) (FromBb bs))
         Rook (OurRookBb bs))
      (OurAllBb bs).
Proof. destruct (Colortomove b) eqn:E; unfold Restore; rewrite E; reflexivity. Qed.

Lemma Restore_opp b bs :
  bbsOf (Restore b bs) (Colortomove b)
  = setAll (setPieceBitboard (bbsOf b (Colortomove b))
                             (CapturePiece bs) (CaptureBb bs))
           (OppAllBb bs).
Proof. destruct (Colortomove b) eqn:E; unfold Restore; rewrite E; reflexivity. Qed.

Lemma Restore_pieces b bs :
  pieces (Restore b bs)
  = let l1 := updNth (Z.to_nat (ToLoc bs)) Nothing (pieces b) in
    let l2 := updNth (Z.to_nat (CaptureLoc bs)) (CapturePiece bs) l1 in
    let l3 := updNth (Z.to_nat (FromLoc bs)) (FromPiece bs) l2 in
    let maybeRook := pieceOn l3 (OurRookTo bs) in
    updNth (Z.to_nat (OurRookFrom bs)) maybeRook
           (updNth (Z.to_nat (OurRookTo bs)) Nothing l3).
Proof. reflexivity. Qed.

Lemma kind_after_sets bb p1 v1 p2 v2 p3 v3 a k :
  pieceBitboard
    (setAll (setPieceBitboard
               (setPieceBitboard (setPieceBitboard bb p1 v1) p2 v2) p3 v3) a) k
  = if Piece_eqb k p3 then v3
    else if Piece_eqb k p2 then v2
    else if Piece_eqb k p1 then v1
    else pieceBitboard bb k.
Proof.
  rewrite pieceBitboard_setAll.
  destruct (Piece_eqb_spec k p3) as [-> | H3];
    [apply pieceBitboard_set_same |].
  rewrite pieceBitboard_set_other by congruence.
  destruct (Piece_eqb_spec k p2) as [-> | H2];
    [apply pieceBitboard_set_same |].
  rewrite pieceBitboard_set_other by congruence.
  destruct (Piece_eqb_spec k p1) as [-> | H1];
    [apply pieceBitboard_set_same |].
  apply pieceBitboard_set_other. congruence.
Qed.

Lemma kind_after_set bb p1 v1 a k :
  pieceBitboard (setAll (setPieceBitboard bb p1 v1) a) k
  = if Piece_eqb k p1 then v1 else pieceBitboard bb k.
Proof.
  rewrite pieceBitboard_setAll.
  destruct (Piece_eqb_spec k p1) as [-> | H1];
    [apply pieceBitboard_set_same |].
  apply pieceBitboard_set_other. congruence.
Qed.

Ltac upd := rewrite ?pieceOn_upd by (rewrite ?length_updNth; lia).

Lemma special_pieces_back (l0 : list Piece) (f t old new epLoc : Z)
  (castle isEp : bool) (q : Piece) :
  List.length l0 = 64%nat -> 0 <= f < 64 -> 0 <= t < 64 ->
  0 <= old < 64 -> 0 <= new < 64 -> 0 <= epLoc < 64 ->
  (castle = true ->
   isEp = false /\ pieceOn l0 old = Rook /\ pieceOn l0 new = Nothing
   /\ old <> new /\ old <> f /\ old <> t /\ new <> f /\ new <> t) ->
  (isEp = true ->
   pieceOn l0 epLoc = Pawn /\ pieceOn l0 t = Nothing /\ epLoc <> t) ->
  let p := pieceOn l0 f in
  let l3 := if castle
            then updNth (Z.to_nat new) Rook (updNth (Z.to_nat old) Nothing l0)
            else l0 in
  let l4 := if isEp then updNth (Z.to_nat epLoc) Nothing l3 else l3 in
  let cap := pieceOn l4 t in
  let isCap := negb (Piece_eqb cap Nothing) in
  let l6 := if isCap then updNth (Z.to_nat t) Nothing l4 else l4 in
  let l7 := updNth (Z.to_nat t) q (updNth (Z.to_nat f) Nothing l6) in
  let captureLoc := if isEp then epLoc else t in
  let capturePiece :=
    if isCap then cap else if isEp then Pawn else Nothing in
  let rf := if castle then old else 0 in
  let rt := if castle then new else 0 in
  let r1 := updNth (Z.to_nat t) Nothing l7 in
  let r2 := updNth (Z.to_nat captureLoc) capturePiece r1 in
  let r3 := updNth (Z.to_nat f) p r2 in
  let maybeRook := pieceOn r3 rt in
  updNth (Z.to_nat rf) maybeRook (updNth (Z.to_nat rt) Nothing r3) = l0.
Proof.
  intros Hl Hf Ht Ho Hn He Hcastle Hep p l3 l4 cap isCap l6 l7 captureLoc
    capturePiece rf rt r1 r2 r3 maybeRook.
  assert (L3 : List.length l3 = 64%nat)
    by (unfold l3; destruct castle; rewrite ?length_updNth; exact Hl).
  assert (L4 : List.length l4 = 64%nat)
    by (unfold l4; destruct isEp; rewrite ?length_updNth; exact L3).
  assert (L6 : List.length l6 = 64%nat)
    by (unfold l6; destruct isCap; rewrite ?length_updNth; exact L4).
  assert (L7 : List.length l7 = 64%nat)
    by (unfold l7; rewrite ?length_updNth; exact L6).
  assert (Lr3 : List.length r3 = 64%nat)
    by (unfold r3, r2, r1; rewrite ?length_updNth; exact L7).
  assert (Hcl : 0 <= captureLoc < 64) by (unfold captureLoc; destruct isEp; lia).
  assert (Hrf : 0 <= rf < 64) by (unfold rf; destruct castle; lia).
  assert (Hrt : 0 <= rt < 64) by (unfold rt; destruct castle; lia).
  assert (H3 : forall s, 0 <= s < 64 ->
            pieceOn l3 s
            = if castle then
                if s =? new then Rook else if s =? old then Nothing
                else pieceOn l0 s
              else pieceOn l0 s).
  { intros s Hs. unfold l3. destruct castle; [upd |]; reflexivity. }
  assert (H4 : forall s, 0 <= s < 64 ->
            pieceOn l4 s
            = if isEp then if s =? epLoc then Nothing else pieceOn l3 s
              else pieceOn l3 s).
  { intros s Hs. unfold l4. destruct isEp; [upd |]; reflexivity. }
  assert (Hcap : cap = pieceOn l0 t).
  { unfold cap. rewrite H4, H3 by lia. destruct castle, isEp;
      try (destruct (Hcastle eq_refl) as (? & ? & ? & ? & ? & ? & ? & ?));
      try (destruct (Hep eq_refl) as (? & ? & ?));
      try discriminate;
      repeat match goal with
             | |- context [?a =? ?b] => destruct (Z.eqb_spec a b)
             end; try lia; reflexivity. }
  assert (H6 : forall s, 0 <= s < 64 ->
            pieceOn l6 s
            = if isCap then if s =? t then Nothing else pieceOn l4 s
              else pieceOn l4 s).
  { intros s Hs. unfold l6. destruct isCap; [upd |]; reflexivity. }
  assert (H7 : forall s, 0 <= s < 64 ->
            pieceOn r3 s
            = if castle then
                if s =? new then Rook else if s =? old then Nothing
                else pieceOn l0 s
              else pieceOn l0 s).
  { intros s Hs. unfold r3, r2, r1, l7. upd. rewrite H6, H4, H3 by lia.
    unfold capturePiece, captureLoc, isCap. rewrite Hcap. unfold p.
    destruct castle, isEp;
      try (destruct (Hcastle eq_refl) as (? & ? & ? & ? & ? & ? & ? & ?));
      try (destruct (Hep eq_refl) as (E1 & E2 & E3));
      try discriminate;
      try rewrite E2; cbn [Piece_eqb pieceCode Z.eqb negb];
      destruct (Piece_eqb_spec (pieceOn l0 t) Nothing) as [Hc | Hc];
      cbn [negb];
      repeat match goal with
             | |- context [?a =? ?b] => destruct (Z.eqb_spec a b); subst
             end;
      try lia; try reflexivity; try congruence. }
  apply pieces_ext; [rewrite !length_updNth; exact Lr3 | exact Hl |].
  intros s Hs. upd. unfold maybeRook. rewrite !H7 by lia.
  unfold rf, rt. destruct castle.
  - destruct (Hcastle eq_refl) as (? & E1 & E2 & ? & ? & ? & ? & ?).
    rewrite Z.eqb_refl.
    destruct (Z.eqb_spec s old) as [-> | Hso]; [symmetry; exact E1 |].
    destruct (Z.eqb_spec s new) as [-> | Hsn]; [symmetry; exact E2 |].
    reflexivity.
  - destruct (Z.eqb_spec s 0) as [-> | H0]; reflexivity.
Qed.

(** The same with the tests as the code has them: [cs0] is
    [castleStatus == 0]. *)
Lemma special_pieces_restored (l0 : list Piece) (f t old new epLoc : Z)
  (cs0 isEp : bool) (q : Piece) :
  List.length l0 = 64%nat -> 0 <= f < 64 -> 0 <= t < 64 ->
  (cs0 = false ->
   0 <= old < 64 /\ 0 <= new < 64 /\ isEp = false
   /\ pieceOn l0 old = Rook /\ pieceOn l0 new = Nothing
   /\ old <> new /\ old <> f /\ old <> t /\ new <> f /\ new <> t) ->
  (isEp = true ->
   0 <= epLoc < 64 /\ pieceOn l0 epLoc = Pawn /\ pieceOn l0 t = Nothing
   /\ epLoc <> t) ->
  let p := pieceOn l0 f in
  let l3 := if cs0 then l0
            else updNth (Z.to_nat new) Rook (updNth (Z.to_nat old) Nothing l0) in
  let l4 := if isEp then updNth (Z.to_nat epLoc) Nothing l3 else l3 in
  let cap := pieceOn l4 t in
  let isCap := negb (Piece_eqb cap Nothing) in
  let l6 := if isCap then updNth (Z.to_nat t) Nothing l4 else l4 in
  let l7 := updNth (Z.to_nat t) q (updNth (Z.to_nat f) Nothing l6) in
  let captureLoc := if isEp then epLoc else t in
  let capturePiece := if isCap then cap else if isEp then Pawn else Nothing in
  let rf := if cs0 then 0 else old in
  let rt := if cs0 then 0 else new in
  let r1 := updNth (Z.to_nat t) Nothing l7 in
  let r2 := updNth (Z.to_nat captureLoc) capturePiece r1 in
  let r3 := updNth (Z.to_nat f) p r2 in
  let maybeRook := pieceOn r3 rt in
  updNth (Z.to_nat rf) maybeRook (updNth (Z.to_nat rt) Nothing r3) = l0.
Proof.
  intros Hl Hf Ht HC HE.
  assert (H0 : 0 <= 0 < 64) by lia.
  destruct cs0, isEp.
  - destruct (HE eq_refl) as (He & H1 & H2 & H3).
    apply (special_pieces_back l0 f t 0 0 epLoc false true q Hl Hf Ht H0 H0 He);
      [discriminate | intros _; auto].
  - apply (special_pieces_back l0 f t 0 0 0 false false q Hl Hf Ht H0 H0 H0);
      discriminate.
  - destruct (HC eq_refl) as (_ & _ & H & _). discriminate H.
  - destruct (HC eq_refl) as (Ho & Hn & _ & R).
    apply (special_pieces_back l0 f t old new 0 true false q Hl Hf Ht Ho Hn H0);
      [intros _; split; [reflexivity | exact R] | discriminate].
Qed.

Section TakeBack.
Context {zk : ZobristKeys}.

(** The steps that touch neither bitboards nor pieces. *)
Lemma flipCastleRights_core b c s :
  Bbs (flipCastleRights b c s) = Bbs b
  /\ pieces (flipCastleRights b c s) = pieces b.
Proof. split; reflexivity. Qed.

Lemma stripKingRights_core b :
  Bbs (stripKingRights b) = Bbs b /\ pieces (stripKingRights b) = pieces b.
Proof.
  unfold stripKingRights. destruct (weCanCastle b Kingside);
    split_ifs; split; reflexivity.
Qed.

Lemma stripRookRights_core b c fb :
  Bbs (stripRookRights b c fb) = Bbs b
  /\ pieces (stripRookRights b c fb) = pieces b.
Proof. unfold stripRookRights. split_ifs; split; reflexivity. Qed.

Lemma stripCapturedRookRights_core b c l tb :
  Bbs (stripCapturedRookRights b c l tb) = Bbs b
  /\ pieces (stripCapturedRookRights b c l tb) = pieces b.
Proof. unfold stripCapturedRookRights. split_ifs; split; reflexivity. Qed.

Lemma kindBb_same_Bbs x y col k : Bbs x = Bbs y -> kindBb x col k = kindBb y col k.
Proof. intros H. unfold kindBb, bbsOf. rewrite H. reflexivity. Qed.

(** *** The fast path *)

Lemma simpleByPiece_core b c p f t :
  Bbs (simpleByPiece b c p f t) = Bbs b
  /\ pieces (simpleByPiece b c p f t) = pieces b.
Proof.
  unfold simpleByPiece. destruct p; try (split; reflexivity).
  - cbv zeta. destruct (t + 2 * epDeltas c =? f); split; reflexivity.
  - apply stripRookRights_core.
  - apply stripKingRights_core.
Qed.

Lemma simpleCapture_pieces b oc cap t :
  pieces (simpleCapture b oc cap t)
  = if Piece_eqb cap Nothing then pieces b
    else updNth (Z.to_nat t) Nothing (pieces b).
Proof.
  unfold simpleCapture. destruct cap; cbn [Piece_eqb pieceCode Z.eqb];
    try reflexivity.
  cbv zeta.
  match goal with
  | |- context [stripCapturedRookRights ?x ?c ?l ?tb] =>
      destruct (stripCapturedRookRights_core x c l tb) as [_ ->]
  end.
  reflexivity.
Qed.

Lemma simpleCapture_kinds b oc cap t k :
  kindBb (simpleCapture b oc cap t) (oppColor oc) k = kindBb b (oppColor oc) k
  /\ (k <> cap -> kindBb (simpleCapture b oc cap t) oc k = kindBb b oc k).
Proof.
  unfold simpleCapture. destruct cap; try (split; reflexivity); cbv zeta;
    try (split; [destruct oc; reflexivity
                | intros Hk; destruct oc, k; try reflexivity; congruence]).
  match goal with
  | |- context [stripCapturedRookRights ?x ?c ?l ?tb] =>
      destruct (stripCapturedRookRights_core x c l tb) as [HB _];
      rewrite !(kindBb_same_Bbs _ _ _ _ HB); clear HB
  end.
  split; [destruct oc; reflexivity
         | intros Hk; destruct oc, k; try reflexivity; congruence].
Qed.

Lemma simpleMove_kinds b c p f t k :
  kindBb (simpleMove b c p f t) (oppColor c) k = kindBb b (oppColor c) k
  /\ (k <> p -> kindBb (simpleMove b c p f t) c k = kindBb b c k).
Proof.
  split; [destruct c; reflexivity
         | intros Hk; destruct c, p, k; try reflexivity; congruence].
Qed.

Lemma simpleMove_pieces b c p f t :
  pieces (simpleMove b c p f t)
  = updNth (Z.to_nat t) p (updNth (Z.to_nat f) Nothing (pieces b)).
Proof. reflexivity. Qed.


Lemma simpleFlip_pieces b : pieces (simpleFlip b) = pieces b.
Proof. reflexivity. Qed.

Lemma simpleEpIn_pieces b : pieces (simpleEpIn b) = pieces b.
Proof. reflexivity. Qed.

Lemma simpleFlip_kind b col k : kindBb (simpleFlip b) col k = kindBb b col k.
Proof. reflexivity. Qed.

Lemma simpleEpIn_kind b col k : kindBb (simpleEpIn b) col k = kindBb b col k.
Proof. reflexivity. Qed.

Lemma MakeSimpleMove_pieces b m :
  pieces (fst (MakeSimpleMove b m))
  = updNth (Z.to_nat (To m)) (PieceAt b (From m))
      (updNth (Z.to_nat (From m)) Nothing
         (if Piece_eqb (PieceAt b (To m)) Nothing then pieces b
          else updNth (Z.to_nat (To m)) Nothing (pieces b))).
Proof.
  unfold MakeSimpleMove. cbv zeta. cbn [fst].
  rewrite simpleFlip_pieces, simpleMove_pieces, simpleCapture_pieces,
    simpleEpIn_pieces.
  match goal with
  | |- context [simpleByPiece ?x ?c ?p ?f ?t] =>
      destruct (simpleByPiece_core x c p f t) as [_ ->]
  end.
  reflexivity.
Qed.

Lemma MakeSimpleMove_kinds b m k :
  let c := Colortomove b in
  (k <> PieceAt b (From m) ->
   kindBb (fst (MakeSimpleMove b m)) c k = kindBb b c k)
  /\ (k <> PieceAt b (To m) ->
      kindBb (fst (MakeSimpleMove b m)) (oppColor c) k
      = kindBb b (oppColor c) k).
Proof.
  intros c. unfold MakeSimpleMove. cbv zeta. cbn [fst]. fold c.
  set (p := PieceAt b (From m)). set (cap := PieceAt b (To m)).
  set (b3 := simpleByPiece _ _ _ _ _).
  assert (H3 : forall col, kindBb (simpleEpIn b3) col k = kindBb b col k).
  { intros col. unfold b3.
    match goal with
    | |- context [simpleByPiece ?x ?c ?p ?f ?t] =>
        destruct (simpleByPiece_core x c p f t) as [HB _]
    end.
    rewrite simpleEpIn_kind, (kindBb_same_Bbs _ _ _ _ HB). reflexivity. }
  set (b5 := simpleCapture (simpleEpIn b3) (oppColor c) cap (To m)).
  set (b6 := simpleMove b5 c p (From m) (To m)).
  rewrite !simpleFlip_kind.
  destruct (simpleMove_kinds b5 c p (From m) (To m) k) as [M1 M2].
  destruct (simpleCapture_kinds (simpleEpIn b3) (oppColor c) cap (To m) k)
    as [C1 C2].
  rewrite oppColor_involutive in C1. fold b5 in C1, C2. fold b6 in M1, M2.
  split; intros Hk.
  - rewrite M2, C1 by assumption. apply H3.
  - rewrite M1, C2 by assumption. apply H3.
Qed.

Lemma simple_pieces_back (l0 : list Piece) (f t : Z) :
  List.length l0 = 64%nat -> 0 <= f < 64 -> 0 <= t < 64 ->
  let p := pieceOn l0 f in
  let cap := pieceOn l0 t in
  let l := updNth (Z.to_nat t) p
             (updNth (Z.to_nat f) Nothing
                (if Piece_eqb cap Nothing then l0
                 else updNth (Z.to_nat t) Nothing l0)) in
  let l1 := updNth (Z.to_nat t) Nothing l in
  let l2 := updNth (Z.to_nat t) cap l1 in
  let l3 := updNth (Z.to_nat f) p l2 in
  let maybeRook := pieceOn l3 0 in
  updNth (Z.to_nat 0) maybeRook (updNth (Z.to_nat 0) Nothing l3) = l0.
Proof.
  intros Hl Hf Ht p cap l l1 l2 l3 maybeRook.
  assert (Hlen : List.length l3 = 64%nat).
  { unfold l3, l2, l1, l. destruct (Piece_eqb cap Nothing);
      rewrite !length_updNth; exact Hl. }
  apply pieces_ext; [rewrite !length_updNth; exact Hlen | exact Hl |].
  intros s Hs.
  rewrite !pieceOn_upd by (rewrite ?length_updNth; lia).
  assert (H3 : pieceOn l3 s = pieceOn l0 s).
  { unfold l3, l2, l1, l.
    destruct (Piece_eqb cap Nothing);
      rewrite !pieceOn_upd by (rewrite ?length_updNth; lia);
      destruct (Z.eqb_spec s f) as [-> | Hsf]; try reflexivity;
      destruct (Z.eqb_spec s t) as [-> | Hst]; reflexivity. }
  destruct (Z.eqb_spec s 0) as [-> | H0]; [| exact H3].
  unfold maybeRook. exact H3.
Qed.

Lemma wrap16_back F x :
  0 <= F < 65536 -> wrap16 (wrap16 (F + x) - x) = F.
Proof.
  intros HF. unfold wrap16. rewrite Zminus_mod_idemp_l.
  replace (F + x - x) with F by lia. apply Z.mod_small. exact HF.
Qed.

(** What has to be known of a move and its save record for [Restore] to
    give back the observable state. *)
Lemma restored_observable b b' bs :
  let c := Colortomove b in
  consistent b ->
  Colortomove b' = oppColor c ->
  Fullmoveno b' = wrap16 (Fullmoveno b + colorCode c) ->
  sEnpassant bs = enpassant b -> sHalfmoveclock bs = Halfmoveclock b ->
  sCastlerights bs = castlerights b -> sHash bs = hash b ->
  OurAllBb bs = All (bbsOf b c) ->
  OppAllBb bs = All (bbsOf b (oppColor c)) ->
  OurRookBb bs = kindBb b c Rook ->
  FromBb bs = kindBb b c (FromPiece bs) ->
  (ToPiece bs <> Rook -> ToPiece bs <> FromPiece bs ->
   ToBb bs = kindBb b c (ToPiece bs)) ->
  (forall k, k <> Rook -> k <> FromPiece bs -> k <> ToPiece bs ->
             kindBb b' c k = kindBb b c k) ->
  (CapturePiece bs <> Nothing ->
   CaptureBb bs = kindBb b (oppColor c) (CapturePiece bs)) ->
  (forall k, k <> CapturePiece bs ->
             kindBb b' (oppColor c) k = kindBb b (oppColor c) k) ->
  pieces (Restore b' bs) = pieces b ->
  sameObservable (Restore b' bs) b.
Proof.
  intros c Hc Hcol Hfm He Hh Hcr Hhash Hoa Hpa Hrk Hfb Htb Hour Hcb Hopp Hps.
  destruct (Restore_scalars b' bs) as (R1 & R2 & R3 & R4 & R5 & R6).
  destruct (cons_fields b Hc) as (_ & _ & HF & _ & _).
  assert (Hback : oppColor (Colortomove b') = c)
    by (rewrite Hcol; apply oppColor_involutive).
  assert (Hours : sameBitboards (bbsOf (Restore b' bs) c) (bbsOf b c)).
  { rewrite <- Hback at 1. rewrite Restore_our, Hback. split.
    - intros k Hk. apply in_kinds in Hk. rewrite kind_after_sets.
      destruct (Piece_eqb_spec k Rook) as [-> | H1]; [exact Hrk |].
      destruct (Piece_eqb_spec k (FromPiece bs)) as [-> | H2]; [exact Hfb |].
      destruct (Piece_eqb_spec k (ToPiece bs)) as [-> | H3];
        [apply Htb; congruence |].
      apply Hour; assumption.
    - exact Hoa. }
  assert (Hopps : sameBitboards (bbsOf (Restore b' bs) (oppColor c))
                                (bbsOf b (oppColor c))).
  { rewrite <- Hcol at 1. rewrite Restore_opp, Hcol. split.
    - intros k Hk. apply in_kinds in Hk. rewrite kind_after_set.
      destruct (Piece_eqb_spec k (CapturePiece bs)) as [-> | H1];
        [apply Hcb; exact Hk |].
      apply Hopp; assumption.
    - exact Hpa. }
  unfold sameObservable. rewrite R1, R2, R3, R4, R5, R6, Hback.
  repeat split; try assumption; try reflexivity.
  - rewrite Hfm. apply wrap16_back. exact HF.
  - destruct Hours as [H _]. unfold c in *. destruct (Colortomove b);
      [exact H | destruct Hopps as [H' _]; exact H'].
  - destruct Hours as [_ H]. unfold c in *. destruct (Colortomove b);
      [exact H | destruct Hopps as [_ H']; exact H'].
  - destruct Hours as [H _]. unfold c in *. destruct (Colortomove b);
      [destruct Hopps as [H' _]; exact H' | exact H].
  - destruct Hours as [_ H]. unfold c in *. destruct (Colortomove b);
      [destruct Hopps as [_ H']; exact H' | exact H].
Qed.

Lemma MakeSimpleMove_save b m :
  snd (MakeSimpleMove b m)
  = let ourCol := Colortomove b in
    let oppCol := oppColor ourCol in
    let fromPiece := PieceAt b (From m) in
    let capturePiece := PieceAt b (To m) in
    mkBoardSave (enpassant b) (Halfmoveclock b) (castlerights b)
      (From m) (To m) (To m)
      fromPiece fromPiece capturePiece
      (pieceBitboard (bbsOf b ourCol) fromPiece)
      (pieceBitboard (bbsOf b ourCol) fromPiece)
      (pieceBitboard (bbsOf b oppCol) capturePiece)
      0 0 (Rooks (bbsOf b ourCol))
      (All (bbsOf b ourCol)) (All (bbsOf b oppCol))
      (hash b).
Proof. reflexivity. Qed.

Lemma MakeSimpleMove_then_Restore b m :
  consistent b ->
  sameObservable (Restore (fst (MakeSimpleMove b m)) (snd (MakeSimpleMove b m)))
                 b.
Proof.
  intros Hc. destruct (cons_fields b Hc) as (_ & _ & _ & _ & Hl).
  destruct (MakeSimpleMove_fields b m) as (F1 & F2 & _).
  pose proof (From_range m) as Hf. pose proof (To_range m) as Ht.
  apply restored_observable; try assumption;
    try (rewrite MakeSimpleMove_save; reflexivity).
  - rewrite MakeSimpleMove_save. cbv zeta. cbn [ToPiece FromPiece].
    intros k _ Hk _. apply (MakeSimpleMove_kinds b m k). exact Hk.
  - rewrite MakeSimpleMove_save. cbv zeta. cbn [CapturePiece].
    intros k Hk. apply (MakeSimpleMove_kinds b m k). exact Hk.
  - rewrite Restore_pieces, MakeSimpleMove_pieces, MakeSimpleMove_save.
    cbv zeta.
    cbn [ToLoc CaptureLoc FromLoc CapturePiece FromPiece OurRookFrom OurRookTo].
    rewrite !PieceAt_pieceOn.
    apply (simple_pieces_back (pieces b) (From m) (To m) Hl Hf Ht).
Qed.

(** *** The slow path *)

Lemma xorPieceSquare_core b idx loc :
  Bbs (xorPieceSquare b idx loc) = Bbs b
  /\ pieces (xorPieceSquare b idx loc) = pieces b.
Proof. split; reflexivity. Qed.

Lemma removePiece_kinds b col p pos k :
  kindBb (removePiece b col p pos) (oppColor col) k = kindBb b (oppColor col) k
  /\ (k <> p -> kindBb (removePiece b col p pos) col k = kindBb b col k).
Proof.
  split; [destruct col; reflexivity
         | intros Hk; destruct col, p, k; try reflexivity; congruence].
Qed.

Lemma removePiece_pieces b col p pos :
  pieces (removePiece b col p pos) = updNth (Z.to_nat pos) Nothing (pieces b).
Proof. reflexivity. Qed.

Lemma movePiece_kinds b col p q f t k :
  kindBb (movePiece b col p q f t) (oppColor col) k = kindBb b (oppColor col) k
  /\ (k <> p -> k <> q ->
      kindBb (movePiece b col p q f t) col k = kindBb b col k).
Proof.
  split.
  - unfold kindBb. rewrite movePiece_opp. reflexivity.
  - intros Hp Hq. unfold kindBb. rewrite movePiece_kind. cbv zeta.
    destruct (Piece_eqb_spec k p); [congruence |].
    destruct (Piece_eqb_spec k q); [congruence | reflexivity].
Qed.

Lemma specialClocks_core b m p :
  Bbs (specialClocks b m p) = Bbs b /\ pieces (specialClocks b m p) = pieces b.
Proof. unfold specialClocks. cbv zeta. split_ifs; split; reflexivity. Qed.

Lemma specialRights_core b m p :
  Bbs (specialRights b m p) = Bbs b /\ pieces (specialRights b m p) = pieces b.
Proof.
  unfold specialRights. cbv zeta.
  destruct (Piece_eqb p King), (Piece_eqb p Rook);
    repeat match goal with
           | |- context [stripRookRights ?x ?c ?fb] =>
               destruct (stripRookRights_core x c fb) as [-> ->]
           | |- context [stripKingRights ?x] =>
               destruct (stripKingRights_core x) as [-> ->]
           end;
    split; reflexivity.
Qed.

Lemma specialEpSquare_core b m p :
  Bbs (specialEpSquare b m p) = Bbs b
  /\ pieces (specialEpSquare b m p) = pieces b.
Proof. unfold specialEpSquare. cbv zeta. split_ifs; split; reflexivity. Qed.

Lemma specialCapturedRook_core b m p :
  Bbs (specialCapturedRook b m p) = Bbs b
  /\ pieces (specialCapturedRook b m p) = pieces b.
Proof.
  unfold specialCapturedRook. destruct (Piece_eqb p Rook);
    [apply stripCapturedRookRights_core | split; reflexivity].
Qed.

Lemma specialFlip_core b e :
  Bbs (specialFlip b e) = Bbs b /\ pieces (specialFlip b e) = pieces b.
Proof. split; reflexivity. Qed.

Lemma specialCastleRook_pieces b cs old new :
  pieces (specialCastleRook b (cs, old, new))
  = if cs =? 0 then pieces b
    else updNth (Z.to_nat new) Rook (updNth (Z.to_nat old) Nothing (pieces b)).
Proof. unfold specialCastleRook. destruct (cs =? 0); reflexivity. Qed.

Lemma specialCastleRook_kinds b castle k :
  kindBb (specialCastleRook b castle) (oppColor (Colortomove b)) k
  = kindBb b (oppColor (Colortomove b)) k
  /\ (k <> Rook ->
      kindBb (specialCastleRook b castle) (Colortomove b) k
      = kindBb b (Colortomove b) k).
Proof.
  unfold specialCastleRook. destruct castle as [[cs old] new].
  destruct (cs =? 0); [split; reflexivity |]. cbv zeta.
  destruct (movePiece_kinds b (Colortomove b) Rook Rook old new k) as [M1 M2].
  split; [exact M1 | intros Hk; apply M2; exact Hk].
Qed.

Lemma specialEpCapture_pieces b m p :
  pieces (specialEpCapture b m p)
  = if isEpCapture m p (enpassant b)
    then updNth (Z.to_nat (wrap8 (enpassant b + epDeltas (Colortomove b))))
                Nothing (pieces b)
    else pieces b.
Proof. unfold specialEpCapture. cbv zeta. destruct (isEpCapture _ _ _); reflexivity. Qed.

Lemma specialEpCapture_kinds b m p k :
  kindBb (specialEpCapture b m p) (Colortomove b) k
  = kindBb b (Colortomove b) k
  /\ (isEpCapture m p (enpassant b) = false \/ k <> Pawn ->
      kindBb (specialEpCapture b m p) (oppColor (Colortomove b)) k
      = kindBb b (oppColor (Colortomove b)) k).
Proof.
  unfold specialEpCapture. cbv zeta.
  destruct (isEpCapture m p (enpassant b)); [| split; reflexivity].
  match goal with
  | |- context [removePiece ?x ?c ?pc ?pos] =>
      destruct (removePiece_kinds x c pc pos k) as [R1 R2]
  end.
  rewrite oppColor_involutive in R1.
  split; [exact R1 |].
  intros [H | H]; [discriminate | apply R2; exact H].
Qed.

Lemma specialCapture_pieces b m cap :
  pieces (specialCapture b m cap)
  = if negb (Piece_eqb cap Nothing)
    then updNth (Z.to_nat (To m)) Nothing (pieces b)
    else pieces b.
Proof. unfold specialCapture. cbv zeta. destruct (negb _); reflexivity. Qed.

Lemma specialCapture_kinds b m cap k :
  kindBb (specialCapture b m cap) (Colortomove b) k
  = kindBb b (Colortomove b) k
  /\ (Piece_eqb cap Nothing = true \/ k <> cap ->
      kindBb (specialCapture b m cap) (oppColor (Colortomove b)) k
      = kindBb b (oppColor (Colortomove b)) k).
Proof.
  unfold specialCapture. cbv zeta.
  destruct (Piece_eqb cap Nothing); cbn [negb]; [split; reflexivity |].
  match goal with
  | |- context [removePiece ?x ?c ?pc ?pos] =>
      destruct (removePiece_kinds x c pc pos k) as [R1 R2]
  end.
  rewrite oppColor_involutive in R1.
  split; [exact R1 |].
  intros [H | H]; [discriminate | apply R2; exact H].
Qed.

Lemma specialMovePiece_pieces b m p q :
  pieces (specialMovePiece b m p q)
  = updNth (Z.to_nat (To m)) q (updNth (Z.to_nat (From m)) Nothing (pieces b)).
Proof. reflexivity. Qed.

Lemma specialMovePiece_kinds b m p q k :
  kindBb (specialMovePiece b m p q) (oppColor (Colortomove b)) k
  = kindBb b (oppColor (Colortomove b)) k
  /\ (k <> p -> k <> q ->
      kindBb (specialMovePiece b m p q) (Colortomove b) k
      = kindBb b (Colortomove b) k).
Proof.
  unfold specialMovePiece. cbv zeta.
  destruct (movePiece_kinds b (Colortomove b) p q (From m) (To m) k)
    as [M1 M2].
  split; [exact M1 | exact M2].
Qed.

End TakeBack.

Section TakeBackSpecial.
Context {zk : ZobristKeys}.

(** The board and the save record [MakeSpecialMove] leaves, by the
    stages of the source. *)
Lemma MakeSpecialMove_anatomy b m :
  let c := Colortomove b in
  let p := PieceAt b (From m) in
  let q := promotedPiece (Promote m) p in
  let castle := castleRook m p in
  let l3 := if fst (fst castle) =? 0 then pieces b
            else updNth (Z.to_nat (snd castle)) Rook
                   (updNth (Z.to_nat (snd (fst castle))) Nothing (pieces b)) in
  let isEp := isEpCapture m p (enpassant b) in
  let epLoc := wrap8 (enpassant b + epDeltas c) in
  let l4 := if isEp then updNth (Z.to_nat epLoc) Nothing l3 else l3 in
  let cap := pieceOn l4 (To m) in
  let isCap := negb (Piece_eqb cap Nothing) in
  let l6 := if isCap then updNth (Z.to_nat (To m)) Nothing l4 else l4 in
  let b' := fst (MakeSpecialMove b m) in
  pieces b' = updNth (Z.to_nat (To m)) q (updNth (Z.to_nat (From m)) Nothing l6)
  /\ (forall k, k <> Rook -> k <> p -> k <> q -> kindBb b' c k = kindBb b c k)
  /\ (forall k, isEp = false \/ k <> Pawn -> isCap = false \/ k <> cap ->
        kindBb b' (oppColor c) k = kindBb b (oppColor c) k)
  /\ exists toBb capBb,
       snd (MakeSpecialMove b m)
       = mkBoardSave (enpassant b) (Halfmoveclock b) (castlerights b)
           (From m) (To m) (if isEp then epLoc else To m)
           p q (if isCap then cap else if isEp then Pawn else Nothing)
           (kindBb b c p) toBb capBb
           (if fst (fst castle) =? 0 then 0 else snd (fst castle))
           (if fst (fst castle) =? 0 then 0 else snd castle)
           (kindBb b c Rook) (All (bbsOf b c)) (All (bbsOf b (oppColor c)))
           (hash b)
       /\ (q <> Rook -> toBb = kindBb b c q)
       /\ (isCap = true -> isEp = false -> capBb = kindBb b (oppColor c) cap)
       /\ (isCap = false -> isEp = true -> capBb = kindBb b (oppColor c) Pawn).
Proof.
  intros c p q castle l3 isEp epLoc l4 cap isCap l6 b'.
  unfold b', MakeSpecialMove. cbv zeta. cbn [fst snd].
  fold c. fold p. fold castle. fold q.
  set (b1 := specialClocks b m p).
  set (b2 := specialRights b1 m p).
  set (b3 := specialCastleRook b2 castle).
  set (b4 := specialEpCapture b3 m p).
  set (b5 := specialEpSquare b4 m p).
  set (b6 := specialCapture b5 m (PieceAt b5 (To m))).
  set (b7 := specialMovePiece b6 m p q).
  set (b8 := specialCapturedRook b7 m (PieceAt b5 (To m))).
  destruct (specialClocks_fields b m p) as (C1 & _ & E1).
  destruct (specialClocks_core b m p) as (B1 & P1).
  destruct (specialRights_fields b1 m p) as (C2 & _ & E2).
  destruct (specialRights_core b1 m p) as (B2 & P2).
  destruct (specialCastleRook_fields b2 castle) as (C3 & _ & E3).
  destruct (specialEpCapture_fields b3 m p) as (C4 & _ & E4).
  destruct (specialEpSquare_fields b4 m p) as (C5 & _ & _).
  destruct (specialEpSquare_core b4 m p) as (B5 & P5).
  destruct (specialCapture_fields b5 m (PieceAt b5 (To m))) as (C6 & _ & _).
  destruct (specialMovePiece_fields b6 m p q) as (C7 & _ & _).
  destruct (specialCapturedRook_core b7 m (PieceAt b5 (To m))) as (B8 & P8).
  destruct (specialFlip_core b8 (enpassant b3)) as (B9 & P9).
  fold b1 in C1, E1, B1, P1, C2, E2, B2, P2.
  fold b2 in C2, E2, B2, P2, C3, E3. fold b3 in C3, E3, C4, E4.
  fold b4 in C4, E4, C5, B5, P5. fold b5 in C5, B5, P5, C6.
  fold b6 in C6, C7. fold b7 in C7, B8, P8. fold b8 in B8, P8, B9, P9.
  assert (K2 : Colortomove b2 = c) by (unfold c; congruence).
  assert (K3 : Colortomove b3 = c) by (unfold c; congruence).
  assert (K4 : Colortomove b4 = c) by (unfold c; congruence).
  assert (K5 : Colortomove b5 = c) by (unfold c; congruence).
  assert (K6 : Colortomove b6 = c) by (unfold c; congruence).
  assert (N3 : enpassant b3 = enpassant b) by congruence.
  assert (L2 : pieces b2 = pieces b) by congruence.
  assert (L3 : pieces b3 = l3).
  { unfold b3. destruct castle as [[cs old] new].
    rewrite specialCastleRook_pieces, L2. reflexivity. }
  assert (L4 : pieces b4 = l4).
  { unfold b4. rewrite specialEpCapture_pieces, N3, K3, L3. reflexivity. }
  assert (L5 : pieces b5 = l4) by congruence.
  assert (Hcap : PieceAt b5 (To m) = cap).
  { rewrite PieceAt_pieceOn, L5. reflexivity. }
  rewrite Hcap, N3.
  assert (L6 : pieces b6 = l6).
  { unfold b6. rewrite Hcap, specialCapture_pieces, L5. reflexivity. }
  assert (Q2 : forall col k, kindBb b2 col k = kindBb b col k).
  { intros col k. rewrite (kindBb_same_Bbs b2 b1), (kindBb_same_Bbs b1 b);
      auto. }
  assert (Q3o : forall k, kindBb b3 (oppColor c) k = kindBb b (oppColor c) k).
  { intros k. destruct (specialCastleRook_kinds b2 castle k) as [H _].
    fold b3 in H. rewrite K2 in H. rewrite H. apply Q2. }
  assert (Q3 : forall k, k <> Rook -> kindBb b3 c k = kindBb b c k).
  { intros k Hk. destruct (specialCastleRook_kinds b2 castle k) as [_ H].
    fold b3 in H. rewrite K2 in H. rewrite H by exact Hk. apply Q2. }
  assert (Q5 : forall k, k <> Rook -> kindBb b5 c k = kindBb b c k).
  { intros k Hk. rewrite (kindBb_same_Bbs b5 b4) by exact B5.
    destruct (specialEpCapture_kinds b3 m p k) as [H _].
    fold b4 in H. rewrite K3 in H. rewrite H. apply Q3. exact Hk. }
  assert (Q5o : forall k, isEp = false \/ k <> Pawn ->
                          kindBb b5 (oppColor c) k = kindBb b (oppColor c) k).
  { intros k Hk. rewrite (kindBb_same_Bbs b5 b4) by exact B5.
    destruct (specialEpCapture_kinds b3 m p k) as [_ H].
    fold b4 in H. rewrite K3, N3 in H. rewrite H by exact Hk. apply Q3o. }
  assert (Q9 : forall col k, kindBb (specialFlip b8 (enpassant b)) col k
                             = kindBb b7 col k).
  { intros col k. rewrite <- N3.
    rewrite (kindBb_same_Bbs _ b8) by exact B9.
    apply kindBb_same_Bbs. exact B8. }
  split; [| split; [| split]].
  - rewrite <- N3, P9, P8. unfold b7.
    rewrite specialMovePiece_pieces, L6. reflexivity.
  - intros k Hr Hp Hq. rewrite Q9.
    destruct (specialMovePiece_kinds b6 m p q k) as [_ H].
    fold b7 in H. rewrite K6 in H. rewrite H by assumption.
    destruct (specialCapture_kinds b5 m (PieceAt b5 (To m)) k) as [H' _].
    fold b6 in H'. rewrite K5 in H'. rewrite H'. apply Q5. exact Hr.
  - intros k He Hcp. rewrite Q9.
    destruct (specialMovePiece_kinds b6 m p q k) as [H _].
    fold b7 in H. rewrite K6 in H. rewrite H.
    destruct (specialCapture_kinds b5 m (PieceAt b5 (To m)) k) as [_ H'].
    fold b6 in H'. rewrite K5, Hcap in H'. rewrite H'.
    + apply Q5o. exact He.
    + destruct Hcp as [Hcp | Hcp]; [left | right; exact Hcp].
      unfold isCap in Hcp. apply negb_false_iff. exact Hcp.
  - exists (kindBb b5 c q).
    exists (if isCap then kindBb b5 (oppColor c) cap
            else if isEp then kindBb b3 (oppColor c) Pawn else 0).
    split; [reflexivity |]. split; [| split].
    + intros Hq. apply Q5. exact Hq.
    + intros -> He. apply Q5o. left. exact He.
    + intros -> ->. apply Q3o.
Qed.

End TakeBackSpecial.

Lemma wrap8_of_difference x : -64 < x < 64 -> wrap8 x = 2 -> x = 2.
Proof.
  intros Hx H. unfold wrap8 in H.
  destruct (Z_lt_le_dec x 0) as [Hn | Hp].
  - replace x with (x + 256 + (-1) * 256) in H by lia.
    rewrite Z.mod_add, Z.mod_small in H by lia. lia.
  - rewrite Z.mod_small in H by lia. exact H.
Qed.

Lemma castleRook_castles m p :
  (fst (fst (castleRook m p)) =? 0) = false ->
  p = King
  /\ ((To m - From m = 2
       /\ snd (fst (castleRook m p)) = wrap8 (To m + 1)
       /\ snd (castleRook m p) = wrap8 (To m - 1))
      \/ (To m - From m = -2
          /\ snd (fst (castleRook m p)) = wrap8 (To m - 2)
          /\ snd (castleRook m p) = wrap8 (To m + 1))).
Proof.
  pose proof (From_range m) as Hf. pose proof (To_range m) as Ht.
  unfold castleRook. destruct (Piece_eqb_spec p King) as [-> | Hp];
    [| intros H; discriminate H].
  destruct (Z.eqb_spec (wrap8 (To m - From m)) 2) as [H2 | H2].
  - intros _. split; [reflexivity |]. left. repeat split.
    apply wrap8_of_difference; [lia | exact H2].
  - destruct (Z.eqb_spec (To m - From m) (-2)) as [H3 | H3].
    + intros _. split; [reflexivity |]. right. repeat split. exact H3.
    + intros H; discriminate H.
Qed.

Lemma castleRook_other m p :
  p <> King -> (fst (fst (castleRook m p)) =? 0) = true.
Proof.
  intros Hp. unfold castleRook.
  destruct (Piece_eqb_spec p King); [contradiction | reflexivity].
Qed.

Section TakeBackAll.
Context {zk : ZobristKeys}.

Lemma MakeSpecialMove_then_Restore b m :
  consistent b -> castleSquaresOk b m ->
  sameObservable
    (Restore (fst (MakeSpecialMove b m)) (snd (MakeSpecialMove b m))) b.
Proof.
  intros Hc Hcs.
  destruct (cons_fields b Hc) as (_ & _ & _ & _ & Hl).
  destruct (MakeSpecialMove_fields b m) as (F1 & F2 & _).
  pose proof (From_range m) as Hf. pose proof (To_range m) as Ht.
  pose proof (MakeSpecialMove_anatomy b m) as A. cbv zeta in A.
  unfold castleSquaresOk in Hcs.
  set (c := Colortomove b) in *.
  set (p := PieceAt b (From m)) in *.
  set (q := promotedPiece (Promote m) p) in *.
  set (castle := castleRook m p) in *.
  set (cs0 := fst (fst castle) =? 0) in *.
  set (old := snd (fst castle)) in *.
  set (new := snd castle) in *.
  set (l3 := if cs0 then pieces b
             else updNth (Z.to_nat new) Rook
                    (updNth (Z.to_nat old) Nothing (pieces b))) in *.
  set (isEp := isEpCapture m p (enpassant b)) in *.
  set (epLoc := wrap8 (enpassant b + epDeltas c)) in *.
  set (l4 := if isEp then updNth (Z.to_nat epLoc) Nothing l3 else l3) in *.
  set (cap := pieceOn l4 (To m)) in *.
  set (isCap := negb (Piece_eqb cap Nothing)) in *.
  set (l6 := if isCap then updNth (Z.to_nat (To m)) Nothing l4 else l4) in *.
  destruct A as (A1 & A2 & A3 & toBb & capBb & S & T1 & T2 & T3).
  (* the castling rook *)
  assert (HC : cs0 = false ->
               0 <= old < 64 /\ 0 <= new < 64 /\ isEp = false
               /\ pieceOn (pieces b) old = Rook
               /\ pieceOn (pieces b) new = Nothing
               /\ old <> new /\ old <> From m /\ old <> To m
               /\ new <> From m /\ new <> To m).
  { intros H0. destruct (castleRook_castles m p H0) as (Hp & Hcase).
    fold castle in Hcase. fold old in Hcase. fold new in Hcase.
    destruct (Hcs Hp) as (Hshort & Hlong).
    assert (He : isEp = false).
    { unfold isEp, isEpCapture. rewrite Hp. reflexivity. }
    destruct Hcase as [(Hd & -> & ->) | (Hd & -> & ->)].
    - destruct (Hshort Hd) as (H1 & H2 & H3).
      unfold wrap8. rewrite !Z.mod_small by lia.
      rewrite <- !PieceAt_pieceOn. repeat split; try assumption; lia.
    - destruct (Hlong Hd) as (H1 & H2 & H3).
      unfold wrap8. rewrite !Z.mod_small by lia.
      rewrite <- !PieceAt_pieceOn. repeat split; try assumption; lia. }
  (* the pawn taken en passant *)
  assert (HE : isEp = true ->
               (0 <= epLoc < 64 /\ pieceOn (pieces b) epLoc = Pawn
                /\ pieceOn (pieces b) (To m) = Nothing /\ epLoc <> To m)
               /\ cs0 = true).
  { intros H. unfold isEp, isEpCapture in H.
    rewrite !andb_true_iff, negb_true_iff, Z.eqb_eq, Z.eqb_neq in H.
    destruct H as ((Hp & Hto) & Hne).
    destruct (Piece_eqb_spec p Pawn) as [Hp' | ]; [| discriminate Hp].
    destruct (cons_ep b Hc Hne) as (Hr & Hn & Hb).
    unfold oppBitboards in Hb. fold c in Hr, Hb.
    assert (Hloc : epLoc = enpassant b + epDeltas c /\ 0 <= epLoc < 64).
    { unfold epLoc, wrap8. destruct c; cbn [epDeltas] in *;
        rewrite Z.mod_small by lia; lia. }
    destruct Hloc as (Hloc & Hlr).
    split; [repeat split; try lia |].
    - rewrite <- PieceAt_pieceOn, Hloc.
      apply (cons_kind_piece b Hc (oppColor c) Pawn);
        [lia | discriminate | exact Hb].
    - rewrite <- PieceAt_pieceOn, Hto. exact Hn.
    - rewrite Hloc, Hto. destruct c; cbn [epDeltas]; lia.
    - unfold cs0, castle. apply castleRook_other. rewrite Hp'. discriminate. }
  assert (Hex : isEp = true -> isCap = false).
  { intros H. destruct (HE H) as ((Hr & _ & Hn & Hd) & H0).
    unfold isCap, cap, l4, l3. rewrite H, H0. cbv iota.
    rewrite pieceOn_upd by (rewrite ?Hl; lia).
    destruct (Z.eqb_spec (To m) epLoc) as [E | _]; [reflexivity |].
    rewrite Hn. reflexivity. }
  apply restored_observable; try assumption; fold c;
    try (rewrite S; reflexivity).
  - rewrite S. cbn [ToPiece FromPiece ToBb]. intros Hq _. apply T1. exact Hq.
  - rewrite S. cbn [CapturePiece CaptureBb]. intros Hcp.
    destruct isCap eqn:Ecap.
    + apply T2; [reflexivity |]. destruct isEp; [| reflexivity].
      specialize (Hex eq_refl). discriminate Hex.
    + destruct isEp eqn:Eep; [| contradiction].
      apply T3; reflexivity.
  - rewrite S. cbn [CapturePiece]. intros k Hk. apply A3.
    + destruct isEp eqn:Eep; [right | left; reflexivity].
      rewrite (Hex eq_refl) in Hk. exact Hk.
    + destruct isCap eqn:Ecap; [right; exact Hk | left; reflexivity].
  - rewrite Restore_pieces, A1, S. cbv zeta.
    cbn [ToLoc CaptureLoc FromLoc CapturePiece FromPiece OurRookFrom OurRookTo].
    apply (special_pieces_restored (pieces b) (From m) (To m) old new epLoc
             cs0 isEp q Hl Hf Ht HC).
    intros H. apply (HE H).
Qed.

End TakeBackAll.

Section TakeBackMove.
Context {zk : ZobristKeys}.

(** X28. Taking a move back.  On a consistent board, [MakeMove] followed
    by [Restore] with the save record that [MakeMove] filled gives back
    the side to move, the en-passant square, both clocks, the castle
    rights, the twelve piece bitboards, both [All] bitboards, the pieces
    array and the hash.  On the slow path a king move of two files is
    taken for a castle, and has to find its rook beside the target
    square and the rook's new square empty. *)
Theorem MakeMove_then_Restore (b : Board) (m : Move) :
  consistent b ->
  (IsSimple m = false -> castleSquaresOk b m) ->
  sameObservable (Restore (fst (MakeMove b m)) (snd (MakeMove b m))) b.
Proof.
  intros Hc Hcs. unfold MakeMove. destruct (IsSimple m).
  - apply MakeSimpleMove_then_Restore. exact Hc.
  - apply MakeSpecialMove_then_Restore; [exact Hc | apply Hcs; reflexivity].
Qed.

End TakeBackMove.

Section TakeBackSamples.
#[local] Existing Instance sampleKeys.

(** White castles short in the sample position and takes it back. *)
Lemma MakeMove_then_Restore_witness :
  consistent kiwipete
  /\ (IsSimple (mkMove 4 6) = false -> castleSquaresOk kiwipete (mkMove 4 6))
  /\ sameObservable
       (Restore (fst (MakeMove kiwipete (mkMove 4 6)))
                (snd (MakeMove kiwipete (mkMove 4 6))))
       kiwipete.
Proof.
  assert (Hc : consistent kiwipete) by (vm_compute; reflexivity).
  assert (Hs : IsSimple (mkMove 4 6) = false ->
               castleSquaresOk kiwipete (mkMove 4 6)).
  { intros _ _. split; intros H.
    - repeat split; vm_compute; reflexivity.
    - vm_compute in H. discriminate H. }
  split; [exact Hc | split; [exact Hs |]].
  apply (MakeMove_then_Restore kiwipete (mkMove 4 6) Hc Hs).
Defined.

End TakeBackSamples.
